(** * DMX datamodel codec (io_scene_valvesource/datamodel.py)

    A shallow embedding of the element graph model, the string
    dictionary, the binary and KeyValues2 writers, the binary reader and
    the graph traversals of [datamodel.py], followed by the properties
    of the codec that the specification states about them.

    Conventions of the embedding:
    - Python objects with identity (Element, DataModel) live in a heap,
      a list indexed by reference; attribute values hold references.
    - A function that may raise returns a [result]; where the state
      left behind by an exception matters (attribute assignment, file
      reads) the state is returned next to the outcome.
    - [struct] packs in native order; the embedding fixes little-endian,
      the order of every platform the add-on ships for.
    - Recursion over the graph takes a fuel argument that the entry
      points supply; running out of it is the outcome [OutOfFuel], and
      the properties that state a result prove that the fuel lasts. *)

From Stdlib Require Import ZArith NArith List String Ascii Strings.Byte Bool Lia.
From Stdlib Require Import DecimalString DecimalPos.
From Stdlib Require Import Numbers.Cyclic.Int63.Uint63.
From Stdlib Require Import Floats.PrimFloat Floats.SpecFloat Floats.FloatOps.
From stdpp Require Import base option list.

Local Open Scope Z_scope.
Local Open Scope list_scope.

(** ** Python outcomes *)

Module Py.

(** The exceptions the module raises or lets escape.  [Hang] stands for
    a loop that never ends (no exception, no result); [OutOfFuel] is the
    embedding's own bound on recursion depth. *)
Inductive exn : Type :=
| ValueError (msg : string)
| TypeError (msg : string)
| IDCollisionError
| AssertionError
| StructError
| IndexError
| UnicodeError
| OverflowError
| Exception (msg : string)
| IOError (msg : string)
| Hang
| OutOfFuel.

Inductive result (A : Type) : Type :=
| Ok (a : A)
| Raise (e : exn).
Arguments Ok {A} a.
Arguments Raise {A} e.

Definition bind {A B} (m : result A) (k : A -> result B) : result B :=
  match m with
  | Ok a => k a
  | Raise e => Raise e
  end.

Definition is_ok {A} (m : result A) : bool :=
  match m with Ok _ => true | Raise _ => false end.

(** [for x in l: acc = f(acc, x)] with early exit on an exception. *)
Fixpoint foldM {A S} (f : S -> A -> result S) (l : list A) (s : S) : result S :=
  match l with
  | [] => Ok s
  | x :: l' => bind (f s x) (foldM f l')
  end.

Fixpoint mapM {A B} (f : A -> result B) (l : list A) : result (list B) :=
  match l with
  | [] => Ok []
  | x :: l' => bind (f x) (fun y => bind (mapM f l') (fun ys => Ok (y :: ys)))
  end.

End Py.
Export Py.

Declare Scope py_scope.
Delimit Scope py_scope with py.
Notation "x <- m ;; k" := (Py.bind m (fun x => k))
  (at level 100, m at next level, right associativity) : py_scope.
Local Open Scope py_scope.

(** ** Bytes and [struct] *)

Module Struct.

Definition byte_of_Z (z : Z) : byte :=
  match Byte.of_N (Z.to_N (z mod 256)) with
  | Some b => b
  | None => x00
  end.

Definition Z_of_byte (b : byte) : Z := Z.of_N (Byte.to_N b).

(** [n] bytes of [z], least significant first. *)
Fixpoint le_bytes (n : nat) (z : Z) : list byte :=
  match n with
  | O => []
  | S n' => byte_of_Z z :: le_bytes n' (z / 256)
  end.

Fixpoint le_decode (l : list byte) : Z :=
  match l with
  | [] => 0
  | b :: l' => Z_of_byte b + 256 * le_decode l'
  end.

(** [struct.pack("i", z)]: a signed 32-bit integer, [struct.error]
    outside its range. *)
Definition pack_i (z : Z) : result (list byte) :=
  if (-2147483648 <=? z) && (z <? 2147483648)
  then Ok (le_bytes 4 (z mod 4294967296))
  else Raise StructError.

(** [struct.pack("H", z)]: an unsigned 16-bit integer. *)
Definition pack_H (z : Z) : result (list byte) :=
  if (0 <=? z) && (z <? 65536) then Ok (le_bytes 2 z) else Raise StructError.

(** [struct.pack("b", z)]: a signed byte. *)
Definition pack_b (z : Z) : result (list byte) :=
  if (-128 <=? z) && (z <? 128) then Ok (le_bytes 1 (z mod 256)) else Raise StructError.

Definition unpack_i (l : list byte) : Z :=
  let u := le_decode l in
  if u <? 2147483648 then u else u - 4294967296.

Definition unpack_H (l : list byte) : Z := le_decode l.

End Struct.
Export Struct.

(** ** Strings *)

Module Str.

Definition is_ascii (c : ascii) : bool := (N_of_ascii c <? 128)%N.

(** [bytes(string, 'ASCII')]: [UnicodeEncodeError] on a character
    outside ASCII. *)
Definition encode_ascii (s : string) : result (list byte) :=
  if forallb is_ascii (list_ascii_of_string s)
  then Ok (list_byte_of_string s)
  else Raise UnicodeError.

(** [_encode_binary_string]: the ASCII bytes and one NUL ([bytes(1)]). *)
Definition _encode_binary_string (s : string) : result (list byte) :=
  b <- encode_ascii s ;; Ok (b ++ [x00]).

Definition dquote : string := String "034"%char EmptyString.

Definition _quote (s : string) : string := (dquote ++ s ++ dquote)%string.

End Str.
Export Str.

(** ** Type system *)

Module Types.

(** The classes an attribute value can have ([_dmxtypes_all]) and
    [type(None)]. *)
Inductive pytype : Type :=
| NoneType
| T_Element | T_int | T_float | T_bool | T_str | T_Binary | T_Time | T_Color
| T_Vector2 | T_Vector3 | T_Vector4 | T_Angle | T_Quaternion | T_Matrix
| T_ElementArray | T_IntArray | T_FloatArray | T_BoolArray | T_StrArray
| T_BinaryArray | T_TimeArray | T_ColorArray | T_Vector2Array | T_Vector3Array
| T_Vector4Array | T_AngleArray | T_QuaternionArray | T_MatrixArray.

Definition pytype_eq_dec (a b : pytype) : {a = b} + {a <> b}.
Proof. decide equality. Defined.

Definition pytype_eqb (a b : pytype) : bool :=
  if pytype_eq_dec a b then true else false.

Definition _dmxtypes : list pytype :=
  [T_Element; T_int; T_float; T_bool; T_str; T_Binary; T_Time; T_Color; T_Vector2;
   T_Vector3; T_Vector4; T_Angle; T_Quaternion; T_Matrix].

Definition _dmxtypes_array : list pytype :=
  [T_ElementArray; T_IntArray; T_FloatArray; T_BoolArray; T_StrArray; T_BinaryArray;
   T_TimeArray; T_ColorArray; T_Vector2Array; T_Vector3Array; T_Vector4Array;
   T_AngleArray; T_QuaternionArray; T_MatrixArray].

Definition _dmxtypes_all : list pytype := _dmxtypes ++ _dmxtypes_array.

Definition _dmxtypes_str : list string :=
  ["element"; "int"; "float"; "bool"; "string"; "binary"; "time"; "color"; "vector2";
   "vector3"; "vector4"; "angle"; "quaternion"; "matrix"]%string.

(** An entry of the binary type tables: a class, [None] (slot 0), or
    one of the two legacy strings. *)
Inductive entry : Type :=
| ENone
| EType (t : pytype)
| EObjectID
| EObjectIDArray.

Definition attr_list_v1 : list entry :=
  [ENone; EType T_Element; EType T_int; EType T_float; EType T_bool; EType T_str;
   EType T_Binary; EObjectID; EType T_Color; EType T_Vector2; EType T_Vector3;
   EType T_Vector4; EType T_Angle; EType T_Quaternion; EType T_Matrix;
   EType T_ElementArray; EType T_IntArray; EType T_FloatArray; EType T_BoolArray;
   EType T_StrArray; EType T_BinaryArray; EObjectIDArray; EType T_ColorArray;
   EType T_Vector2Array; EType T_Vector3Array; EType T_Vector4Array;
   EType T_AngleArray; EType T_QuaternionArray; EType T_MatrixArray].

Definition attr_list_v2 : list entry :=
  [ENone; EType T_Element; EType T_int; EType T_float; EType T_bool; EType T_str;
   EType T_Binary; EType T_Time; EType T_Color; EType T_Vector2; EType T_Vector3;
   EType T_Vector4; EType T_Angle; EType T_Quaternion; EType T_Matrix;
   EType T_ElementArray; EType T_IntArray; EType T_FloatArray; EType T_BoolArray;
   EType T_StrArray; EType T_BinaryArray; EType T_TimeArray; EType T_ColorArray;
   EType T_Vector2Array; EType T_Vector3Array; EType T_Vector4Array;
   EType T_AngleArray; EType T_QuaternionArray; EType T_MatrixArray].

(** [list.index]: position of the first equal item, [ValueError] when
    there is none. *)
Fixpoint index_of {A} (eqb : A -> A -> bool) (x : A) (l : list A) : option nat :=
  match l with
  | [] => None
  | y :: l' => if eqb y x then Some O else option_map S (index_of eqb x l')
  end.

Definition entry_is (t : pytype) (e : entry) : bool :=
  match e with EType u => pytype_eqb u t | _ => false end.

Fixpoint entry_index (t : pytype) (l : list entry) : option nat :=
  match l with
  | [] => None
  | e :: l' => if entry_is t e then Some O else option_map S (entry_index t l')
  end.

Definition _get_array_type (single_type : pytype) : result pytype :=
  if existsb (pytype_eqb single_type) _dmxtypes_array
  then Raise (ValueError "Argument is already an array type")
  else match index_of pytype_eqb single_type _dmxtypes with
       | Some i => match _dmxtypes_array !! i with
                   | Some t => Ok t
                   | None => Raise IndexError
                   end
       | None => Raise (ValueError "not in list")
       end.

Definition _get_single_type (array_type : pytype) : result pytype :=
  if existsb (pytype_eqb array_type) _dmxtypes
  then Raise (ValueError "Argument is already a single type")
  else match index_of pytype_eqb array_type _dmxtypes_array with
       | Some i => match _dmxtypes !! i with
                   | Some t => Ok t
                   | None => Raise IndexError
                   end
       | None => Raise (ValueError "not in list")
       end.

Definition is_binary_encoding (encoding : string) : bool :=
  String.eqb encoding "binary" || String.eqb encoding "binary_proto".

(** [_get_dmx_id_type] for the binary encodings (a numeric id). *)
Definition _get_dmx_id_type (encoding : string) (version : Z) (id : Z) : result entry :=
  let pick (tbl : list entry) :=
    match tbl !! Z.to_nat id with
    | Some e => Ok e
    | None => Raise IndexError
    end in
  if is_binary_encoding encoding && existsb (Z.eqb version) [1; 2] then pick attr_list_v1
  else if is_binary_encoding encoding && existsb (Z.eqb version) [3; 4; 5] then pick attr_list_v2
  else if String.eqb encoding "keyvalues2" then Raise (ValueError "not in list")
  else Raise (ValueError "Type ID invalid").

(** [_get_dmx_type_id]: [None] when no branch returns. *)
Definition _get_dmx_type_id (encoding : string) (version : Z) (t : pytype)
  : result (option Z) :=
  let t := if pytype_eqb t NoneType then T_Element else t in
  let find (tbl : list entry) :=
    match entry_index t tbl with
    | Some i => Ok (Some (Z.of_nat i))
    | None => Raise (ValueError "Type not supported")
    end in
  if String.eqb encoding "keyvalues2"
  then Raise (ValueError "Type IDs do not exist in KeyValues2")
  else if String.eqb encoding "binary" then
    if existsb (Z.eqb version) [1; 2] then find attr_list_v1
    else if existsb (Z.eqb version) [3; 4; 5] then find attr_list_v2
    else Ok None
  else if String.eqb encoding "binary_proto" then find attr_list_v1
  else Ok None.

End Types.
Export Types.

(** ** Element graph model *)

Module Model.

(** References to [Element] and [DataModel] objects: positions in the
    heap.  Two references are the same object iff they are equal. *)
Abbreviation ref := nat (only parsing).
Abbreviation dmref := nat (only parsing).

(** [uuid.UUID]: its 128-bit integer. *)
Abbreviation uuid := N (only parsing).

Inductive vkind : Type :=
| KVector2 | KVector3 | KVector4 | KAngle | KQuaternion | KColor.

(** Attribute values.  Vectors, angles, quaternions and colours are all
    [_Vector] lists of floats ([_Vector.__init__] converts every
    component to [float], also for [Color]); an [_ElementArray] can hold
    [None] (the readers append it for a null reference) and so can a
    [_BinaryArray] (the text reader appends it); the items of a
    vector array carry their own class ([make_array] converts them to
    the array's [type], the binary reader appends what it read); a
    [_MatrixArray] is a plain object without content. *)
Inductive value : Type :=
| VNone
| VElement (r : ref)
| VInt (z : Z)
| VFloat (f : float)
| VBool (b : bool)
| VStr (s : string)
| VBinary (b : list byte)
| VTime (t : float)
| VVector (k : vkind) (v : list float)
| VMatrix (m : list (list float))
| VElementArray (l : list (option ref))
| VIntArray (l : list Z)
| VFloatArray (l : list float)
| VBoolArray (l : list bool)
| VStrArray (l : list string)
| VBinaryArray (l : list (option (list byte)))
| VTimeArray (l : list float)
| VVectorArray (k : vkind) (l : list (vkind * list float))
| VMatrixArray.

Definition vkind_type (k : vkind) : pytype :=
  match k with
  | KVector2 => T_Vector2 | KVector3 => T_Vector3 | KVector4 => T_Vector4
  | KAngle => T_Angle | KQuaternion => T_Quaternion | KColor => T_Color
  end.

Definition vkind_array_type (k : vkind) : pytype :=
  match k with
  | KVector2 => T_Vector2Array | KVector3 => T_Vector3Array | KVector4 => T_Vector4Array
  | KAngle => T_AngleArray | KQuaternion => T_QuaternionArray | KColor => T_ColorArray
  end.

(** [type(value)]. *)
Definition type_of (v : value) : pytype :=
  match v with
  | VNone => NoneType
  | VElement _ => T_Element
  | VInt _ => T_int
  | VFloat _ => T_float
  | VBool _ => T_bool
  | VStr _ => T_str
  | VBinary _ => T_Binary
  | VTime _ => T_Time
  | VVector k _ => vkind_type k
  | VMatrix _ => T_Matrix
  | VElementArray _ => T_ElementArray
  | VIntArray _ => T_IntArray
  | VFloatArray _ => T_FloatArray
  | VBoolArray _ => T_BoolArray
  | VStrArray _ => T_StrArray
  | VBinaryArray _ => T_BinaryArray
  | VTimeArray _ => T_TimeArray
  | VVectorArray k _ => vkind_array_type k
  | VMatrixArray => T_MatrixArray
  end.

(** [class Element(collections.OrderedDict)]: the ordered attributes and
    the instance fields. *)
Record Element : Type := mkElement {
  e_name : string;
  e_type : string;
  e_id : uuid;
  e_is_placeholder : bool;
  e_datamodels : list dmref;
  e_users : nat;
  e_attrs : list (string * value)
}.

(** [class DataModel]. *)
Record DataModel : Type := mkDataModel {
  dm_format : string;
  dm_format_ver : Z;
  dm_elements : list ref;
  dm_root : option ref
}.

Abbreviation heap := (list Element) (only parsing).

Record world : Type := mkWorld {
  w_heap : heap;
  w_dms : list DataModel
}.

Definition empty_element : Element :=
  mkElement EmptyString EmptyString 0%N false [] 0 [].

Definition empty_datamodel : DataModel := mkDataModel EmptyString 0 [] None.

(** The object a reference points to. *)
Definition deref (h : heap) (r : ref) : Element := nth r h empty_element.

Definition dm_deref (ds : list DataModel) (d : dmref) : DataModel :=
  nth d ds empty_datamodel.

Definition update (h : heap) (r : ref) (f : Element -> Element) : heap :=
  <[r := f (deref h r)]> h.

(** The [type] of a vector array class, to which [make_array] converts
    the items: [_ColorArray] inherits [Vector4] from [_Vector4Array]. *)
Definition item_kind (k : vkind) : vkind :=
  match k with KColor => KVector4 | _ => k end.

(** [make_array(l, t)] for a vector class [t]. *)
Definition make_vector_array (k : vkind) (l : list (list float)) : value :=
  VVectorArray k (map (fun v => (item_kind k, v)) l).

(** *** Element protocol *)

(** [bool(elem)]: an [OrderedDict] is true iff it has a key. *)
Definition truthy (e : Element) : bool :=
  match e_attrs e with [] => false | _ :: _ => true end.

(** [Element.__eq__]: [other and self.id == other.id]; [None] for
    [other] is false. *)
Definition Element_eq (self : Element) (other : option Element) : bool :=
  match other with
  | None => false
  | Some o => truthy o && (e_id self =? e_id o)%N
  end.

(** [Element.__hash__]: [int(self.id)]. *)
Definition Element_hash (self : Element) : Z := Z.of_N (e_id self).

(** [x in l] for a list of elements: [any(x is e or x == e for e in l)]. *)
Definition elem_in (h : heap) (x : ref) (l : list ref) : bool :=
  existsb (fun e => Nat.eqb x e || Element_eq (deref h x) (Some (deref h e))) l.

(** [l.index(x)]: the first [e] with [e is x or e == x]. *)
Definition elem_index (h : heap) (l : list ref) (x : ref) : option nat :=
  index_of (fun e y => Nat.eqb e y || Element_eq (deref h e) (Some (deref h y))) x l.

(** [OrderedDict.__getitem__] / [__setitem__]: an existing key keeps its
    position. *)
Fixpoint od_get {V} (d : list (string * V)) (k : string) : option V :=
  match d with
  | [] => None
  | (k', v) :: d' => if String.eqb k' k then Some v else od_get d' k
  end.

Fixpoint od_set {V} (d : list (string * V)) (k : string) (v : V) : list (string * V) :=
  match d with
  | [] => [(k, v)]
  | (k', v') :: d' => if String.eqb k' k then (k, v) :: d' else (k', v') :: od_set d' k v
  end.

(** [Element.__getitem__]: the module's own [AttributeError]. *)
Definition Element_getitem (e : Element) (item : string) : result value :=
  match od_get (e_attrs e) item with
  | Some v => Ok v
  | None => Raise (Exception "AttributeError: No attribute on element")
  end.

End Model.
Export Model.

(** ** Supported encodings *)

Module Support.

Definition list_support : list (string * list Z) :=
  [("binary"%string, [1; 2; 3; 4; 5]); ("keyvalues2"%string, [1]);
   ("binary_proto"%string, [2])].

(** [check_support]: [dict.get] gives [None] for an unknown encoding. *)
Definition check_support (encoding : string) (encoding_ver : Z) : result unit :=
  match od_get list_support encoding with
  | None => Raise (ValueError "DMX encoding is not supported")
  | Some [] => Raise (ValueError "DMX encoding is not supported")
  | Some versions =>
      if existsb (Z.eqb encoding_ver) versions then Ok tt
      else Raise (ValueError "Version of DMX is not supported")
  end.

(** The support matrix as a predicate. *)
Definition supported (encoding : string) (encoding_ver : Z) : Prop :=
  (encoding = "binary"%string /\ 1 <= encoding_ver <= 5) \/
  (encoding = "keyvalues2"%string /\ encoding_ver = 1) \/
  (encoding = "binary_proto"%string /\ encoding_ver = 2).

End Support.
Export Support.

(** ** Building and merging graphs *)

Module Graph.

(** A loop over a list whose body changes the state and may raise; the
    state reached when the exception is raised is kept. *)
Fixpoint forS {A S} (f : A -> S -> S * result unit) (l : list A) (s : S)
  : S * result unit :=
  match l with
  | [] => (s, Ok tt)
  | x :: l' =>
      match f x s with
      | (s', Ok _) => forS f l' s'
      | (s', Raise e) => (s', Raise e)
      end
  end.

Definition append_element (d : DataModel) (r : ref) : DataModel :=
  mkDataModel (dm_format d) (dm_format_ver d) (dm_elements d ++ [r]) (dm_root d).

Definition set_root (d : DataModel) (r : ref) : DataModel :=
  mkDataModel (dm_format d) (dm_format_ver d) (dm_elements d) (Some r).

Definition add_datamodel (e : Element) (d : dmref) : Element :=
  mkElement (e_name e) (e_type e) (e_id e) (e_is_placeholder e)
    (if existsb (Nat.eqb d) (e_datamodels e) then e_datamodels e
     else e_datamodels e ++ [d])
    (e_users e) (e_attrs e).

Definition set_users (n : nat) (e : Element) : Element :=
  mkElement (e_name e) (e_type e) (e_id e) (e_is_placeholder e)
    (e_datamodels e) n (e_attrs e).

Definition set_attr (k : string) (v : value) (e : Element) : Element :=
  mkElement (e_name e) (e_type e) (e_id e) (e_is_placeholder e)
    (e_datamodels e) (e_users e) (od_set (e_attrs e) k v).

(** The [try] block of [add_element]: look the new element up and raise
    when the hit is not a placeholder. *)
Definition add_element_dupe_check (h : heap) (elements : list ref) (elem : ref)
  : result unit :=
  match elem_index h elements elem with
  | None => Raise (ValueError "is not in list")
  | Some dupe_elem =>
      if negb (e_is_placeholder (deref h (nth dupe_elem elements 0%nat)))
      then Raise (ValueError "ID already in use in this datamodel.")
      else Ok tt
  end.

(** [DataModel.add_element]; [id] is the UUID the constructor ends up
    with (given, derived from a string, or drawn at random).  The bare
    [except: pass] swallows whatever the [try] block raises. *)
Definition add_element (w : world) (self : dmref) (name elemtype : string) (id : uuid)
    (_is_placeholder : bool) : world * ref :=
  let elem := length (w_heap w) in
  let h := w_heap w ++ [mkElement name elemtype id _is_placeholder [self] 0 []] in
  let d := dm_deref (w_dms w) self in
  let _ := match add_element_dupe_check h (dm_elements d) elem with
           | Ok _ => tt
           | Raise _ => tt
           end in
  let d := append_element d elem in
  let d := if Nat.eqb (length (dm_elements d)) 1 then set_root d elem else d in
  (mkWorld h (<[self := d]> (w_dms w)), elem).

(** The scan of [import_element]: some element of the datamodel has the
    id of [elem]. *)
Definition id_in_use (h : heap) (d : DataModel) (elem : ref) : bool :=
  existsb (fun dm_e => (e_id (deref h dm_e) =? e_id (deref h elem))%N) (dm_elements d).

Definition register (w : world) (dm : dmref) (elem : ref) : world :=
  mkWorld (update (w_heap w) elem (fun e => add_datamodel e dm))
          (<[dm := append_element (dm_deref (w_dms w) dm) elem]> (w_dms w)).

(** [import_element], the closure of [Element.__setitem__] over [self]. *)
Fixpoint import_element (fuel : nat) (self : ref) (elem : option ref) (w : world)
  : world * result unit :=
  match fuel, elem with
  | O, _ => (w, Raise OutOfFuel)
  | _, None => (w, Raise (Exception "AttributeError: NoneType has no _datamodels"))
  | S fuel', Some elem =>
      forS (fun dm w =>
        if existsb (Nat.eqb dm) (e_datamodels (deref (w_heap w) elem)) then (w, Ok tt)
        else if id_in_use (w_heap w) (dm_deref (w_dms w) dm) elem
        then (w, Raise IDCollisionError)
        else
          forS (fun kv w =>
            match snd kv with
            | VElement r => import_element fuel' self (Some r) w
            | VElementArray l => forS (import_element fuel' self) l w
            | _ => (w, Ok tt)
            end) (e_attrs (deref (w_heap w) elem)) (register w dm elem))
        (e_datamodels (deref (w_heap w) self)) w
  end.

(** The fuel an import is given, one unit for each (element, datamodel)
    pair: a call recurses only after registering its element with a
    datamodel. *)
Definition import_fuel (w : world) : nat :=
  S (length (w_heap w) * length (w_dms w)).

(** [Element.__setitem__(self, key, item)]. *)
Definition Element_setitem (w : world) (self : ref) (key : string) (item : value)
  : world * result unit :=
  let imported :=
    match item with
    | VElement r => import_element (import_fuel w) self (Some r) w
    | VElementArray l => forS (import_element (import_fuel w) self) l w
    | _ => (w, Ok tt)
    end in
  match imported with
  | (w', Ok _) => (mkWorld (update (w_heap w') self (set_attr key item)) (w_dms w'), Ok tt)
  | (w', Raise e) => (w', Raise e)
  end.

End Graph.
Export Graph.

(** ** Text helpers *)

Module Text.

Definition hex_digit (n : N) : ascii :=
  nth (N.to_nat n) (list_ascii_of_string "0123456789abcdef") "0"%char.

(** [digits] lower-case hexadecimal digits of [n], most significant
    first. *)
Fixpoint hex_of_N (digits : nat) (n : N) : list ascii :=
  match digits with
  | O => []
  | S d => hex_of_N d (n / 16)%N ++ [hex_digit (n mod 16)%N]
  end.

(** [str(uuid)]: 8-4-4-4-12 hexadecimal digits. *)
Definition uuid_str (u : uuid) : string :=
  let d := hex_of_N 32 u in
  let part (a b : nat) := firstn (b - a) (skipn a d) in
  string_of_list_ascii
    (part 0 8 ++ ["-"%char] ++ part 8 12 ++ ["-"%char] ++ part 12 16 ++ ["-"%char]
       ++ part 16 20 ++ ["-"%char] ++ part 20 32)%nat.

(** [uuid.bytes]: the 16 bytes of the integer, most significant first. *)
Definition uuid_bytes (u : uuid) : list byte := rev (le_bytes 16 (Z.of_N u)).

(** [uuid.UUID(bytes_le=b)]: the first three fields are stored least
    significant byte first. *)
Definition uuid_of_bytes_le (b : list byte) : uuid :=
  let be := rev (firstn 4 b) ++ rev (firstn 2 (skipn 4 b))
            ++ rev (firstn 2 (skipn 6 b)) ++ skipn 8 b in
  Z.to_N (le_decode (rev be)).

(** [binascii.hexlify(b).decode('ASCII')]. *)
Definition hexlify (b : list byte) : string :=
  string_of_list_ascii (concat (map (fun x => hex_of_N 2 (Byte.to_N x)) b)).

(** [str(int)]. *)
Definition str_of_Z (z : Z) : string :=
  match z with
  | Z0 => "0"
  | Zpos p => DecimalString.NilEmpty.string_of_uint (Pos.to_uint p)
  | Zneg p => String "-" (DecimalString.NilEmpty.string_of_uint (Pos.to_uint p))
  end.

Fixpoint drop_leading (c : ascii) (l : list ascii) : list ascii :=
  match l with
  | [] => []
  | x :: l' => if Ascii.eqb x c then drop_leading c l' else l
  end.

(** [s.rstrip(c)] for one character. *)
Definition rstrip (c : ascii) (s : string) : string :=
  string_of_list_ascii (rev (drop_leading c (rev (list_ascii_of_string s)))).

(** [sep.join(l)]. *)
Fixpoint join (sep : string) (l : list string) : string :=
  match l with
  | [] => EmptyString
  | [x] => x
  | x :: l' => (x ++ sep ++ join sep l')%string
  end.

(** ['\t' * n]. *)
Fixpoint tabs (n : nat) : string :=
  match n with
  | O => EmptyString
  | S n' => String "009"%char (tabs n')
  end.

Definition nl : string := String "010"%char EmptyString.

End Text.
Export Text.

(** ** Multiplicity counting *)

Module Count.

Definition incr_users (h : heap) (r : ref) : heap :=
  update h r (fun e => set_users (S (e_users e)) e).

(** [for elem in self.elements: elem._users = 0]. *)
Definition reset_users (h : heap) (elements : list ref) : heap :=
  fold_left (fun h r => update h r (set_users 0)) elements h.

(** The heap and [out_elems]. *)
Definition cstate : Type := heap * list ref.

(** One slot holding an element: visit it unless it is in [out_elems],
    then count the slot.  [None] is never in [out_elems], and visiting it
    raises. *)
Definition count_slot (visit : option ref -> cstate -> result cstate)
    (i : option ref) (s : cstate) : result cstate :=
  match i with
  | None => visit None s
  | Some r =>
      s' <- (if elem_in (fst s) r (snd s) then Ok s else visit (Some r) s) ;;
      Ok (incr_users (fst s') r, snd s')
  end.

Definition count_attr (visit : option ref -> cstate -> result cstate)
    (s : cstate) (kv : string * value) : result cstate :=
  match snd kv with
  | VElement r => count_slot visit (Some r) s
  | VElementArray l => foldM (fun s i => count_slot visit i s) l s
  | _ => Ok s
  end.

(** [_count_child_elems] of [DataModel.echo]. *)
Fixpoint _count_child_elems (fuel : nat) (elem : option ref) (s : cstate)
  : result cstate :=
  match elem, fuel with
  | None, _ => Raise (TypeError "NoneType object is not iterable")
  | Some _, O => Raise OutOfFuel
  | Some elem, S fuel' =>
      foldM (count_attr (_count_child_elems fuel'))
        (e_attrs (deref (fst s) elem)) (fst s, snd s ++ [elem])
  end.

(** The counting pass of [echo]: reset, then count from the root. *)
Definition count_pass (h : heap) (dm : DataModel) : result cstate :=
  _count_child_elems (S (length h)) (dm_root dm) (reset_users h (dm_elements dm), []).

End Count.
Export Count.

(** ** KeyValues2 writer *)

Module Kv2.

Section Kv2.

(** The two float renderings of the Python runtime that the writer
    calls: ["{:.10f}".format(x)] and [str(x)]. *)
Variable format_10f : float -> string.
Variable float_repr : float -> string.

(** The [float] branch of [_get_kv2_repr]. *)
Definition float_kv2 (f : float) : string :=
  rstrip "."%char (rstrip "0"%char (format_10f f)).

(** [_Vector.__repr__]. *)
Definition vector_repr (v : list float) : string := join " " (map float_kv2 v).

(** [list.__repr__] over item representations. *)
Definition list_repr (items : list string) : string :=
  ("[" ++ join ", " items ++ "]")%string.

(** [_Array.to_kv2] for an array whose [type] is not [Element]. *)
Definition array_to_kv2 (items : list string) : string :=
  match items with
  | [] => "[ ]"%string
  | _ => ("[ " ++ join ", " (map _quote items) ++ " ]")%string
  end.

(** [_get_kv2_repr] on every value but an element array. *)
Definition _get_kv2_repr (h : heap) (var : value) : string :=
  match var with
  | VNone => EmptyString
  | VElement r => uuid_str (e_id (deref h r))
  | VInt z => str_of_Z z
  | VFloat f => float_kv2 f
  | VBool b => if b then "1"%string else "0"%string
  | VStr s => s
  | VBinary b => hexlify b
  | VTime t => float_repr t
  | VVector _ v => vector_repr v
  | VMatrix m => list_repr (map (fun row => list_repr (map float_repr row)) m)
  | VElementArray _ => EmptyString
  | VIntArray l => array_to_kv2 (map str_of_Z l)
  | VFloatArray l => array_to_kv2 (map float_kv2 l)
  | VBoolArray l => array_to_kv2 (map (fun b : bool => if b then "1" else "0")%string l)
  | VStrArray l => array_to_kv2 l
  | VBinaryArray l =>
      array_to_kv2 (map (fun o => match o with
                                  | Some b => hexlify b
                                  | None => EmptyString
                                  end) l)
  | VTimeArray l => array_to_kv2 (map float_repr l)
  | VVectorArray _ l => array_to_kv2 (map (fun it => vector_repr (snd it)) l)
  | VMatrixArray => EmptyString
  end.

(** [_make_attr_str] on a three-item list. *)
Definition _make_attr_str (indent : nat) (a b c : string) (is_array : bool) : string :=
  (tabs indent ++ _quote a ++ " " ++ _quote b ++ " "
     ++ (if is_array then c else _quote c) ++ nl)%string.

(** [_dmxtypes_str[types.index(t)]]. *)
Definition type_str_in (types : list pytype) (t : pytype) : result string :=
  match index_of pytype_eqb t types with
  | None => Raise (ValueError "is not in list")
  | Some i => match _dmxtypes_str !! i with
              | Some s => Ok s
              | None => Raise IndexError
              end
  end.

(** [issubclass(t, _Array)]: [_MatrixArray] is a plain class. *)
Definition is_Array (t : pytype) : bool :=
  existsb (pytype_eqb t) _dmxtypes_array && negb (pytype_eqb t T_MatrixArray).

(** The bare reference an element slot is written as. *)
Definition element_ref (indent : nat) (h : heap) (r : ref) : string :=
  (tabs indent ++ _quote "element" ++ " " ++ _quote (uuid_str (e_id (deref h r))))%string.

(** One entry of [_ElementArray.to_kv2]. *)
Definition array_entry (body : nat -> ref -> result string) (h : heap) (indent : nat)
    (item : option ref) : result string :=
  match item with
  | None => Raise (Exception "AttributeError: NoneType has no _users")
  | Some r =>
      if Nat.eqb (e_users (deref h r)) 1
      then b <- body indent r ;; Ok (tabs indent ++ b)%string
      else Ok (element_ref indent h r)
  end.

(** [_ElementArray.to_kv2]; [indent] is [_kv2_indent] at the call. *)
Definition ElementArray_to_kv2 (body : nat -> ref -> result string) (h : heap)
    (indent : nat) (l : list (option ref)) : result string :=
  match l with
  | [] => Ok "[ ]"%string
  | _ =>
      items <- mapM (array_entry body h (S indent)) l ;;
      Ok (nl ++ tabs indent ++ "[" ++ nl ++ join ("," ++ " " ++ nl) items
            ++ nl ++ tabs indent ++ "]")%string
  end.

(** The text one attribute adds to [out] in [Element.get_kv2]. *)
Definition attr_kv2 (body : nat -> ref -> result string) (h : heap) (indent : nat)
    (kv : string * value) : result string :=
  let (name, attr) := kv in
  match attr with
  | VNone => Ok (_make_attr_str indent name "element" EmptyString false)
  | VElement r =>
      if (e_users (deref h r) <? 2)%nat
      then b <- body indent r ;;
           Ok (tabs indent ++ _quote name ++ " " ++ b ++ nl)%string
      else Ok (_make_attr_str indent name "element" (_get_kv2_repr h attr) false)
  | VElementArray l =>
      a <- ElementArray_to_kv2 body h indent l ;;
      Ok (_make_attr_str indent name "element_array" a true)
  | _ =>
      let t := type_of attr in
      if is_Array t
      then s <- type_str_in _dmxtypes_array t ;;
           Ok (_make_attr_str indent name (s ++ "_array") (_get_kv2_repr h attr) true)
      else s <- type_str_in _dmxtypes t ;;
           Ok (_make_attr_str indent name s (_get_kv2_repr h attr) false)
  end.

(** [Element.get_kv2] ([deep] is never passed, so it is [True]);
    [indent] is the value of the global [_kv2_indent] at the call, which
    every call leaves as it found it. *)
Fixpoint get_kv2 (fuel : nat) (h : heap) (indent : nat) (self : ref) : result string :=
  match fuel with
  | O => Raise OutOfFuel
  | S fuel' =>
      let e := deref h self in
      lines <- mapM (attr_kv2 (get_kv2 fuel' h) h (S indent)) (e_attrs e) ;;
      Ok (_quote (e_type e) ++ nl ++ tabs indent ++ "{" ++ nl
            ++ _make_attr_str (S indent) "id" "elementid" (uuid_str (e_id e)) false
            ++ _make_attr_str (S indent) "name" "string" (e_name e) false
            ++ String.concat EmptyString lines
            ++ tabs indent ++ "}")%string
  end.

End Kv2.

End Kv2.
Export Kv2.

(** ** The Python runtime the codec calls into *)

(** Library functions whose results the codec only moves around:
    [struct.pack("f", x)] and [struct.unpack("f", b)], the float
    renderings of the text writer, [float(s)] of the text reader, and
    the order in which a [set] of strings is enumerated (a function of
    the insertions made). *)
Record runtime : Type := mkRuntime {
  pack_f : float -> result (list byte);
  unpack_f : list byte -> float;
  format_10f : float -> string;
  float_repr : float -> string;
  float_of_str : string -> result float;
  set_order : list string -> list string
}.

(** What Python guarantees of a set: no duplicates, and exactly the
    inserted members. *)
Definition set_order_ok (order : list string -> list string) : Prop :=
  forall l, NoDup (order l) /\ (forall x, In x (order l) <-> In x l).

(** ** Floats as [Time] uses them *)

Module PyFloat.

(** [int(x)] for a float: truncation; [nan] and the infinities raise. *)
Definition int_of_float (f : float) : result Z :=
  match Prim2SF f with
  | S754_zero _ => Ok 0
  | S754_infinity _ => Raise OverflowError
  | S754_nan => Raise (ValueError "cannot convert float NaN to integer")
  | S754_finite s m e =>
      let mag := if 0 <=? e then Zpos m * 2 ^ e else Zpos m / 2 ^ (- e) in
      Ok (if s then - mag else mag)
  end.

(** [float(z)] for an integer below 2^53 in magnitude (exact). *)
Definition float_of_Z (z : Z) : float :=
  match z with
  | Z0 => PrimFloat.zero
  | Zpos _ => PrimFloat.of_uint63 (Uint63.of_Z z)
  | Zneg _ => PrimFloat.opp (PrimFloat.of_uint63 (Uint63.of_Z (- z)))
  end.

(** [Time.tobytes]: [struct.pack("i", int(self * 10000))]. *)
Definition Time_tobytes (t : float) : result (list byte) :=
  n <- int_of_float (PrimFloat.mul t (float_of_Z 10000)) ;; pack_i n.

(** [Time.from_int]: [Time(int_value / 10000)]. *)
Definition Time_from_int (int_value : Z) : float :=
  PrimFloat.div (float_of_Z int_value) (float_of_Z 10000).

End PyFloat.
Export PyFloat.

(** ** String dictionary *)

Module Dict.

Definition intsize : Z := 4.
Definition shortsize : Z := 2.

(** [class _StringDictionary(list)]. *)
Record StringDictionary : Type := mkDict {
  dummy : bool;
  indice_size : Z;
  length_size : Z;
  entries : list string
}.

(** The head of [_StringDictionary.__init__]: the field widths, or a
    dummy.  Other encodings never build a dictionary. *)
Definition dict_init (encoding : string) (encoding_ver : Z) : result StringDictionary :=
  if String.eqb encoding "binary" then
    if encoding_ver =? 4 then Ok (mkDict false shortsize intsize [])
    else if existsb (Z.eqb encoding_ver) [3; 2] then Ok (mkDict false shortsize shortsize [])
    else if encoding_ver =? 1 then Ok (mkDict true intsize intsize [])
    else Ok (mkDict false intsize intsize [])
  else if String.eqb encoding "binary_proto" then Ok (mkDict true 0 0 [])
  else Raise (Exception "AttributeError: no attribute length_size").

(** The traversal state: [checked] and the strings added to
    [string_set], in the order of the [add] calls. *)
Definition dstate : Type := list ref * list string.

Definition process_slot (visit : option ref -> dstate -> result dstate) (h : heap)
    (i : option ref) (s : dstate) : result dstate :=
  match i with
  | None => visit None s
  | Some r => if elem_in h r (fst s) then Ok s else visit (Some r) s
  end.

Definition process_attr (visit : option ref -> dstate -> result dstate) (h : heap)
    (s : dstate) (kv : string * value) : result dstate :=
  let s := (fst s, snd s ++ [fst kv]) in
  match snd kv with
  | VStr a => Ok (fst s, snd s ++ [a])
  | VElement r => process_slot visit h (Some r) s
  | VElementArray l => foldM (fun s i => process_slot visit h i s) l s
  | _ => Ok s
  end.

(** [process_element] of [_StringDictionary.__init__]. *)
Fixpoint process_element (fuel : nat) (h : heap) (elem : option ref) (s : dstate)
  : result dstate :=
  match elem, fuel with
  | None, _ => Raise (Exception "AttributeError: NoneType has no attribute name")
  | Some _, O => Raise OutOfFuel
  | Some elem, S fuel' =>
      let e := deref h elem in
      foldM (process_attr (process_element fuel' h) h) (e_attrs e)
        (fst s ++ [elem], snd s ++ [e_name e; e_type e])
  end.

(** [_StringDictionary(encoding, encoding_ver, out_datamodel=dm)]. *)
Definition dict_of_datamodel (order : list string -> list string) (h : heap)
    (dm : DataModel) (encoding : string) (encoding_ver : Z) : result StringDictionary :=
  d <- dict_init encoding encoding_ver ;;
  if dummy d then Ok d
  else
    s <- process_element (S (length h)) h (dm_root dm) ([], []) ;;
    Ok (mkDict false (indice_size d) (length_size d) (order (snd s))).

Definition pack_sized (size : Z) (z : Z) : result (list byte) :=
  if size =? shortsize then pack_H z else pack_i z.

(** [write_string]: the bytes written for one string. *)
Definition write_string (d : StringDictionary) (s : string) : result (list byte) :=
  if dummy d then _encode_binary_string s
  else match index_of String.eqb s (entries d) with
       | None => Raise AssertionError
       | Some i => pack_sized (indice_size d) (Z.of_nat i)
       end.

(** [write_dictionary]: the bytes written for the table. *)
Definition write_dictionary (d : StringDictionary) : result (list byte) :=
  if dummy d then Ok []
  else
    n <- pack_sized (length_size d) (Z.of_nat (length (entries d))) ;;
    ss <- mapM _encode_binary_string (entries d) ;;
    Ok (n ++ concat ss).

End Dict.
Export Dict.

(** ** Binary writer *)

Module Writer.

(** The fields [echo] sets on the [DataModel] while it writes. *)
Record writer : Type := mkWriter {
  out : list byte;
  encoding : string;
  encoding_ver : Z;
  _string_dict : option StringDictionary;
  elem_chain : list ref
}.

(** [self.out.write(b)]. *)
Definition emit (w : writer) (b : list byte) : writer :=
  mkWriter (out w ++ b) (encoding w) (encoding_ver w) (_string_dict w) (elem_chain w).

Definition chain_append (w : writer) (r : ref) : writer :=
  mkWriter (out w) (encoding w) (encoding_ver w) (_string_dict w) (elem_chain w ++ [r]).

Section Writer.

Variable rt : runtime.
Variable h : heap.

(** [_write] on an [int]. *)
Definition _write_int (w : writer) (z : Z) : result writer :=
  b <- pack_i z ;; Ok (emit w b).

(** [_write] on a [str]. *)
Definition _write_str (w : writer) (s : string) (suppress_dict : bool) : result writer :=
  if suppress_dict then b <- _encode_binary_string s ;; Ok (emit w b)
  else match _string_dict w with
       | None => Raise (Exception "AttributeError: no write_string")
       | Some d => b <- write_string d s ;; Ok (emit w b)
       end.

(** [_write] on an [Element]. *)
Definition _write_element (w : writer) (r : ref) : result writer :=
  let e := deref h r in
  if e_is_placeholder e then
    if encoding_ver w <? 5 then _write_int w (-1)
    else w' <- _write_int w (-2) ;; _write_str w' (uuid_str (e_id e)) false
  else match elem_index h (elem_chain w) r with
       | None => Raise (ValueError "is not in list")
       | Some i => _write_int w (Z.of_nat i)
       end.

(** [_Vector.tobytes], and [Color.tobytes], which indexes the list with
    its own (float) components. *)
Definition Vector_tobytes (k : vkind) (v : list float) : result (list byte) :=
  match k, v with
  | KColor, _ :: _ => Raise (TypeError "list indices must be integers")
  | _, _ => bs <- mapM (pack_f rt) v ;; Ok (concat bs)
  end.

Definition _write_Binary (w : writer) (b : list byte) : result writer :=
  n <- pack_i (Z.of_nat (length b)) ;; Ok (emit (emit w n) b).

Definition _write_bool (w : writer) (b : bool) : result writer :=
  p <- pack_b (if b then 1 else 0) ;; Ok (emit w p).

Definition _write_float (w : writer) (f : float) : result writer :=
  p <- pack_f rt f ;; Ok (emit w p).

Definition _write_Time (w : writer) (t : float) : result writer :=
  p <- Time_tobytes t ;; Ok (emit w p).

Definition _write_Vector (k : vkind) (w : writer) (v : list float) : result writer :=
  p <- Vector_tobytes k v ;; Ok (emit w p).

(** The [_Array] branch of [_write]: the length, then every item with
    [suppress_dict=True]. *)
Definition _write_array {A} (item : writer -> A -> result writer) (w : writer) (l : list A)
  : result writer :=
  n <- pack_i (Z.of_nat (length l)) ;; foldM item l (emit w n).

Definition cannot_write {A} : result A :=
  Raise (TypeError "Cannot write attributes of type").

(** [_write(value, elem, suppress_dict)] on an attribute value. *)
Definition _write (w : writer) (value : value) (suppress_dict : bool) : result writer :=
  match value with
  | VNone => cannot_write
  | VElement r => _write_element w r
  | VInt z => _write_int w z
  | VFloat f => _write_float w f
  | VBool b => _write_bool w b
  | VStr s => _write_str w s suppress_dict
  | VBinary b => _write_Binary w b
  | VTime t => _write_Time w t
  | VVector k v => _write_Vector k w v
  | VMatrix _ => cannot_write
  | VElementArray l =>
      _write_array (fun w i => match i with
                               | Some r => _write_element w r
                               | None => cannot_write
                               end) w l
  | VIntArray l => _write_array _write_int w l
  | VFloatArray l => _write_array _write_float w l
  | VBoolArray l => _write_array _write_bool w l
  | VStrArray l => _write_array (fun w s => _write_str w s true) w l
  | VBinaryArray l =>
      _write_array (fun w i => match i with
                               | Some b => _write_Binary w b
                               | None => cannot_write
                               end) w l
  | VTimeArray l => _write_array _write_Time w l
  | VVectorArray _ l => _write_array (fun w it => _write_Vector (fst it) w (snd it)) w l
  | VMatrixArray => cannot_write
  end.

(** The element header of [_write_element_index]: type, name, id. *)
Definition _write_element_header (w : writer) (e : Element) : result writer :=
  w <- _write_str w (e_type e) false ;;
  w <- _write_str w (e_name e) (encoding_ver w <? 4) ;;
  Ok (emit w (uuid_bytes (e_id e))).

Definition index_slot (visit : option ref -> writer -> result writer)
    (i : option ref) (w : writer) : result writer :=
  match i with
  | None => visit None w
  | Some r => if elem_in h r (elem_chain w) then Ok w else visit (Some r) w
  end.

Definition index_attr (visit : option ref -> writer -> result writer)
    (w : writer) (kv : string * value) : result writer :=
  match snd kv with
  | VElement r => index_slot visit (Some r) w
  | VElementArray l => foldM (fun w i => index_slot visit i w) l w
  | _ => Ok w
  end.

(** [DataModel._write_element_index]. *)
Fixpoint _write_element_index (fuel : nat) (elem : option ref) (w : writer)
  : result writer :=
  match elem, fuel with
  | None, _ => Raise (Exception "AttributeError: NoneType has no _is_placeholder")
  | Some _, O => Raise OutOfFuel
  | Some elem, S fuel' =>
      let e := deref h elem in
      if e_is_placeholder e then Ok w
      else
        w <- _write_element_header w e ;;
        foldM (index_attr (_write_element_index fuel')) (e_attrs e) (chain_append w elem)
  end.

(** One attribute of [_write_element_props]: name, type id, value. *)
Definition _write_prop (w : writer) (kv : string * value) : result writer :=
  let (name, attr) := kv in
  w <- _write_str w name false ;;
  id <- _get_dmx_type_id (encoding w) (encoding_ver w) (type_of attr) ;;
  tb <- match id with
        | Some n => pack_b n
        | None => Raise StructError
        end ;;
  let w := emit w tb in
  match attr with
  | VNone => _write_int w (-1)
  | _ => _write w attr (encoding_ver w <? 4)
  end.

(** [DataModel._write_element_props]. *)
Definition _write_element_props (w : writer) : result writer :=
  foldM (fun w elem =>
           let e := deref h elem in
           if e_is_placeholder e then Ok w
           else
             w <- _write_int w (Z.of_nat (length (e_attrs e))) ;;
             foldM _write_prop (e_attrs e) w)
        (elem_chain w) w.

End Writer.

End Writer.
Export Writer.

(** ** [DataModel.echo] *)

Module Echo.

(** [echo] returns [bytes] for the binary encodings and [str] for
    KeyValues2. *)
Inductive output : Type :=
| Bytes (b : list byte)
| Text (s : string).

(** [header_format.format(encoding, encoding_ver, format, format_ver)]. *)
Definition header_format (encoding : string) (encoding_ver : Z) (format : string)
    (format_ver : Z) : string :=
  ("<!-- dmx encoding " ++ encoding ++ " " ++ str_of_Z encoding_ver ++ " format "
     ++ format ++ " " ++ str_of_Z format_ver ++ " -->")%string.

(** [header_proto2.format(encoding_ver)]. *)
Definition header_proto2 (encoding_ver : Z) : string :=
  ("<!-- DMXVersion binary_v" ++ str_of_Z encoding_ver ++ " -->")%string.

Section Echo.

Variable rt : runtime.

(** The binary branch of [echo], after the header: dictionary (only for
    ["binary"]; otherwise [_string_dict] stays [None], as the last
    [echo] or [load] left it), counting pass, element index, attributes. *)
Definition echo_binary (h : heap) (self : DataModel) (encoding : string)
    (encoding_ver : Z) (header : list byte) : result (output * heap) :=
  let w := mkWriter header encoding encoding_ver None [] in
  w <- (if String.eqb encoding "binary" then
          d <- dict_of_datamodel (set_order rt) h self encoding encoding_ver ;;
          t <- write_dictionary d ;;
          Ok (mkWriter (out w ++ t) encoding encoding_ver (Some d) [])
        else Ok w) ;;
  s <- count_pass h self ;;
  let h := fst s in
  w <- _write_int w (Z.of_nat (length (snd s))) ;;
  w <- _write_element_index h (S (length h)) (dm_root self) w ;;
  w <- _write_element_props rt h w ;;
  Ok (Bytes (out w), h).

(** What [echo] writes after the KeyValues2 header: the root, then every
    element of [out_elems] with more than one user, in the order of
    [out_elems]. *)
Definition kv2_document (h : heap) (root : ref) (out_elems : list ref) : result string :=
  let body := get_kv2 (format_10f rt) (float_repr rt) (S (length h)) h 0 in
  r <- body root ;;
  flat <- mapM body (List.filter (fun elem => Nat.ltb 1 (e_users (deref h elem))) out_elems) ;;
  Ok (r ++ nl ++ nl ++ String.concat EmptyString (map (fun b => b ++ nl ++ nl) flat))%string.

(** The KeyValues2 branch of [echo], after the header: the counting
    pass, then the document. *)
Definition echo_keyvalues2 (h : heap) (self : DataModel) (header : string)
    : result (output * heap) :=
  s <- count_pass h self ;;
  match dm_root self with
  | None => Raise (Exception "AttributeError: NoneType has no get_kv2")
  | Some root =>
      t <- kv2_document (fst s) root (snd s) ;;
      Ok (Text (header ++ t)%string, fst s)
  end.

(** [DataModel.echo(encoding, encoding_ver)]: the value returned and the
    heap it leaves (the recomputed [_users]). *)
Definition echo (h : heap) (self : DataModel) (encoding : string) (encoding_ver : Z)
    : result (output * heap) :=
  _ <- check_support encoding encoding_ver ;;
  if String.eqb encoding "binary_proto" then
    hd <- _encode_binary_string (header_proto2 encoding_ver ++ nl) ;;
    echo_binary h self encoding encoding_ver hd
  else
    let header := header_format encoding encoding_ver (dm_format self) (dm_format_ver self) in
    if String.eqb encoding "binary" then
      hd <- _encode_binary_string (header ++ nl) ;;
      echo_binary h self encoding encoding_ver hd
    else if String.eqb encoding "keyvalues2" then
      echo_keyvalues2 h self (header ++ nl)
    else s <- count_pass h self ;; Ok (Text EmptyString, fst s).

End Echo.

End Echo.
Export Echo.

(** ** Reading: file primitives *)

Module Stream.

(** A computation on the open file: what is left to read is the state,
    and it survives an exception. *)
Definition reader (A : Type) : Type := list byte -> result A * list byte.

Definition rret {A} (a : A) : reader A := fun s => (Ok a, s).

Definition rraise {A} (e : exn) : reader A := fun s => (Raise e, s).

Definition rbind {A B} (m : reader A) (k : A -> reader B) : reader B :=
  fun s => match m s with
           | (Ok a, s') => k a s'
           | (Raise e, s') => (Raise e, s')
           end.

(** [unpack(fmt, file.read(n))]: [struct.error] on a short read. *)
Definition get_fixed {A} (n : nat) (decode : list byte -> A) : reader A :=
  fun s => if Nat.eqb (length (firstn n s)) n
           then (Ok (decode (firstn n s)), skipn n s)
           else (Raise StructError, skipn n s).

Definition get_int : reader Z := get_fixed 4 unpack_i.
Definition get_short : reader Z := get_fixed 2 unpack_H.
Definition get_byte : reader Z := get_fixed 1 le_decode.

(** [get_bool]: [file.read(1) != b'\x00'], true at the end of the file. *)
Definition get_bool : reader bool :=
  fun s => match s with
           | [] => (Ok true, [])
           | b :: s' => (Ok (negb (Byte.eqb b x00)), s')
           end.

(** [get_str]: up to the first NUL; at the end of the file the loop
    never ends. *)
Fixpoint get_str_from (out : list ascii) (s : list byte) : result string * list byte :=
  match s with
  | [] => (Raise Hang, [])
  | b :: s' =>
      if Byte.eqb b x00 then (Ok (string_of_list_ascii (rev out)), s')
      else if is_ascii (ascii_of_byte b) then get_str_from (ascii_of_byte b :: out) s'
      else (Raise UnicodeError, s')
  end.

Definition get_str : reader string := get_str_from [].

(** [get_char] on a file opened in binary mode. *)
Definition get_char : reader ascii :=
  fun s => match s with
           | [] => (Raise StructError, [])
           | b :: s' => if is_ascii (ascii_of_byte b) then (Ok (ascii_of_byte b), s')
                        else (Raise UnicodeError, s')
           end.

(** [for i in range(n)]: collect [n] results. *)
Fixpoint rrepeat {A} (n : nat) (m : reader A) : reader (list A) :=
  match n with
  | O => rret []
  | S n' => rbind m (fun a => rbind (rrepeat n' m) (fun l => rret (a :: l)))
  end.

(** [file.read(n)]: everything for a negative [n]. *)
Definition read_bytes (n : Z) : reader (list byte) :=
  fun s => if n <? 0 then (Ok s, []) else (Ok (firstn (Z.to_nat n) s), skipn (Z.to_nat n) s).

End Stream.
Export Stream.

(** ** Reading: the header *)

Module Header.

(** The pieces of the two header regular expressions: a literal
    character, or a capturing group [(c+)] over a character class. *)
Inductive tok : Type :=
| Lit (c : ascii)
| Plus (cls : ascii -> bool).

(** [\S] on ASCII text. *)
Definition non_space (c : ascii) : bool :=
  let n := N_of_ascii c in
  negb (((9 <=? n) && (n <=? 13)) || ((28 <=? n) && (n <=? 32)))%N.

(** [[0-9]]. *)
Definition digit (c : ascii) : bool :=
  let n := N_of_ascii c in ((48 <=? n) && (n <=? 57))%N.

Definition lits (s : string) : list tok := map Lit (list_ascii_of_string s).

(** [header_format_regex]. *)
Definition header_format_regex : list tok :=
  lits "<!-- dmx encoding " ++ [Plus non_space] ++ lits " " ++ [Plus digit]
    ++ lits " format " ++ [Plus non_space] ++ lits " " ++ [Plus digit] ++ lits " -->".

(** [header_proto2_regex]. *)
Definition header_proto2_regex : list tok :=
  lits "<!-- DMXVersion binary_v" ++ [Plus digit] ++ lits " -->".

(** Match the pattern at the start of [s], greedy groups with
    backtracking: the groups and what follows the match. *)
Fixpoint match_here (p : list tok) (s : list ascii) {struct p}
  : option (list string * list ascii) :=
  match p with
  | [] => Some ([], s)
  | Lit c :: p' =>
      match s with
      | x :: s' => if Ascii.eqb x c then match_here p' s' else None
      | [] => None
      end
  | Plus cls :: p' =>
      let fix group (s : list ascii) : option (list ascii * list string * list ascii) :=
        match s with
        | [] => None
        | x :: s' =>
            if cls x then
              match group s' with
              | Some (cap, gs, rest) => Some (x :: cap, gs, rest)
              | None => match match_here p' s' with
                        | Some (gs, rest) => Some ([x], gs, rest)
                        | None => None
                        end
              end
            else None
        end in
      match group s with
      | Some (cap, gs, rest) => Some (string_of_list_ascii cap :: gs, rest)
      | None => None
      end
  end.

(** [re.findall]: the groups of every match, left to right, matches not
    overlapping. *)
Fixpoint findall (fuel : nat) (p : list tok) (s : list ascii) : list (list string) :=
  match fuel with
  | O => []
  | S fuel' =>
      match match_here p s with
      | Some (gs, rest) =>
          gs :: (if Nat.ltb (length rest) (length s) then findall fuel' p rest
                 else match s with [] => [] | _ :: s' => findall fuel' p s' end)
      | None => match s with [] => [] | _ :: s' => findall fuel' p s' end
      end
  end.

(** [int(s)] on a string of decimal digits. *)
Definition int_of_digits (s : string) : Z :=
  fold_left (fun acc c => 10 * acc + (Z.of_N (N_of_ascii c) - 48)) (list_ascii_of_string s) 0.

(** What the header gives: encoding, encoding version, format, format
    version. *)
Definition header_info : Type := string * Z * string * Z.

(** The [try] block of [load] after the header is read. *)
Definition parse_header (header : string) : result header_info :=
  let s := list_ascii_of_string header in
  match findall (S (length s)) header_format_regex s with
  | [[encoding; encoding_ver; format; format_ver]] =>
      Ok (encoding, int_of_digits encoding_ver, format, int_of_digits format_ver)
  | _ =>
      match findall (S (length s)) header_proto2_regex s with
      | [[v]] => if Nat.eqb (String.length v) 1
                 then Ok ("binary_proto"%string, int_of_digits v, "undefined_format"%string, 0)
                 else Raise (Exception "Could not read DMX header")
      | _ => Raise (Exception "Could not read DMX header")
      end
  end.

(** The loop that reads the header: characters up to the first [>]. *)
Fixpoint read_header_from (header : list ascii) (s : list byte) : result string * list byte :=
  match s with
  | [] => (Raise (Exception "Could not read DMX header"), [])
  | b :: s' =>
      if is_ascii (ascii_of_byte b) then
        if Ascii.eqb (ascii_of_byte b) ">"%char
        then (Ok (string_of_list_ascii (rev (ascii_of_byte b :: header))), s')
        else read_header_from (ascii_of_byte b :: header) s'
      else (Raise (Exception "Could not read DMX header"), s')
  end.

Definition read_header : reader string := read_header_from [].

End Header.
Export Header.

(** ** Reading: the binary body *)

Module Reader.

(** [l[i]] with Python's negative indices. *)
Definition py_index {A} (l : list A) (i : Z) : result A :=
  let j := if i <? 0 then i + Z.of_nat (length l) else i in
  if j <? 0 then Raise IndexError
  else match l !! Z.to_nat j with
       | Some x => Ok x
       | None => Raise IndexError
       end.

Definition hex_value (c : ascii) : option N :=
  let n := N_of_ascii c in
  if ((48 <=? n) && (n <=? 57))%N then Some (n - 48)%N
  else if ((97 <=? n) && (n <=? 102))%N then Some (n - 87)%N
  else if ((65 <=? n) && (n <=? 70))%N then Some (n - 55)%N
  else None.

(** [uuid.UUID(hex=s)] on plain or dashed hexadecimal text: 32 digits
    once the dashes are removed, [ValueError] otherwise. *)
Definition uuid_of_hex (s : string) : result uuid :=
  let ds := List.filter (fun c => negb (Ascii.eqb c "-"%char)) (list_ascii_of_string s) in
  if Nat.eqb (length ds) 32 then
    match mapM (fun c => match hex_value c with
                         | Some n => Ok n
                         | None => Raise (ValueError "invalid literal for int() with base 16")
                         end) ds with
    | Ok ns => Ok (fold_left (fun acc n => acc * 16 + n)%N ns 0%N)
    | Raise e => Raise e
    end
  else Raise (ValueError "badly formed hexadecimal UUID string").

(** [_StringDictionary.read_string]. *)
Definition read_string (d : StringDictionary) : reader string :=
  if dummy d then get_str
  else rbind (if indice_size d =? shortsize then get_short else get_int)
             (fun i s => (py_index (entries d) i, s)).

(** [_StringDictionary(encoding, encoding_ver, in_file=in_file)]. *)
Definition dict_of_file (encoding : string) (encoding_ver : Z) : reader StringDictionary :=
  match dict_init encoding encoding_ver with
  | Raise e => rraise e
  | Ok d =>
      if dummy d then rret d
      else rbind (if length_size d =? shortsize then get_short else get_int)
             (fun num_strings =>
                rbind (rrepeat (Z.to_nat num_strings) get_str)
                  (fun l => rret (mkDict false (indice_size d) (length_size d) l)))
  end.

(** The file and the graph being built; the [DataModel] of [load] is
    datamodel 0 of the world. *)
Record lstate : Type := mkLstate {
  l_in : list byte;
  l_world : world
}.

Definition loader (A : Type) : Type := lstate -> result A * lstate.

Definition lret {A} (a : A) : loader A := fun s => (Ok a, s).

Definition lraise {A} (e : exn) : loader A := fun s => (Raise e, s).

Definition lbind {A B} (m : loader A) (k : A -> loader B) : loader B :=
  fun s => match m s with
           | (Ok a, s') => k a s'
           | (Raise e, s') => (Raise e, s')
           end.

Definition lift {A} (m : reader A) : loader A :=
  fun s => let (a, f) := m (l_in s) in (a, mkLstate f (l_world s)).

Definition lift_result {A} (m : result A) : loader A := fun s => (m, s).

(** [dm.add_element(name, elemtype, id, _is_placeholder)]. *)
Definition l_add_element (name elemtype : string) (id : uuid) (_is_placeholder : bool)
  : loader ref :=
  fun s => let (w, r) := add_element (l_world s) 0%nat name elemtype id _is_placeholder in
           (Ok r, mkLstate (l_in s) w).

(** [elem[name] = value]. *)
Definition l_setitem (elem : ref) (name : string) (v : value) : loader unit :=
  fun s => let (w, r) := Element_setitem (l_world s) elem name v in
           (r, mkLstate (l_in s) w).

Definition l_elements : loader (list ref) :=
  fun s => (Ok (dm_elements (dm_deref (w_dms (l_world s)) 0%nat)), s).

End Reader.
Export Reader.

Notation "x <-- m ;; k" := (Reader.lbind m (fun x => k))
  (at level 100, m at next level, right associativity) : py_scope.

Module BinaryBody.

(** [arr.append(item)] on a freshly made array of class [type_of arr]. *)
Definition array_append (arr item : value) : result value :=
  match arr, item with
  | VElementArray l, VElement r => Ok (VElementArray (l ++ [Some r]))
  | VElementArray l, VNone => Ok (VElementArray (l ++ [None]))
  | VIntArray l, VInt z => Ok (VIntArray (l ++ [z]))
  | VFloatArray l, VFloat f => Ok (VFloatArray (l ++ [f]))
  | VBoolArray l, VBool b => Ok (VBoolArray (l ++ [b]))
  | VStrArray l, VStr s => Ok (VStrArray (l ++ [s]))
  | VBinaryArray l, VBinary b => Ok (VBinaryArray (l ++ [Some b]))
  | VBinaryArray l, VNone => Ok (VBinaryArray (l ++ [None]))
  | VTimeArray l, VTime t => Ok (VTimeArray (l ++ [t]))
  | VVectorArray k l, VVector k' v => Ok (VVectorArray k (l ++ [(k', v)]))
  | VMatrixArray, _ => Raise (Exception "AttributeError: _MatrixArray has no append")
  | _, _ => Raise (TypeError "item of another class")
  end.

(** [attr_type()] for an array class. *)
Definition empty_array (t : pytype) : result value :=
  match t with
  | T_ElementArray => Ok (VElementArray [])
  | T_IntArray => Ok (VIntArray [])
  | T_FloatArray => Ok (VFloatArray [])
  | T_BoolArray => Ok (VBoolArray [])
  | T_StrArray => Ok (VStrArray [])
  | T_BinaryArray => Ok (VBinaryArray [])
  | T_TimeArray => Ok (VTimeArray [])
  | T_ColorArray => Ok (VVectorArray KColor [])
  | T_Vector2Array => Ok (VVectorArray KVector2 [])
  | T_Vector3Array => Ok (VVectorArray KVector3 [])
  | T_Vector4Array => Ok (VVectorArray KVector4 [])
  | T_AngleArray => Ok (VVectorArray KAngle [])
  | T_QuaternionArray => Ok (VVectorArray KQuaternion [])
  | T_MatrixArray => Ok VMatrixArray
  | _ => Raise (TypeError "not an array class")
  end.

Fixpoint chunks (k n : nat) (l : list byte) : list (list byte) :=
  match n with
  | O => []
  | S n' => firstn k l :: chunks k n' (skipn k l)
  end.

Section BinaryBody.

Variable rt : runtime.
Variable encoding : string.
Variable encoding_ver : Z.

(** [dm._string_dict]. *)
Variable d : StringDictionary.

Definition get_float : reader float := get_fixed 4 (unpack_f rt).

(** [get_vec(file, dim)]. *)
Definition get_vec (dim : nat) : reader (list float) :=
  get_fixed (4 * dim) (fun b => map (unpack_f rt) (chunks 4 dim b)).

(** [get_color]: four bytes, which [_Vector.__init__] turns into
    floats. *)
Definition get_color : reader value :=
  get_fixed 4 (fun b => VVector KColor (map (fun x => float_of_Z (Z_of_byte x)) b)).

(** [uuid.UUID(bytes_le = in_file.read(16))]. *)
Definition get_uuid : reader uuid :=
  fun s => if Nat.eqb (length (firstn 16 s)) 16
           then (Ok (uuid_of_bytes_le (firstn 16 s)), skipn 16 s)
           else (Raise (ValueError "bytes_le is not a 16-char string"), skipn 16 s).

Definition lmap {A B} (f : A -> B) (m : reader A) : loader B :=
  x <-- lift m ;; lret (f x).

(** [get_value(attr_type, from_array)] of [load]. *)
Definition get_value (attr_type : pytype) (from_array : bool) : loader value :=
  match attr_type with
  | T_Element =>
      element_index <-- lift get_int ;;
      if element_index =? -1 then lret VNone
      else if element_index =? -2 then
        s <-- lift get_str ;;
        u <-- lift_result (uuid_of_hex s) ;;
        r <-- l_add_element "Missing element" "DmElement" u true ;;
        lret (VElement r)
      else
        els <-- l_elements ;;
        r <-- lift_result (py_index els element_index) ;;
        lret (VElement r)
  | T_str =>
      if (encoding_ver <? 4) || from_array then lmap VStr get_str
      else lmap VStr (read_string d)
  | T_int => lmap VInt get_int
  | T_float => lmap VFloat get_float
  | T_bool => lmap VBool get_bool
  | T_Vector2 => lmap (VVector KVector2) (get_vec 2)
  | T_Vector3 => lmap (VVector KVector3) (get_vec 3)
  | T_Angle => lmap (VVector KAngle) (get_vec 3)
  | T_Vector4 => lmap (VVector KVector4) (get_vec 4)
  | T_Quaternion => lmap (VVector KQuaternion) (get_vec 4)
  | T_Matrix => lmap VMatrix (rrepeat 4 (get_vec 4))
  | T_Color => lift get_color
  | T_Time => lmap (fun n => VTime (Time_from_int n)) get_int
  | T_Binary => lmap VBinary (rbind get_int read_bytes)
  | _ => lraise (TypeError "Cannot read attributes of type")
  end.

(** [arr.append(...)] on the array stored under [name]: the stored
    list object itself grows. *)
Definition l_store (elem : ref) (name : string) (arr : value) : loader unit :=
  fun s => (Ok tt, mkLstate (l_in s)
                     (mkWorld (update (w_heap (l_world s)) elem (set_attr name arr))
                              (w_dms (l_world s)))).

(** [for x in range(array_len): arr.append(get_value(arr_item_type, True))]. *)
Fixpoint read_items (n : nat) (elem : ref) (name : string) (item_type : pytype)
    (arr : value) : loader unit :=
  match n with
  | O => lret tt
  | S n' =>
      v <-- get_value item_type true ;;
      arr' <-- lift_result (array_append arr v) ;;
      _ <-- l_store elem name arr' ;;
      read_items n' elem name item_type arr'
  end.

(** The array branch of the attribute loop: the length, the empty array
    stored under [name], then the items. *)
Definition read_array (elem : ref) (name : string) (t : pytype) : loader unit :=
  array_len <-- lift get_int ;;
  arr <-- lift_result (empty_array t) ;;
  _ <-- l_setitem elem name arr ;;
  arr_item_type <-- lift_result (_get_single_type t) ;;
  read_items (Z.to_nat array_len) elem name arr_item_type arr.

(** One attribute of the element being read. *)
Definition read_attribute (elem : ref) : loader unit :=
  name <-- lift (read_string d) ;;
  id <-- lift get_byte ;;
  attr_type <-- lift_result (_get_dmx_id_type encoding encoding_ver id) ;;
  match attr_type with
  | EType t =>
      if existsb (pytype_eqb t) _dmxtypes then
        v <-- get_value t false ;; l_setitem elem name v
      else if existsb (pytype_eqb t) _dmxtypes_array then read_array elem name t
      else lret tt
  | _ => lret tt
  end.

Fixpoint lrepeat (n : nat) (m : loader unit) : loader unit :=
  match n with
  | O => lret tt
  | S n' => _ <-- m ;; lrepeat n' m
  end.

(** [for elem in dm.elements]: the list is read as it is at each step,
    so the placeholders appended on the way are met (and skipped). *)
Fixpoint read_attributes (fuel : nat) (i : nat) : loader unit :=
  match fuel with
  | O => lraise OutOfFuel
  | S fuel' =>
      els <-- l_elements ;;
      match els !! i with
      | None => lret tt
      | Some elem =>
          fun s =>
            if e_is_placeholder (deref (w_heap (l_world s)) elem)
            then read_attributes fuel' (S i) s
            else (num_attributes <-- lift get_int ;;
                  _ <-- lrepeat (Z.to_nat num_attributes) (read_attribute elem) ;;
                  read_attributes fuel' (S i)) s
      end
  end.

(** One element header: type, name, id. *)
Definition read_element_header : loader unit :=
  elemtype <-- lift (read_string d) ;;
  name <-- lift (if 4 <=? encoding_ver then read_string d else get_str) ;;
  id <-- lift get_uuid ;;
  _ <-- l_add_element name elemtype id false ;;
  lret tt.

End BinaryBody.

(** The binary branch of [load], after the header and [check_support]. *)
Definition load_binary (rt : runtime) (encoding : string) (encoding_ver : Z) : loader unit :=
  _ <-- lift (fun s => (Ok tt, skipn 2 s)) ;;
  d <-- lift (dict_of_file encoding encoding_ver) ;;
  num_elements <-- lift get_int ;;
  _ <-- lrepeat (Z.to_nat num_elements) (read_element_header encoding_ver d) ;;
  fun s =>
    read_attributes rt encoding encoding_ver d
      (S (length (dm_elements (dm_deref (w_dms (l_world s)) 0%nat)) + length (l_in s))) 0 s.

(** [load] up to [check_support]: read the header, parse it, check the
    pair it names. *)
Definition load_prelude : reader header_info :=
  rbind read_header (fun header s =>
    match parse_header header with
    | Raise e => (Raise e, s)
    | Ok (encoding, encoding_ver, format, format_ver) =>
        match check_support encoding encoding_ver with
        | Raise e => (Raise e, s)
        | Ok _ => (Ok (encoding, encoding_ver, format, format_ver), s)
        end
    end).

End BinaryBody.
Export BinaryBody.

(** ** Reading: KeyValues2 *)

Module Kv2Text.

Definition in_chars (chars : string) (c : ascii) : bool :=
  existsb (Ascii.eqb c) (list_ascii_of_string chars).

Fixpoint lstrip_chars (chars : string) (l : list ascii) : list ascii :=
  match l with
  | [] => []
  | x :: l' => if in_chars chars x then lstrip_chars chars l' else l
  end.

(** [s.strip(chars)]. *)
Definition strip (chars : string) (s : string) : string :=
  string_of_list_ascii
    (rev (lstrip_chars chars (rev (lstrip_chars chars (list_ascii_of_string s))))).

(** [s.endswith(c)] for one character. *)
Definition endswith_char (c : ascii) (s : string) : bool :=
  match rev (list_ascii_of_string s) with
  | x :: _ => Ascii.eqb x c
  | [] => false
  end.

(** [c in s] for one character. *)
Definition has_char (c : ascii) (s : string) : bool := in_chars s c.

(** ['\n\t '] and ['\n\t, ']. *)
Definition blanks : string := String "010" (String "009" (String " " EmptyString)).
Definition blanks_comma : string := String "010" (String "009" (String "," (String " " EmptyString))).

(** [re.findall('"(.*?)"', s)]: the text between each pair of quotes,
    left to right ([.] stops at a line break). *)
Fixpoint quoted (inside : option (list ascii)) (l : list ascii) : list string :=
  match l, inside with
  | [], _ => []
  | x :: l', None =>
      if Ascii.eqb x "034" then quoted (Some []) l' else quoted None l'
  | x :: l', Some acc =>
      if Ascii.eqb x "034" then string_of_list_ascii (rev acc) :: quoted None l'
      else if Ascii.eqb x "010" then quoted None l'
      else quoted (Some (x :: acc)) l'
  end.

(** [parse_line]. *)
Definition parse_line (line : string) : list string :=
  quoted None (list_ascii_of_string (strip blanks line)).

(** [s.split(sep)] for one character. *)
Fixpoint split_on (sep : ascii) (cur : list ascii) (l : list ascii) : list string :=
  match l with
  | [] => [string_of_list_ascii (rev cur)]
  | x :: l' => if Ascii.eqb x sep then string_of_list_ascii (rev cur) :: split_on sep [] l'
               else split_on sep (x :: cur) l'
  end.

Definition split (sep : ascii) (s : string) : list string :=
  split_on sep [] (list_ascii_of_string s).

Definition lower_char (c : ascii) : ascii :=
  let n := N_of_ascii c in
  if ((65 <=? n) && (n <=? 90))%N then ascii_of_N (n + 32) else c.

(** [s.lower()] on ASCII text. *)
Definition lower (s : string) : string :=
  string_of_list_ascii (map lower_char (list_ascii_of_string s)).

Definition startswith (p s : string) : bool := String.prefix p s.

Definition endswith (p s : string) : bool :=
  String.prefix (string_of_list_ascii (rev (list_ascii_of_string p)))
                (string_of_list_ascii (rev (list_ascii_of_string s))).

(** [int(s)] on an optional sign and decimal digits. *)
Definition int_of_str (s : string) : result Z :=
  let l := list_ascii_of_string (strip blanks s) in
  let (neg, ds) := match l with
                   | x :: l' => if Ascii.eqb x "-" then (true, l')
                                else if Ascii.eqb x "+" then (false, l') else (false, l)
                   | [] => (false, [])
                   end in
  match ds with
  | [] => Raise (ValueError "invalid literal for int()")
  | _ => if forallb digit ds
         then let n := int_of_digits (string_of_list_ascii ds) in Ok (if neg then - n else n)
         else Raise (ValueError "invalid literal for int()")
  end.

(** The lines of a text file, line breaks kept ([\r\n] and [\r] read as
    [\n]). *)
Fixpoint lines_from (cur : list ascii) (l : list ascii) : list string :=
  match l with
  | [] => match cur with [] => [] | _ => [string_of_list_ascii (rev cur)] end
  | x :: l' =>
      if Ascii.eqb x "010" then string_of_list_ascii (rev (x :: cur)) :: lines_from [] l'
      else if Ascii.eqb x "013" then
        string_of_list_ascii (rev ("010"%char :: cur))
          :: lines_from [] (match l' with
                            | y :: l'' => if Ascii.eqb y "010" then l'' else l'
                            | [] => l'
                            end)
      else lines_from (x :: cur) l'
  end.

End Kv2Text.
Export Kv2Text.

Module Kv2Reader.

(** [class AttributeReference]: a slot waiting for its element. *)
Record AttributeReference : Type := mkAttributeReference {
  Owner : ref;
  Name : string;
  Index : Z
}.

(** The state of the KeyValues2 branch of [load]: the lines not yet
    read, the graph, and the closure variables [element_chain],
    [element_users] and [element_path]. *)
Record kstate : Type := mkKstate {
  k_lines : list string;
  k_world : world;
  element_chain : list ref;
  element_users : list (string * list AttributeReference);
  element_path : list string
}.

Definition kv (A : Type) : Type := kstate -> result A * kstate.

Definition kret {A} (a : A) : kv A := fun s => (Ok a, s).

Definition kraise {A} (e : exn) : kv A := fun s => (Raise e, s).

Definition kbind {A B} (m : kv A) (k : A -> kv B) : kv B :=
  fun s => match m s with
           | (Ok a, s') => k a s'
           | (Raise e, s') => (Raise e, s')
           end.

Definition klift {A} (m : result A) : kv A := fun s => (m, s).

(** The next line of [in_file], [None] at the end. *)
Definition next_line : kv (option string) :=
  fun s => match k_lines s with
           | [] => (Ok None, s)
           | l :: ls => (Ok (Some l), mkKstate ls (k_world s) (element_chain s)
                                        (element_users s) (element_path s))
           end.

Definition with_world (s : kstate) (w : world) : kstate :=
  mkKstate (k_lines s) w (element_chain s) (element_users s) (element_path s).

Definition with_chain (s : kstate) (c : list ref) : kstate :=
  mkKstate (k_lines s) (k_world s) c (element_users s) (element_path s).

(** [element_chain[-1]]. *)
Definition chain_top : kv ref :=
  fun s => match rev (element_chain s) with
           | r :: _ => (Ok r, s)
           | [] => (Raise IndexError, s)
           end.

(** [element_chain.pop()]. *)
Definition chain_pop : kv ref :=
  fun s => match rev (element_chain s) with
           | r :: c => (Ok r, with_chain s (rev c))
           | [] => (Raise IndexError, s)
           end.

Definition chain_push (r : ref) : kv unit :=
  fun s => (Ok tt, with_chain s (element_chain s ++ [r])).

Definition k_add_element (name elemtype : string) (id : uuid) (_is_placeholder : bool)
  : kv ref :=
  fun s => let (w, r) := add_element (k_world s) 0%nat name elemtype id _is_placeholder in
           (Ok r, with_world s w).

Definition k_setitem (elem : ref) (name : string) (v : value) : kv unit :=
  fun s => let (w, r) := Element_setitem (k_world s) elem name v in (r, with_world s w).

(** [element_users[key].append(r)] on the [defaultdict]. *)
Fixpoint users_add (d : list (string * list AttributeReference)) (key : string)
    (r : AttributeReference) : list (string * list AttributeReference) :=
  match d with
  | [] => [(key, [r])]
  | (k, l) :: d' => if String.eqb k key then (k, l ++ [r]) :: d'
                    else (k, l) :: users_add d' key r
  end.

Definition add_user (key : string) (r : AttributeReference) : kv unit :=
  fun s => (Ok tt, mkKstate (k_lines s) (k_world s) (element_chain s)
                     (users_add (element_users s) key r) (element_path s)).

(** [l[i]] for a list of strings. *)
Definition item (l : list string) (i : nat) : result string :=
  match l !! i with
  | Some x => Ok x
  | None => Raise IndexError
  end.

(** The vector class a type string names, with its length. *)
Definition vector_class (type_str : string) : result (vkind * nat) :=
  match index_of String.eqb type_str _dmxtypes_str with
  | None => Raise (ValueError "is not in list")
  | Some i =>
      match _dmxtypes !! i with
      | Some T_Color => Ok (KColor, 4%nat)
      | Some T_Vector2 => Ok (KVector2, 2%nat)
      | Some T_Vector3 => Ok (KVector3, 3%nat)
      | Some T_Vector4 => Ok (KVector4, 4%nat)
      | Some T_Angle => Ok (KAngle, 3%nat)
      | Some T_Quaternion => Ok (KQuaternion, 4%nat)
      | _ => Raise (TypeError "not a vector class")
      end
  end.

Section Kv2Reader.

Variable rt : runtime.

(** [read_value(name, type_str, kv2_value, index)]. *)
Definition read_value (name type_str kv2_value : string) (index : Z) : kv value :=
  if String.eqb type_str "element" then
    if String.eqb kv2_value EmptyString then kret VNone
    else
      kbind chain_top (fun top =>
      kbind (add_user kv2_value (mkAttributeReference top name index)) (fun _ =>
      kbind (klift (uuid_of_hex kv2_value)) (fun u =>
      kbind (k_add_element "Missing element" "DmElement" u true) (fun r =>
      kret (VElement r)))))
  else if String.eqb type_str "string" then kret (VStr kv2_value)
  else if String.eqb type_str "int" then
    kbind (klift (int_of_str kv2_value)) (fun n => kret (VInt n))
  else if String.eqb type_str "float" then
    kbind (klift (float_of_str rt kv2_value)) (fun f => kret (VFloat f))
  else if String.eqb type_str "bool" then
    kbind (klift (int_of_str kv2_value)) (fun n => kret (VBool (negb (n =? 0))))
  else if String.eqb type_str "time" then
    kbind (klift (float_of_str rt kv2_value)) (fun f => kret (VTime f))
  else if startswith "vector" type_str
          || existsb (String.eqb type_str) ["color"; "quaternion"; "angle"]%string then
    kbind (klift (vector_class type_str)) (fun kn =>
    kbind (klift (mapM (float_of_str rt) (split " " kv2_value))) (fun fs =>
    if Nat.eqb (length fs) (snd kn) then kret (VVector (fst kn) fs)
    else kraise (TypeError "Expected values")))
  else kret VNone.

(** The skipping loop of [read_element]: up to the brace that closes
    the element, or the end of the file. *)
Fixpoint skip_element (child_level : nat) (lines : list string) : list string :=
  match lines with
  | [] => []
  | line_raw :: rest =>
      let child_level := if has_char "{" line_raw then S child_level else child_level in
      if has_char "}" line_raw then
        match child_level with
        | O => rest
        | S n => skip_element n rest
        end
      else skip_element child_level rest
  end.

(** The element-path test of [read_element]: [Some true] to skip the
    element, [Some false] to descend (dropping the head of the path),
    [None] when the test does not apply. *)
Definition path_test (max_elem_path : nat) (name : option string) (s : kstate)
  : option bool :=
  match max_elem_path, name with
  | S _, Some (String c n) =>
      match dm_elements (dm_deref (w_dms (k_world s)) 0%nat) with
      | [] => None
      | _ :: _ =>
          match element_path s with
          | p :: _ => Some (negb (String.eqb (lower (String c n)) (lower p)))
          | [] => Some (Nat.ltb (length (element_chain s)) max_elem_path)
          end
      end
  | _, _ => None
  end.

Definition drop_path_head : kv unit :=
  fun s => (Ok tt, mkKstate (k_lines s) (k_world s) (element_chain s) (element_users s)
                     (tl (element_path s))).

(** The multi-line form of an array whose items are not elements. *)
Fixpoint read_plain_array (fuel : nat) (arr_name arr_type_str : string) (arr : value)
  : kv unit :=
  match fuel with
  | O => kraise OutOfFuel
  | S fuel' =>
      kbind next_line (fun l =>
      match l with
      | None => kret tt
      | Some line =>
          if has_char "[" line then read_plain_array fuel' arr_name arr_type_str arr
          else if has_char "]" line then
            kbind chain_top (fun top => k_setitem top arr_name arr)
          else
            kbind (klift (item (parse_line line) 0)) (fun x =>
            kbind (read_value arr_name arr_type_str x (-1)) (fun v =>
            kbind (klift (array_append arr v)) (fun arr' =>
            read_plain_array fuel' arr_name arr_type_str arr')))
      end)
  end.

(** The one-line form: the items are the quoted strings after the
    type. *)
Fixpoint read_inline_items (arr_name arr_type_str : string) (items : list string)
    (arr : value) : kv value :=
  match items with
  | [] => kret arr
  | x :: items' =>
      kbind (read_value arr_name arr_type_str x (-1)) (fun v =>
      kbind (klift (array_append arr v)) (fun arr' =>
      read_inline_items arr_name arr_type_str items' arr'))
  end.

(** An attribute line whose type ends in [_array] and is not
    [element_array]. *)
Definition read_array_attr (line_raw : string) (line : list string) : kv unit :=
  kbind (klift (item line 0)) (fun arr_name =>
  kbind (klift (item line 1)) (fun t =>
  kbind (klift (item (split "_" t) 0)) (fun arr_type_str =>
  kbind (klift (match index_of String.eqb arr_type_str _dmxtypes_str with
                | None => Raise (ValueError "is not in list")
                | Some i => match _dmxtypes !! i with
                            | Some st => at_ <- _get_array_type st ;; empty_array at_
                            | None => Raise IndexError
                            end
                end)) (fun arr =>
  if has_char "[" line_raw then
    kbind (read_inline_items arr_name arr_type_str (skipn 2 line) arr) (fun arr' =>
    kbind chain_top (fun top => k_setitem top arr_name arr'))
  else fun s => read_plain_array (S (length (k_lines s))) arr_name arr_type_str arr s)))).

Definition value_of_ref (r : option ref) : value :=
  match r with
  | Some x => VElement x
  | None => VNone
  end.

Definition ref_of_value (v : value) : option ref :=
  match v with
  | VElement x => Some x
  | _ => None
  end.

(** The loop of [read_element(elem_type)], with its locals [id], [name]
    and [new_elem], and the loop over the lines of an [element_array]. *)
Fixpoint read_element_loop (fuel : nat) (max_elem_path : nat) (elem_type : string)
    (id : option uuid) (name : option string) (new_elem : option ref) {struct fuel}
  : kv (option ref) :=
  match fuel with
  | O => kraise OutOfFuel
  | S fuel' =>
      let continue := read_element_loop fuel' max_elem_path elem_type in
      let read_element t := read_element_loop fuel' max_elem_path t None None None in
      kbind next_line (fun l =>
      match l with
      | None => kraise (IOError "Unexpected EOF")
      | Some line_raw =>
          if endswith_char "}" (strip blanks_comma line_raw)
          then kbind chain_pop (fun r => kret (Some r))
          else
            let line := parse_line line_raw in
            match line with
            | [] => continue id name new_elem
            | l0 :: _ =>
                kbind (if String.eqb l0 "id" then
                         kbind (klift (item line 2)) (fun x =>
                         kbind (klift (uuid_of_hex x)) (fun u => kret (Some u, name)))
                       else if String.eqb l0 "name" then
                         kbind (klift (item line 2)) (fun x => kret (id, Some x))
                       else kret (id, name)) (fun idname =>
                let id := fst idname in
                let name := snd idname in
                fun s =>
                match path_test max_elem_path name s with
                | Some true =>
                    (Ok None, mkKstate (skip_element 0 (k_lines s)) (k_world s)
                                (element_chain s) (element_users s) (element_path s))
                | skip =>
                    kbind (match skip, element_path s with
                           | Some false, _ :: _ => drop_path_head
                           | _, _ => kret tt
                           end) (fun _ =>
                    match id, name with
                    | Some u, Some (String c n) =>
                        kbind (k_add_element (String c n) elem_type u false) (fun e =>
                        kbind (chain_push e) (fun _ => continue None None (Some e)))
                    | _, _ =>
                        match new_elem, line with
                        | None, _ => continue id name new_elem
                        | Some _, [_] => continue id name new_elem
                        | Some _, a :: t :: more =>
                            if String.eqb t "element_array" then
                              kbind (if has_char "[" line_raw then kret []
                                     else read_element_array fuel' max_elem_path a [])
                                (fun arr =>
                              kbind chain_top (fun top =>
                              kbind (k_setitem top a (VElementArray arr)) (fun _ =>
                              continue id name new_elem)))
                            else if endswith "_array" t then
                              kbind (read_array_attr line_raw line) (fun _ =>
                              continue id name new_elem)
                            else
                              match more with
                              | [] =>
                                  kbind (read_element t) (fun r =>
                                  kbind chain_top (fun top =>
                                  kbind (k_setitem top a (value_of_ref r)) (fun _ =>
                                  continue id name new_elem)))
                              | [x] =>
                                  kbind (read_value a t x (-1)) (fun v =>
                                  kbind chain_top (fun top =>
                                  kbind (k_setitem top a v) (fun _ =>
                                  continue id name new_elem)))
                              | _ => continue id name new_elem
                              end
                        | Some _, [] => continue id name new_elem
                        end
                    end) s
                end)
            end
      end)
  end
with read_element_array (fuel : nat) (max_elem_path : nat) (arr_name : string)
    (arr : list (option ref)) {struct fuel} : kv (list (option ref)) :=
  match fuel with
  | O => kraise OutOfFuel
  | S fuel' =>
      kbind next_line (fun l =>
      match l with
      | None => kret arr
      | Some line =>
          if has_char "[" line then read_element_array fuel' max_elem_path arr_name arr
          else if has_char "]" line then kret arr
          else
            match parse_line line with
            | [t] =>
                kbind (read_element_loop fuel' max_elem_path t None None None) (fun r =>
                read_element_array fuel' max_elem_path arr_name (arr ++ [r]))
            | [_; x] =>
                kbind (read_value arr_name "element" x (Z.of_nat (length arr))) (fun v =>
                read_element_array fuel' max_elem_path arr_name (arr ++ [ref_of_value v]))
            | _ => read_element_array fuel' max_elem_path arr_name arr
            end
      end)
  end.

End Kv2Reader.

End Kv2Reader.
Export Kv2Reader.

(** ** [load] *)

Module LoadFile.

Section LoadFile.

Variable rt : runtime.

(** The loop of [load] over the top-level lines. *)
Fixpoint read_top_level (fuel : nat) (max_elem_path : nat) : kv unit :=
  match fuel with
  | O => kraise OutOfFuel
  | S fuel' =>
      kbind next_line (fun l =>
      match l with
      | None => kret tt
      | Some line =>
          match parse_line line with
          | [t] =>
              fun s =>
                match element_chain s with
                | [] => kbind (read_element_loop rt (S (length (k_lines s))) max_elem_path
                                 t None None None)
                          (fun _ => read_top_level fuel' max_elem_path) s
                | _ :: _ => read_top_level fuel' max_elem_path s
                end
          | _ => read_top_level fuel' max_elem_path
          end
      end)
  end.

(** One deferred reference, now that [element] is read:
    [Owner[Name] = element] or [Owner[Name][Index] = element]. *)
Definition patch_user (element : ref) (u : AttributeReference) : kv unit :=
  if Index u =? -1 then k_setitem (Owner u) (Name u) (VElement element)
  else fun s =>
    let h := w_heap (k_world s) in
    match od_get (e_attrs (deref h (Owner u))) (Name u) with
    | None => (Raise (Exception "AttributeError: No attribute on element"), s)
    | Some (VElementArray l) =>
        if Nat.ltb (Z.to_nat (Index u)) (length l) then
          (Ok tt, with_world s
             (mkWorld (update h (Owner u)
                         (set_attr (Name u)
                            (VElementArray (<[Z.to_nat (Index u) := Some element]> l))))
                      (w_dms (k_world s))))
        else (Raise IndexError, s)
    | Some _ => (Raise (TypeError "not an element array"), s)
    end.

Fixpoint kfor {A} (f : A -> kv unit) (l : list A) : kv unit :=
  match l with
  | [] => kret tt
  | x :: l' => kbind (f x) (fun _ => kfor f l')
  end.

(** The pass that links every recorded reference to its element. *)
Definition patch_references : kv unit :=
  fun s =>
    kfor (fun element s =>
            let e := deref (w_heap (k_world s)) element in
            if e_is_placeholder e then (Ok tt, s)
            else kfor (patch_user element)
                   (default [] (od_get (element_users s) (uuid_str (e_id e)))) s)
         (dm_elements (dm_deref (w_dms (k_world s)) 0%nat)) s.

(** The KeyValues2 branch of [load] on the text after the header. *)
Definition load_keyvalues2 (element_path : option (list string)) : kv unit :=
  let path := default [] element_path in
  let max_elem_path := match path with [] => O | _ => S (length path) end in
  fun s =>
    kbind (read_top_level (S (length (k_lines s))) max_elem_path)
          (fun _ => patch_references)
          (mkKstate (k_lines s) (k_world s) [] [] path).

(** The bytes of the file as the text wrapper hands them out (ASCII). *)
Definition decode_text (b : list byte) : result (list string) :=
  if forallb (fun x => is_ascii (ascii_of_byte x)) b
  then Ok (lines_from [] (map ascii_of_byte b))
  else Raise UnicodeError.

Definition encode_lines (l : list string) : list byte :=
  concat (map list_byte_of_string l).

(** [load(in_file=f, element_path=p)] on a file opened in binary mode:
    the datamodel built (datamodel 0 of the world) and what is left of
    the file.  In the text branch the part left is the lines not
    handed out. *)
Definition load (in_file : list byte) (element_path : option (list string))
  : result world * list byte :=
  match load_prelude in_file with
  | (Raise e, rest) => (Raise e, rest)
  | (Ok (encoding, encoding_ver, format, format_ver), rest) =>
      let w := mkWorld [] [mkDataModel format format_ver [] None] in
      if String.eqb encoding "keyvalues2" then
        match decode_text rest with
        | Raise e => (Raise e, rest)
        | Ok lines =>
            match load_keyvalues2 element_path (mkKstate lines w [] [] []) with
            | (Ok _, s) => (Ok (k_world s), encode_lines (k_lines s))
            | (Raise e, s) => (Raise e, encode_lines (k_lines s))
            end
        end
      else if is_binary_encoding encoding then
        match load_binary rt encoding encoding_ver (mkLstate rest w) with
        | (Ok _, s) => (Ok (l_world s), l_in s)
        | (Raise e, s) => (Raise e, l_in s)
        end
      else (Ok w, rest)
  end.

End LoadFile.

End LoadFile.
Export LoadFile.

(** ** Sample graphs *)

Module Samples.

(** A runtime for the samples: none of them packs, prints or parses a
    float; a set is enumerated in the order its members were first
    inserted. *)
Definition first_seen (l : list string) : list string :=
  rev (nodup String.string_dec (rev l)).

Definition sample_runtime : runtime :=
  mkRuntime (fun _ => Raise OverflowError) (fun _ => PrimFloat.zero)
            (fun _ => EmptyString) (fun _ => EmptyString)
            (fun _ => Raise (ValueError "could not convert string to float"))
            first_seen.

(** The double nearest to 0.0001: the value of the Python literals
    [0.0001] and [1e-4]. *)
Definition f_0_0001 : float := 0x1.a36e2eb1c432dp-14%float.

(** A single element whose id is 00010203-0405-0607-0809-0a0b0c0d0e0f. *)
Definition lone_id : uuid := 5233100606242806050955395731361295%N.

Definition lone_heap : heap :=
  [mkElement "root" "DmElement" lone_id false [0%nat] 0 [("n"%string, VInt 42)]].

Definition lone_dm : DataModel := mkDataModel "model" 1 [0%nat] (Some 0%nat).

(** What [load] makes of what [echo] wrote: the id of the root. *)
Definition reloaded_root_id (encoding : string) (encoding_ver : Z) : option uuid :=
  match echo sample_runtime lone_heap lone_dm encoding encoding_ver with
  | Ok (Bytes b, _) =>
      match load sample_runtime b None with
      | (Ok w, _) =>
          match dm_root (dm_deref (w_dms w) 0%nat) with
          | Some r => Some (e_id (deref (w_heap w) r))
          | None => None
          end
      | _ => None
      end
  | _ => None
  end.

(** Two elements with one id: [a] has an attribute, [b] has none. *)
Definition twin_a : Element :=
  mkElement "a" "DmElement" 7%N false [0%nat] 0 [("k"%string, VInt 1)].

Definition twin_b : Element :=
  mkElement "b" "DmElement" 7%N false [0%nat] 0 [].

(** Datamodel 0 holds [holder] (0) and a placeholder (1) with id 7;
    datamodel 1 holds the full element (2) with id 7. *)
Definition stub_world : world :=
  mkWorld
    [mkElement "holder" "DmElement" 1%N false [0%nat] 0 [];
     mkElement "Missing element" "DmElement" 7%N true [0%nat] 0 [];
     mkElement "full" "DmeFull" 7%N false [1%nat] 0 [("v"%string, VInt 3)]]
    [mkDataModel "model" 1 [0%nat; 1%nat] (Some 0%nat);
     mkDataModel "model" 1 [2%nat] (Some 2%nat)].

(** Datamodel 0 holds [holder] (0) and [taken] (1) with id 9; datamodel
    1 holds [parent] (2), whose attribute points to [child] (3) with
    id 9. *)
Definition clash_world : world :=
  mkWorld
    [mkElement "holder" "DmElement" 1%N false [0%nat] 0 [];
     mkElement "taken" "DmElement" 9%N false [0%nat] 0 [];
     mkElement "parent" "DmElement" 5%N false [1%nat] 0 [("c"%string, VElement 3%nat)];
     mkElement "child" "DmElement" 9%N false [1%nat] 0 []]
    [mkDataModel "model" 1 [0%nat; 1%nat] (Some 0%nat);
     mkDataModel "model" 1 [2%nat; 3%nat] (Some 2%nat)].

(** A graph with shared elements: the root (0) points to [A] (1) once
    and to [B] (2) twice, [A] points to [C] (3) twice, [B] holds [D] (4)
    in an element array. *)
Definition shared_heap : heap :=
  [mkElement "root" "DmElement" 1%N false [0%nat] 0
     [("x"%string, VElement 1%nat); ("y"%string, VElement 2%nat);
      ("z"%string, VElement 2%nat)];
   mkElement "A" "DmeA" 2%N false [0%nat] 0
     [("p"%string, VElement 3%nat); ("q"%string, VElement 3%nat)];
   mkElement "B" "DmeB" 3%N false [0%nat] 0
     [("kids"%string, VElementArray [Some 4%nat])];
   mkElement "C" "DmeC" 4%N false [0%nat] 0 [("v"%string, VInt 7)];
   mkElement "D" "DmeD" 5%N false [0%nat] 0 []].

Definition shared_dm : DataModel :=
  mkDataModel "model" 1 [0%nat; 1%nat; 2%nat; 3%nat; 4%nat] (Some 0%nat).

(** [shared_heap] after the counting pass. *)
Definition shared_counted : heap :=
  match count_pass shared_heap shared_dm with
  | Ok s => fst s
  | Raise _ => []
  end.

(** A file whose header names version 9 of the binary encoding,
    followed by three more bytes. *)
Definition version9_file : list byte :=
  list_byte_of_string "<!-- dmx encoding binary 9 format model 1 -->XYZ".

End Samples.
Export Samples.

(** ** Predicates of the properties *)

(** What an import may change: it registers elements, so an element's
    [_datamodels] and a datamodel's list can grow at the end; nothing
    else moves. *)
Definition same_content (e e' : Element) : Prop :=
  e_name e' = e_name e /\ e_type e' = e_type e /\ e_id e' = e_id e /\
  e_is_placeholder e' = e_is_placeholder e /\ e_users e' = e_users e /\
  e_attrs e' = e_attrs e.

Definition grown (w w' : world) : Prop :=
  length (w_heap w') = length (w_heap w) /\
  (forall r, same_content (deref (w_heap w) r) (deref (w_heap w') r)) /\
  (forall d, dm_elements (dm_deref (w_dms w) d) `prefix_of`
             dm_elements (dm_deref (w_dms w') d)).

(** A string the binary encoding can carry: ASCII, no NUL inside. *)
Definition wire_char (c : ascii) : bool :=
  is_ascii c && negb (Ascii.eqb c "000"%char).

Definition wire_string (s : string) : Prop :=
  forallb wire_char (list_ascii_of_string s) = true.

(** Strings written one after the other, each closed by a NUL. *)
Definition inline_strings (l : list string) : list byte :=
  concat (map (fun s => list_byte_of_string s ++ [x00]) l).

(** The heap after [elem[name]] holds [v]. *)
Definition with_attr (wd : world) (elem : ref) (name : string) (v : value) : world :=
  mkWorld (update (w_heap wd) elem (set_attr name v)) (w_dms wd).

(** A count or index that a field of [size] bytes can carry. *)
Definition fits (size : Z) (n : Z) : Prop :=
  0 <= n < (if size =? shortsize then 65536 else 2147483648).

(** The field itself. *)
Definition sized_bytes (size : Z) (n : Z) : list byte :=
  if size =? shortsize then le_bytes 2 n else le_bytes 4 n.

(** The string table on the wire: the count, then the entries. *)
Definition table_bytes (d : StringDictionary) : list byte :=
  sized_bytes (length_size d) (Z.of_nat (length (entries d))) ++ inline_strings (entries d).

(** An element header with type and name both written as dictionary
    indices. *)
Definition header_by_index (d : StringDictionary) (e : Element) : result (list byte) :=
  t <- write_string d (e_type e) ;;
  n <- write_string d (e_name e) ;;
  Ok (t ++ n ++ uuid_bytes (e_id e)).

(** The dictionary [echo] builds for [lone_dm] under binary version 2,
    and the writer state that holds it. *)
Definition lone_dict_v2 : StringDictionary :=
  mkDict false 2 2 ["root"; "DmElement"; "n"]%string.

Definition lone_writer_v2 : writer := mkWriter [] "binary" 2 (Some lone_dict_v2) [].

(** ** The graph an element spans *)

(** The element slots of a value, in order: one for an element, one for
    each entry of an element array. *)
Definition value_slots (v : value) : list (option ref) :=
  match v with
  | VElement r => [Some r]
  | VElementArray l => l
  | _ => []
  end.

Definition slots (attrs : list (string * value)) : list (option ref) :=
  concat (map (fun kv => value_slots (snd kv)) attrs).

Definition element_slots (h : heap) (x : ref) : list (option ref) :=
  slots (e_attrs (deref h x)).

(** [y] is the value of a slot of [x]. *)
Definition child (h : heap) (x y : ref) : Prop := In (Some y) (element_slots h x).

Inductive reachable (h : heap) (root : ref) : ref -> Prop :=
| reach_root : reachable h root root
| reach_step x y : reachable h root x -> child h x y -> reachable h root y.

(** What the data model promises of the graph under a root: its
    references point into the heap, its element arrays hold no [None],
    and no two of its elements share an id. *)
Record well_formed (h : heap) (root : ref) : Prop := mkWellFormed {
  wf_valid : forall r, reachable h root r -> (r < length h)%nat;
  wf_no_null : forall r, reachable h root r -> ~ In None (element_slots h r);
  wf_ids : forall r1 r2, reachable h root r1 -> reachable h root r2 ->
                         e_id (deref h r1) = e_id (deref h r2) -> r1 = r2
}.

Definition holds (e : ref) (s : option ref) : bool :=
  match s with
  | Some r => Nat.eqb r e
  | None => false
  end.

(** The number of slots in [l] whose value is [e]. *)
Definition count_slots (e : ref) (l : list (option ref)) : nat :=
  length (List.filter (holds e) l).

(** The number of slots of the elements [owners] whose value is [e]. *)
Fixpoint slot_count (h : heap) (owners : list ref) (e : ref) : nat :=
  match owners with
  | [] => 0
  | x :: owners' => count_slots e (element_slots h x) + slot_count h owners' e
  end.

(** Depth-first discovery from [e]: an element is listed when it is
    first met, before the elements its slots lead to. *)
Fixpoint dfs (fuel : nat) (h : heap) (e : ref) (seen : list ref) : list ref :=
  match fuel with
  | O => seen
  | S fuel' =>
      fold_left (fun seen s =>
                   match s with
                   | Some r => if existsb (Nat.eqb r) seen then seen else dfs fuel' h r seen
                   | None => seen
                   end)
                (element_slots h e) (seen ++ [e])
  end.

Definition discovery_order (h : heap) (root : ref) : list ref :=
  dfs (S (length h)) h root [].

(** Two heaps with the same graph: only [_users] may differ. *)
Definition same_graph (h h' : heap) : Prop :=
  length h' = length h /\
  forall r, e_name (deref h' r) = e_name (deref h r) /\
            e_type (deref h' r) = e_type (deref h r) /\
            e_id (deref h' r) = e_id (deref h r) /\
            e_is_placeholder (deref h' r) = e_is_placeholder (deref h r) /\
            e_attrs (deref h' r) = e_attrs (deref h r).

(** One step of the discovery along a slot. *)
Definition dfs_step (fuel : nat) (h : heap) (seen : list ref) (s : option ref) : list ref :=
  match s with
  | Some r => if existsb (Nat.eqb r) seen then seen else dfs fuel h r seen
  | None => seen
  end.

(** The state of the counting pass fits the graph of [h0] under [root]:
    only [_users] moved, and [out_elems] lists reachable elements, each
    once. *)
Definition counting (h0 : heap) (root : ref) (s : cstate) : Prop :=
  same_graph h0 (fst s) /\ NoDup (snd s) /\
  forall x, In x (snd s) -> reachable h0 root x.

(** What a visit of [e] with [fuel] does to a fitting state from which
    [e] is missing: it lists [new], starting at [e], in discovery order,
    counts every slot of the elements of [new], and every element those
    slots lead to is listed when it is over. *)
Definition visit_spec (h0 : heap) (root : ref) (fuel : nat) : Prop :=
  forall e s,
    counting h0 root s -> reachable h0 root e -> ~ In e (snd s) ->
    (length h0 <= fuel + length (snd s))%nat ->
    exists hp' new,
      _count_child_elems fuel (Some e) s = Ok (hp', snd s ++ new) /\
      counting h0 root (hp', snd s ++ new) /\
      (forall x, e_users (deref hp' x)
                 = (e_users (deref (fst s) x) + slot_count h0 new x)%nat) /\
      (forall y c, In y new -> child h0 y c -> In c (snd s ++ new)) /\
      In e new /\
      snd s ++ new = dfs fuel h0 e (snd s).

(** ** The KeyValues2 layout of a counted graph *)

(** Breadth-first discovery: the elements are listed level by level. *)
Fixpoint bfs (fuel : nat) (h : heap) (queue seen : list ref) : list ref :=
  match fuel, queue with
  | S fuel', x :: queue' =>
      let found :=
        fold_left (fun acc s =>
                     match s with
                     | Some r => if existsb (Nat.eqb r) (seen ++ acc) then acc else acc ++ [r]
                     | None => acc
                     end) (element_slots h x) [] in
      bfs fuel' h (queue' ++ found) (seen ++ found)
  | _, _ => seen
  end.

Definition breadth_first_order (h : heap) (root : ref) : list ref :=
  bfs (S (length h)) h [root] [root].

Section Layout.

Variable fmt : float -> string.
Variable repr : float -> string.
Variable h : heap.

(** The text of an element block, given the text of its attributes. *)
Definition block (indent : nat) (e : Element) (lines : list string) : string :=
  (_quote (e_type e) ++ nl ++ tabs indent ++ "{" ++ nl
     ++ _make_attr_str (S indent) "id" "elementid" (uuid_str (e_id e)) false
     ++ _make_attr_str (S indent) "name" "string" (e_name e) false
     ++ String.concat EmptyString lines
     ++ tabs indent ++ "}")%string.

(** The text of an element array, given the text of its entries. *)
Definition array_block (indent : nat) (items : list string) : string :=
  (nl ++ tabs indent ++ "[" ++ nl ++ join ("," ++ " " ++ nl) items
     ++ nl ++ tabs indent ++ "]")%string.

(** The layout rule of the format.  An element slot whose target has
    fewer than two users (exactly one, for an array entry) holds the
    target's block, nested at that point; any other element slot holds
    the bare reference ["element" "<uuid>"]; every other attribute is
    one line that no element text enters. *)
Inductive renders : nat -> ref -> string -> Prop :=
| renders_element indent e lines :
    Forall2 (renders_attr (S indent)) (e_attrs (deref h e)) lines ->
    renders indent e (block indent (deref h e) lines)
with renders_attr : nat -> string * value -> string -> Prop :=
| renders_null indent name :
    renders_attr indent (name, VNone)
      (_make_attr_str indent name "element" EmptyString false)
| renders_nested indent name r b :
    (e_users (deref h r) < 2)%nat ->
    renders indent r b ->
    renders_attr indent (name, VElement r)
      (tabs indent ++ _quote name ++ " " ++ b ++ nl)%string
| renders_reference indent name r :
    (2 <= e_users (deref h r))%nat ->
    renders_attr indent (name, VElement r)
      (_make_attr_str indent name "element" (uuid_str (e_id (deref h r))) false)
| renders_empty_array indent name :
    renders_attr indent (name, VElementArray [])
      (_make_attr_str indent name "element_array" "[ ]" true)
| renders_array indent name l items :
    l <> [] ->
    Forall2 (renders_entry (S indent)) l items ->
    renders_attr indent (name, VElementArray l)
      (_make_attr_str indent name "element_array" (array_block indent items) true)
| renders_plain indent name v text :
    value_slots v = [] -> v <> VNone -> v <> VElementArray [] ->
    attr_kv2 fmt repr (fun _ _ => Raise OutOfFuel) h indent (name, v) = Ok text ->
    renders_attr indent (name, v) text
with renders_entry : nat -> option ref -> string -> Prop :=
| renders_entry_nested indent r b :
    e_users (deref h r) = 1%nat ->
    renders indent r b ->
    renders_entry indent (Some r) (tabs indent ++ b)%string
| renders_entry_reference indent r :
    e_users (deref h r) <> 1%nat ->
    renders_entry indent (Some r) (element_ref indent h r).

End Layout.

(** No reachable element carries a [_MatrixArray] attribute (an object
    the text writer has no type string for). *)
Definition no_matrix_array (h : heap) (root : ref) : Prop :=
  forall r name, reachable h root r -> ~ In (name, VMatrixArray) (e_attrs (deref h r)).

(** The elements on the way from the block being written ([t], at the
    top) down to [x], through nested blocks: they are distinct and
    reachable, each but [t] is held by a slot of one before it, and [t]
    does not have exactly one user ([h'] is the counted heap). *)
Definition ancestry (h h' : heap) (root t : ref) (p : list ref) (x : ref) : Prop :=
  NoDup (p ++ [x]) /\
  (forall y, In y (p ++ [x]) -> reachable h root y) /\
  (forall y, In y (p ++ [x]) -> y = t \/ exists a, In a p /\ child h a y) /\
  e_users (deref h' t) <> 1%nat.

(** ** The strings of a graph *)

(** The strings of one attribute that go into the dictionary: its key,
    and its value when that is a string. *)
Definition attr_strings (kv : string * value) : list string :=
  fst kv :: match snd kv with
            | VStr s => [s]
            | _ => []
            end.

(** The strings of an element that go into the dictionary. *)
Definition element_strings (h : heap) (x : ref) : list string :=
  e_name (deref h x) :: e_type (deref h x)
    :: concat (map attr_strings (e_attrs (deref h x))).

(** The traversal that builds the dictionary has dealt with [y]: its
    strings are collected and the elements its slots hold are checked. *)
Definition covered (h : heap) (s : dstate) (y : ref) : Prop :=
  (forall t, In t (element_strings h y) -> In t (snd s)) /\
  (forall c, child h y c -> In c (fst s)).

(** From [s] to [s'] the traversal only adds, lists reachable elements,
    and has dealt with every element it added. *)
Definition progress (h : heap) (root : ref) (s s' : dstate) : Prop :=
  (forall x, In x (fst s') -> reachable h root x) /\
  (forall x, In x (fst s) -> In x (fst s')) /\
  (forall t, In t (snd s) -> In t (snd s')) /\
  (forall y, In y (fst s') -> In y (fst s) \/ covered h s' y).

(** What a visit of [e] by the dictionary traversal achieves when it
    returns. *)
Definition visit_ok (h : heap) (root : ref) (fuel : nat) : Prop :=
  forall e s s',
    (forall x, In x (fst s) -> reachable h root x) ->
    reachable h root e ->
    process_element fuel h (Some e) s = Ok s' ->
    progress h root s s' /\ In e (fst s') /\ covered h s' e.

(** [P] holds of the [k] integers from [n] on. *)
Fixpoint all_from (k : nat) (n : Z) (P : Z -> bool) : bool :=
  match k with
  | O => true
  | S k' => P n && all_from k' (n + 1) P
  end.

(** The tick count [Time.tobytes] packs for the [Time] that
    [Time.from_int n] makes is [n] or [n - 1]. *)
Definition ticks_near (n : Z) : bool :=
  match int_of_float (PrimFloat.mul (Time_from_int n) (float_of_Z 10000)) with
  | Ok m => (m =? n) || (m =? n - 1)
  | Raise _ => false
  end.

(** ** Header words *)

(** A character a word of the header can hold: ASCII, no white space,
    not [>] (which ends the header). *)
Definition header_char (c : ascii) : bool :=
  is_ascii c && non_space c && negb (Ascii.eqb c ">").

(** A word the header can carry. *)
Definition header_word (s : string) : Prop :=
  s <> EmptyString /\ forallb header_char (list_ascii_of_string s) = true.

(** The capture loop of a group of [match_here], by itself: [k] matches
    what follows the group. *)
Section Group.

Variable cls : ascii -> bool.
Variable k : list ascii -> option (list string * list ascii).

Fixpoint plus_group (s : list ascii) : option (list ascii * list string * list ascii) :=
  match s with
  | [] => None
  | x :: s' =>
      if cls x then
        match plus_group s' with
        | Some (cap, gs, rest) => Some (x :: cap, gs, rest)
        | None => match k s' with
                  | Some (gs, rest) => Some ([x], gs, rest)
                  | None => None
                  end
        end
      else None
  end.

End Group.

(** ** KeyValues2 text *)

(** Text that can stand between the quotes of a KeyValues2 line: no
    quote (nothing escapes one) and no line break. *)
Definition kv2_char (c : ascii) : bool :=
  negb (Ascii.eqb c "034") && negb (Ascii.eqb c "010").

Definition kv2_text (s : string) : Prop :=
  forallb kv2_char (list_ascii_of_string s) = true.

(** The attribute values that one KeyValues2 line carries as they are:
    integers, booleans, strings without quote or line break, and
    [None]. *)
Definition kv2_scalar (v : value) : Prop :=
  match v with
  | VNone | VInt _ | VBool _ => True
  | VStr s => kv2_text s
  | _ => False
  end.

(** ** Attribute values on the wire *)

(** A value of the plain classes that binary version [ver] can carry
    with dictionary [d]: an integer of 32 bits, a boolean, a string
    (inline below version 4, an entry of the dictionary from it on), a
    byte string whose length fits 32 bits, or [None]. *)
Definition wire_value (d : StringDictionary) (ver : Z) (v : value) : Prop :=
  match v with
  | VNone | VBool _ => True
  | VInt z => -2147483648 <= z < 2147483648
  | VStr s => if ver <? 4 then wire_string s else In s (entries d)
  | VBinary b => Z.of_nat (length b) < 2147483648
  | _ => False
  end.

(** The state of the dictionary traversal holds nothing foreign: the
    elements checked are reachable from [root], and every string
    collected is a string of a reachable element. *)
Definition collected_from (h : heap) (root : ref) (s : dstate) : Prop :=
  (forall x, In x (fst s) -> reachable h root x) /\
  (forall t, In t (snd s) -> exists e, reachable h root e /\ In t (element_strings h e)).

(** ** [DataModel.find_elements] *)

(** What [find_elements] returns: one element (an id matched), a list,
    or [None] (nothing matched: the function falls off its end). *)
Inductive found : Type :=
| FoundElement (r : ref)
| FoundList (l : list ref)
| FoundNone.

(** [x == o] for an argument that may be [None]. *)
Definition arg_eqb {A} (eqb : A -> A -> bool) (x : A) (o : option A) : bool :=
  match o with
  | Some y => eqb x y
  | None => false
  end.

(** The loop of [find_elements], with its list [out]. *)
Fixpoint find_loop (h : heap) (name : option string) (id : option uuid)
    (elemtype : option string) (elements : list ref) (out : list ref) : found :=
  match elements with
  | [] => match out with [] => FoundNone | _ :: _ => FoundList out end
  | elem :: rest =>
      let e := deref h elem in
      if arg_eqb N.eqb (e_id e) id then FoundElement elem
      else
        let out := if arg_eqb String.eqb (e_name e) name then out ++ [elem] else out in
        let out := if arg_eqb String.eqb (e_type e) elemtype then out ++ [elem] else out in
        find_loop h name id elemtype rest out
  end.

(** [DataModel.find_elements(name, id, elemtype)], [id] given as a
    [UUID] (a string is turned into one first). *)
Definition find_elements (h : heap) (self : DataModel) (name : option string)
    (id : option uuid) (elemtype : option string) : found :=
  find_loop h name id elemtype (dm_elements self) [].

(** The entries one element adds to the list: itself when its name
    matches, and itself again when its type matches. *)
Definition matches (h : heap) (name elemtype : option string) (elem : ref) : list ref :=
  (if arg_eqb String.eqb (e_name (deref h elem)) name then [elem] else [])
    ++ (if arg_eqb String.eqb (e_type (deref h elem)) elemtype then [elem] else []).

(** ** What an import registers *)

(** From [w] to [w'] elements were only registered: the heap and the
    list of datamodels keep their lengths, an element keeps the
    datamodels it had, a datamodel keeps the elements it listed, and
    every datamodel an element belongs to in [w'] it belonged to
    in [w0] or lists it in [w']. *)
Definition registered (w0 w w' : world) : Prop :=
  length (w_heap w') = length (w_heap w) /\
  length (w_dms w') = length (w_dms w) /\
  (forall x d, In d (e_datamodels (deref (w_heap w) x)) ->
               In d (e_datamodels (deref (w_heap w') x))) /\
  (forall x d, In x (dm_elements (dm_deref (w_dms w) d)) ->
               In x (dm_elements (dm_deref (w_dms w') d))) /\
  ((forall x d, In d (e_datamodels (deref (w_heap w) x)) ->
                In d (e_datamodels (deref (w_heap w0) x)) \/
                In x (dm_elements (dm_deref (w_dms w) d))) ->
   (forall x d, In d (e_datamodels (deref (w_heap w') x)) ->
                In d (e_datamodels (deref (w_heap w0) x)) \/
                In x (dm_elements (dm_deref (w_dms w') d)))).

(** Every datamodel an element names is a datamodel of the world. *)
Definition datamodels_valid (w : world) : Prop :=
  forall x dm, In dm (e_datamodels (deref (w_heap w) x)) -> (dm < length (w_dms w))%nat.

(** * Properties *)

(** ** Supported encodings (C8) *)

Lemma check_support_outcome encoding encoding_ver :
  check_support encoding encoding_ver = Ok tt \/
  exists msg, check_support encoding encoding_ver = Raise (ValueError msg).
Proof.
  unfold check_support.
  destruct (od_get list_support encoding) as [[|v vs]|]; eauto.
  destruct (existsb _ _); eauto.
Qed.

Lemma check_support_iff encoding encoding_ver :
  supported encoding encoding_ver <-> check_support encoding encoding_ver = Ok tt.
Proof.
  unfold supported, check_support, list_support, od_get.
  destruct (String.eqb_spec "binary" encoding) as [<-|Hb].
  - cbn [existsb]. split.
    + intros [[_ Hv]|[[H _]|[H _]]]; try discriminate H.
      assert (Hc : encoding_ver = 1 \/ encoding_ver = 2 \/ encoding_ver = 3 \/
                   encoding_ver = 4 \/ encoding_ver = 5) by lia.
      destruct Hc as [->|[->|[->|[->| ->]]]]; reflexivity.
    + intros H. left. split; [reflexivity|].
      repeat match type of H with
             | context [Z.eqb ?a ?b] => destruct (Z.eqb_spec a b); [lia|]
             end.
      discriminate H.
  - destruct (String.eqb_spec "keyvalues2" encoding) as [<-|Hk].
    + cbn [existsb]. split.
      * intros [[H _]|[[_ ->]|[H _]]]; try discriminate H. reflexivity.
      * intros H. right; left. split; [reflexivity|].
        destruct (Z.eqb_spec encoding_ver 1); [assumption | discriminate H].
    + destruct (String.eqb_spec "binary_proto" encoding) as [<-|Hp].
      * cbn [existsb]. split.
        -- intros [[H _]|[[H _]|[_ ->]]]; try discriminate H. reflexivity.
        -- intros H. right; right. split; [reflexivity|].
           destruct (Z.eqb_spec encoding_ver 2); [assumption | discriminate H].
      * split.
        -- intros [[H _]|[[H _]|[H _]]]; congruence.
        -- discriminate.
Qed.

Lemma check_support_raises encoding encoding_ver :
  ~ supported encoding encoding_ver ->
  exists msg, check_support encoding encoding_ver = Raise (ValueError msg).
Proof.
  intros Hn. destruct (check_support_outcome encoding encoding_ver) as [H|H]; [|exact H].
  exfalso. apply Hn, check_support_iff, H.
Qed.

(** C8, as the code has it: [check_support] accepts exactly binary 1 to
    5, keyvalues2 1 and binary_proto 2; for any other pair [echo] raises
    its [ValueError] before it writes anything, and [load] raises it
    right after the header has been read, with the rest of the file
    untouched. *)
Theorem unsupported_pair_rejected :
  forall rt h dm encoding encoding_ver,
    (supported encoding encoding_ver <-> check_support encoding encoding_ver = Ok tt) /\
    (~ supported encoding encoding_ver ->
     (exists msg, echo rt h dm encoding encoding_ver = Raise (ValueError msg)) /\
     (forall in_file element_path header rest format format_ver,
         read_header in_file = (Ok header, rest) ->
         parse_header header = Ok (encoding, encoding_ver, format, format_ver) ->
         exists msg, load rt in_file element_path = (Raise (ValueError msg), rest))).
Proof.
  intros rt h dm encoding encoding_ver. split; [apply check_support_iff|].
  intros Hn. destruct (check_support_raises _ _ Hn) as [msg Hmsg]. split.
  - exists msg. unfold echo. rewrite Hmsg. reflexivity.
  - intros in_file element_path header rest format format_ver Hh Hp.
    exists msg. unfold load, load_prelude, rbind. rewrite Hh, Hp, Hmsg. reflexivity.
Qed.

Lemma unsupported_pair_rejected_witness :
  ~ supported "binary" 9 /\
  exists msg, load sample_runtime version9_file None
              = (Raise (ValueError msg), list_byte_of_string "XYZ").
Proof.
  assert (Hn : ~ supported "binary" 9).
  { intros [[_ H]|[[H _]|[H _]]]; [lia | discriminate H | discriminate H]. }
  split; [exact Hn|].
  destruct (unsupported_pair_rejected sample_runtime [] empty_datamodel "binary" 9)
    as [_ H].
  destruct (H Hn) as [_ Hl].
  apply (Hl version9_file None "<!-- dmx encoding binary 9 format model 1 -->"%string
            (list_byte_of_string "XYZ") "model"%string 1); vm_compute; reflexivity.
Defined.

(** C8 as stated fails on the read path: the error for an unsupported
    pair comes after [load] has read the header from the file. *)
Lemma load_reads_header_before_check :
  load sample_runtime version9_file None
    = (Raise (ValueError "Version of DMX is not supported"), list_byte_of_string "XYZ")
  /\ length (list_byte_of_string "XYZ") <> length version9_file.
Proof. split; [vm_compute; reflexivity | vm_compute; discriminate]. Qed.

(** ** Element equality (C10) *)

Lemma Element_hash_by_id a b : e_id a = e_id b -> Element_hash a = Element_hash b.
Proof. unfold Element_hash. intros ->. reflexivity. Qed.

(** C10 at the failing input: [twin_a] and [twin_b] carry the same id and
    the same hash, [twin_b] is an element and not [None], and yet
    [twin_a == twin_b] is false, because [__eq__] tests the truth value
    of [other], which for an element without attributes is false.  The
    duplicate lookup of [add_element], which searches for an element
    that was just built and so has no attributes, finds nothing. *)
Theorem Element_eq_needs_attributes :
  e_id twin_a = e_id twin_b /\
  Element_hash twin_a = Element_hash twin_b /\
  Element_eq twin_a (Some twin_b) = false /\
  Element_eq twin_b (Some twin_a) = true /\
  elem_index [twin_a; twin_b] [0%nat] 1%nat = None /\
  add_element_dupe_check [twin_a; twin_b] [0%nat] 1%nat
    = Raise (ValueError "is not in list").
Proof. repeat split. Qed.

(** ** Time on the wire (C9) *)

Lemma Time_tobytes_0_0001 : Time_tobytes f_0_0001 = Ok [x01; x00; x00; x00].
Proof. vm_compute. reflexivity. Qed.

Lemma get_int_one rest : get_int ([x01; x00; x00; x00] ++ rest) = (Ok 1, rest).
Proof. reflexivity. Qed.


(** ** Import into a datamodel that holds a placeholder (C6) *)

(** C6 at the failing input: datamodel 0 holds only a placeholder with
    the id of the element being attached, and the assignment raises
    [IDCollisionError] all the same; the scan of [import_element]
    compares ids and does not look at [_is_placeholder].  The lookup of
    [add_element] does exempt the placeholder. *)
Theorem import_collides_with_placeholder :
  e_is_placeholder (deref (w_heap stub_world) 1%nat) = true /\
  e_id (deref (w_heap stub_world) 1%nat) = e_id (deref (w_heap stub_world) 2%nat) /\
  id_in_use (w_heap stub_world) (dm_deref (w_dms stub_world) 0%nat) 2%nat = true /\
  Element_setitem stub_world 0%nat "child" (VElement 2%nat)
    = (stub_world, Raise IDCollisionError) /\
  add_element_dupe_check (w_heap stub_world) [0%nat; 1%nat] 2%nat = Ok tt.
Proof. repeat split. Qed.

(** ** Round trip through the binary encodings (C1) *)

(** The two byte orders of a UUID: what [uuid.bytes] writes and what
    [UUID(bytes_le=...)] reads. *)
Lemma get_uuid_of_uuid_bytes u rest :
  get_uuid (uuid_bytes u ++ rest) = (Ok (uuid_of_bytes_le (uuid_bytes u)), rest).
Proof.
  unfold get_uuid.
  assert (Hlen : length (uuid_bytes u) = 16%nat) by reflexivity.
  rewrite take_app_length' by exact Hlen.
  rewrite drop_app_length' by exact Hlen.
  rewrite Hlen. reflexivity.
Qed.

(** C1 at the failing input: the one-element graph [lone_dm] written
    under binary version 1, 2, 3, 4 or 5 and read back has a root whose
    id is 03020100-0504-0706-0809-0a0b0c0d0e0f, not the id
    00010203-0405-0607-0809-0a0b0c0d0e0f it was written with:
    [_write] emits [uuid.bytes], [load] reads them as [bytes_le].  Under
    binary_proto 2 [echo] raises, as no dictionary object exists. *)
Theorem binary_roundtrip_changes_root_id :
  uuid_str lone_id = "00010203-0405-0607-0809-0a0b0c0d0e0f"%string /\
  (forall v, In v [1; 2; 3; 4; 5] ->
     option_map uuid_str (reloaded_root_id "binary" v)
       = Some "03020100-0504-0706-0809-0a0b0c0d0e0f"%string /\
     reloaded_root_id "binary" v <> Some lone_id) /\
  echo sample_runtime lone_heap lone_dm "binary_proto" 2
    = Raise (Exception "AttributeError: no write_string").
Proof.
  split; [vm_compute; reflexivity|]. split; [|vm_compute; reflexivity].
  intros v Hv. cbn [In] in Hv.
  destruct Hv as [<-|[<-|[<-|[<-|[<-|[]]]]]];
    (split; [vm_compute; reflexivity | vm_compute; discriminate]).
Qed.

(** ** A failed assignment (C7) *)

Lemma same_content_refl e : same_content e e.
Proof. repeat split. Qed.

Lemma same_content_trans e1 e2 e3 :
  same_content e1 e2 -> same_content e2 e3 -> same_content e1 e3.
Proof.
  unfold same_content. intros (?&?&?&?&?&?) (?&?&?&?&?&?).
  repeat split; congruence.
Qed.

Lemma grown_refl w : grown w w.
Proof.
  split; [reflexivity|]. split; intros; [apply same_content_refl | reflexivity].
Qed.

Lemma grown_trans w1 w2 w3 : grown w1 w2 -> grown w2 w3 -> grown w1 w3.
Proof.
  intros (Hl1 & Hc1 & Hp1) (Hl2 & Hc2 & Hp2). split; [congruence|]. split.
  - intros r. eapply same_content_trans; [apply Hc1 | apply Hc2].
  - intros d. etransitivity; [apply Hp1 | apply Hp2].
Qed.

Lemma deref_lookup h r : deref h r = default empty_element (h !! r).
Proof. unfold deref. apply nth_lookup. Qed.

Lemma dm_deref_lookup ds d : dm_deref ds d = default empty_datamodel (ds !! d).
Proof. unfold dm_deref. apply nth_lookup. Qed.

(** Reading the heap after one object was replaced. *)
Lemma deref_update h r f x :
  deref (update h r f) x
  = if decide (r = x /\ (r < length h)%nat) then f (deref h r) else deref h x.
Proof.
  unfold update. rewrite !deref_lookup.
  destruct (decide (r = x /\ (r < length h)%nat)) as [[-> Hlt]|Hn].
  - rewrite list_lookup_insert_eq by exact Hlt. reflexivity.
  - destruct (decide (r = x)) as [->|Hne].
    + rewrite list_insert_ge by lia. reflexivity.
    + rewrite list_lookup_insert_ne by exact Hne. reflexivity.
Qed.

Lemma length_update h r f : length (update h r f) = length h.
Proof. unfold update. apply length_insert. Qed.

Lemma register_grown w dm elem : grown w (register w dm elem).
Proof.
  unfold register. split; [apply length_update|]. split; cbn [w_heap w_dms].
  - intros r. rewrite deref_update.
    destruct (decide _) as [[-> _]|_]; repeat split.
  - intros d. rewrite !dm_deref_lookup.
    destruct (decide (dm = d)) as [->|Hne].
    + destruct (decide (d < length (w_dms w))%nat) as [Hlt|Hge].
      * rewrite list_lookup_insert_eq by exact Hlt. cbn.
        rewrite <- dm_deref_lookup. apply prefix_app_r. reflexivity.
      * rewrite list_insert_ge by lia. reflexivity.
    + rewrite list_lookup_insert_ne by exact Hne. reflexivity.
Qed.

(** A loop whose every step stays inside a preorder stays inside it,
    whether it ends or raises. *)
Lemma forS_preserves {A S} (R : S -> S -> Prop) (f : A -> S -> S * result unit) l :
  (forall s, R s s) ->
  (forall s1 s2 s3, R s1 s2 -> R s2 s3 -> R s1 s3) ->
  (forall x s s' r, In x l -> f x s = (s', r) -> R s s') ->
  forall s s' r, forS f l s = (s', r) -> R s s'.
Proof.
  intros Hrefl Htrans. induction l as [|x l IH]; intros Hf s s' r H; cbn in H.
  - inversion H; subst. apply Hrefl.
  - destruct (f x s) as [s1 [[]|e]] eqn:Hx.
    + eapply Htrans; [eapply Hf; [left; reflexivity | exact Hx]|].
      eapply IH; [|exact H]. intros y t t' q Hy. apply Hf. right. exact Hy.
    + inversion H; subst. eapply Hf; [left; reflexivity | exact Hx].
Qed.

Lemma import_element_grown fuel :
  forall self elem w w' r,
    import_element fuel self elem w = (w', r) -> grown w w'.
Proof.
  induction fuel as [|fuel IH]; intros self elem w w' r H.
  - destruct elem; inversion H; subst; apply grown_refl.
  - destruct elem as [elem|]; [|inversion H; subst; apply grown_refl].
    cbn [import_element] in H.
    eapply (forS_preserves grown); [apply grown_refl | apply grown_trans | | exact H].
    intros dm s s' q _ Hdm. cbn beta in Hdm.
    destruct (existsb _ _); [inversion Hdm; subst; apply grown_refl|].
    destruct (id_in_use _ _ _); [inversion Hdm; subst; apply grown_refl|].
    eapply grown_trans; [apply register_grown|].
    eapply (forS_preserves grown); [apply grown_refl | apply grown_trans | | exact Hdm].
    intros kv t t' q' _ Hkv. cbn beta in Hkv.
    destruct (snd kv); try (inversion Hkv; subst; apply grown_refl).
    + eapply IH. exact Hkv.
    + eapply (forS_preserves grown); [apply grown_refl | apply grown_trans | | exact Hkv].
      intros o u u' q'' _ Ho. eapply IH. exact Ho.
Qed.

(** C7, as the code has it: when an assignment fails, no element has a
    changed attribute (nor name, type or id) and the slot is not set;
    each datamodel's element list still starts with the list it had,
    and may have grown by the elements imported before the failure. *)
Theorem failed_setitem_keeps_attributes :
  forall w self key item w' e,
    Element_setitem w self key item = (w', Raise e) ->
    (forall r, same_content (deref (w_heap w) r) (deref (w_heap w') r)) /\
    (forall d, dm_elements (dm_deref (w_dms w) d) `prefix_of`
               dm_elements (dm_deref (w_dms w') d)).
Proof.
  intros w self key item w' e H. unfold Element_setitem in H.
  assert (Hg : grown w w'); [|destruct Hg as (_ & Hc & Hp); split; assumption].
  destruct item;
    try (inversion H; fail);
    match type of H with
    | context [import_element ?f ?s ?x ?y] =>
        destruct (import_element f s x y) as [w1 [[]|e1]] eqn:Hi;
        inversion H; subst; eapply import_element_grown; exact Hi
    | context [forS ?f ?l ?y] =>
        destruct (forS f l y) as [w1 [[]|e1]] eqn:Hi;
        inversion H; subst;
        eapply (forS_preserves grown); [apply grown_refl | apply grown_trans | | exact Hi];
        intros o u u' q _ Ho; eapply import_element_grown; exact Ho
    end.
Qed.

Lemma failed_setitem_keeps_attributes_witness :
  (forall r, same_content (deref (w_heap clash_world) r)
               (deref (w_heap (fst (Element_setitem clash_world 0%nat "k"
                                      (VElement 2%nat)))) r)) /\
  (forall d, dm_elements (dm_deref (w_dms clash_world) d) `prefix_of`
             dm_elements (dm_deref (w_dms (fst (Element_setitem clash_world 0%nat "k"
                                                  (VElement 2%nat)))) d)).
Proof.
  apply (failed_setitem_keeps_attributes clash_world 0%nat "k" (VElement 2%nat)
           _ IDCollisionError).
  vm_compute. reflexivity.
Defined.

(** C7 as stated fails: the assignment below raises [IDCollisionError]
    on the child, after the parent has been appended to the element
    list of datamodel 0. *)
Lemma failed_setitem_leaves_imported_parent :
  snd (Element_setitem clash_world 0%nat "k" (VElement 2%nat)) = Raise IDCollisionError /\
  dm_elements (dm_deref (w_dms clash_world) 0%nat) = [0; 1]%nat /\
  dm_elements (dm_deref (w_dms (fst (Element_setitem clash_world 0%nat "k"
                                       (VElement 2%nat)))) 0%nat) = [0; 1; 2]%nat.
Proof. repeat split. Qed.

(** ** [struct] and string round trips *)

Lemma Z_of_byte_of_Z z : Z_of_byte (byte_of_Z z) = z mod 256.
Proof.
  unfold Z_of_byte, byte_of_Z.
  pose proof (Z.mod_pos_bound z 256 ltac:(lia)) as Hb.
  destruct (Byte.of_N (Z.to_N (z mod 256))) as [b|] eqn:E.
  - apply Byte.to_of_N in E. rewrite E. lia.
  - apply Byte.of_N_None_iff in E. lia.
Qed.

Lemma length_le_bytes n z : length (le_bytes n z) = n.
Proof. revert z. induction n as [|n IH]; intros z; cbn; [reflexivity|]. rewrite IH. reflexivity. Qed.

Lemma le_decode_le_bytes n z :
  0 <= z < 256 ^ Z.of_nat n -> le_decode (le_bytes n z) = z.
Proof.
  revert z. induction n as [|n IH]; intros z Hz.
  - cbn in *. lia.
  - cbn [le_bytes le_decode]. rewrite Z_of_byte_of_Z.
    rewrite Nat2Z.inj_succ, Z.pow_succ_r in Hz by lia.
    rewrite IH.
    + pose proof (Z.div_mod z 256 ltac:(lia)). lia.
    + split; [apply Z.div_pos; lia|]. apply Z.div_lt_upper_bound; lia.
Qed.

Lemma pack_i_spec z :
  -2147483648 <= z < 2147483648 -> pack_i z = Ok (le_bytes 4 (z mod 4294967296)).
Proof.
  intros Hz. unfold pack_i.
  destruct (Z.leb_spec (-2147483648) z); [|lia].
  destruct (Z.ltb_spec z 2147483648); [|lia]. reflexivity.
Qed.

Lemma unpack_i_le_bytes z :
  -2147483648 <= z < 2147483648 -> unpack_i (le_bytes 4 (z mod 4294967296)) = z.
Proof.
  intros Hz. unfold unpack_i.
  rewrite le_decode_le_bytes
    by (change (256 ^ Z.of_nat 4) with 4294967296; apply Z.mod_pos_bound; lia).
  destruct (Z.ltb_spec (z mod 4294967296) 2147483648) as [Hlt|Hge].
  - destruct (Z_lt_le_dec z 0) as [Hneg|Hpos].
    + rewrite <- (Z.mod_add z 1 4294967296) in Hlt by lia.
      rewrite Z.mod_small in Hlt by lia. lia.
    + apply Z.mod_small. lia.
  - destruct (Z_lt_le_dec z 0) as [Hneg|Hpos].
    + rewrite <- (Z.mod_add z 1 4294967296) by lia.
      rewrite Z.mod_small by lia. lia.
    + rewrite Z.mod_small in Hge by lia. lia.
Qed.

Lemma get_fixed_app {A} n (decode : list byte -> A) b rest :
  length b = n -> get_fixed n decode (b ++ rest) = (Ok (decode b), rest).
Proof.
  intros <-. unfold get_fixed.
  rewrite take_app_length, drop_app_length, Nat.eqb_refl. reflexivity.
Qed.

Lemma get_int_le_bytes z rest :
  -2147483648 <= z < 2147483648 ->
  get_int (le_bytes 4 (z mod 4294967296) ++ rest) = (Ok z, rest).
Proof.
  intros Hz. unfold get_int. rewrite get_fixed_app by apply length_le_bytes.
  rewrite unpack_i_le_bytes by exact Hz. reflexivity.
Qed.

Lemma pack_H_spec z : 0 <= z < 65536 -> pack_H z = Ok (le_bytes 2 z).
Proof.
  intros Hz. unfold pack_H.
  destruct (Z.leb_spec 0 z); [|lia]. destruct (Z.ltb_spec z 65536); [|lia]. reflexivity.
Qed.

Lemma get_short_le_bytes z rest :
  0 <= z < 65536 -> get_short (le_bytes 2 z ++ rest) = (Ok z, rest).
Proof.
  intros Hz. unfold get_short. rewrite get_fixed_app by apply length_le_bytes.
  unfold unpack_H. rewrite le_decode_le_bytes by (change (256 ^ Z.of_nat 2) with 65536; lia).
  reflexivity.
Qed.

Lemma wire_string_cons c s :
  wire_string (String c s) <-> wire_char c = true /\ wire_string s.
Proof. unfold wire_string. cbn. rewrite andb_true_iff. reflexivity. Qed.

Lemma wire_string_ascii s :
  wire_string s -> forallb is_ascii (list_ascii_of_string s) = true.
Proof.
  induction s as [|c s IH]; [reflexivity|].
  rewrite wire_string_cons. intros [Hc Hs]. cbn.
  apply andb_true_iff in Hc as [Hc _]. rewrite Hc. cbn. apply IH, Hs.
Qed.

Lemma _encode_binary_string_wire s :
  wire_string s -> _encode_binary_string s = Ok (list_byte_of_string s ++ [x00]).
Proof.
  intros Hs. unfold _encode_binary_string, encode_ascii.
  rewrite (wire_string_ascii s Hs). reflexivity.
Qed.

Lemma byte_of_ascii_not_NUL c :
  Ascii.eqb c "000"%char = false -> Byte.eqb (byte_of_ascii c) x00 = false.
Proof.
  intros Hc. destruct (Byte.eqb (byte_of_ascii c) x00) eqn:E; [|reflexivity].
  apply Byte.byte_dec_bl in E.
  assert (Hz : c = "000"%char).
  { rewrite <- (ascii_of_byte_of_ascii c), E. reflexivity. }
  subst c. discriminate Hc.
Qed.

(** [get_str] reads back what [_encode_binary_string] wrote. *)
Lemma get_str_from_wire s : forall out rest,
  wire_string s ->
  get_str_from out (list_byte_of_string s ++ x00 :: rest)
  = (Ok (string_of_list_ascii (rev out ++ list_ascii_of_string s)), rest).
Proof.
  induction s as [|c s IH]; intros out rest Hs.
  - cbn. rewrite app_nil_r. reflexivity.
  - apply wire_string_cons in Hs as [Hc Hs].
    apply andb_true_iff in Hc as [Ha Hn]. apply negb_true_iff in Hn.
    change (list_byte_of_string (String c s))
      with (byte_of_ascii c :: list_byte_of_string s).
    cbn [app get_str_from].
    rewrite (byte_of_ascii_not_NUL c Hn), ascii_of_byte_of_ascii, Ha.
    rewrite IH by exact Hs. cbn [rev list_ascii_of_string].
    rewrite <- app_assoc. reflexivity.
Qed.

Lemma get_str_wire s rest :
  wire_string s -> get_str (list_byte_of_string s ++ x00 :: rest) = (Ok s, rest).
Proof.
  intros Hs. unfold get_str. rewrite get_str_from_wire by exact Hs.
  cbn [rev app]. rewrite string_of_list_ascii_of_string. reflexivity.
Qed.

(** ** Strings inside arrays (C3) *)

Lemma emit_emit w a b : emit (emit w a) b = emit w (a ++ b).
Proof. unfold emit. cbn. rewrite app_assoc. reflexivity. Qed.

Lemma emit_nil w : emit w [] = w.
Proof. destruct w. unfold emit. cbn. rewrite app_nil_r. reflexivity. Qed.

Lemma write_inline_strings l : forall w,
  Forall wire_string l ->
  foldM (fun w s => _write_str w s true) l w = Ok (emit w (inline_strings l)).
Proof.
  induction l as [|s l IH]; intros w Hl.
  - cbn. rewrite emit_nil. reflexivity.
  - inversion Hl as [|? ? Hs Hl']; subst.
    cbn [foldM]. unfold _write_str at 1.
    rewrite (_encode_binary_string_wire s Hs). cbn [bind].
    rewrite IH by exact Hl'. rewrite emit_emit. reflexivity.
Qed.

Lemma od_set_od_set {V} (d : list (string * V)) k v1 v2 :
  od_set (od_set d k v1) k v2 = od_set d k v2.
Proof.
  induction d as [|[k' v'] d IH]; cbn.
  - rewrite String.eqb_refl. reflexivity.
  - destruct (String.eqb k' k) eqn:E; cbn.
    + rewrite String.eqb_refl. reflexivity.
    + rewrite E, IH. reflexivity.
Qed.

Lemma set_attr_set_attr k v1 v2 e :
  set_attr k v2 (set_attr k v1 e) = set_attr k v2 e.
Proof. unfold set_attr. cbn. rewrite od_set_od_set. reflexivity. Qed.

Lemma update_update h r f g :
  update (update h r f) r g = update h r (fun e => g (f e)).
Proof.
  unfold update at 1 3. rewrite deref_update.
  destruct (decide (r = r /\ (r < length h)%nat)) as [[_ Hlt]|Hn].
  - unfold update. rewrite list_insert_insert_eq. reflexivity.
  - assert (Hge : (length h <= r)%nat) by lia.
    unfold update. rewrite !list_insert_ge; try lia; [reflexivity|].
    rewrite list_insert_ge by lia. lia.
Qed.

Lemma with_attr_with_attr wd elem name v1 v2 :
  with_attr (with_attr wd elem name v1) elem name v2 = with_attr wd elem name v2.
Proof.
  unfold with_attr. cbn [w_heap w_dms]. rewrite update_update. f_equal.
  unfold update. f_equal. apply set_attr_set_attr.
Qed.

(** The item loop of the reader on inline strings: each is appended to
    the stored array. *)
Lemma read_items_inline_strings rt encoding_ver d elem name l :
  forall done rest wd,
    Forall wire_string l ->
    read_items rt encoding_ver d (length l) elem name T_str (VStrArray done)
      (mkLstate (inline_strings l ++ rest) (with_attr wd elem name (VStrArray done)))
    = (Ok tt, mkLstate rest (with_attr wd elem name (VStrArray (done ++ l)))).
Proof.
  induction l as [|s l IH]; intros done rest wd Hl.
  - cbn. rewrite app_nil_r. reflexivity.
  - inversion Hl as [|? ? Hs Hl']; subst.
    cbn [length read_items]. unfold lbind at 1.
    unfold get_value. rewrite orb_true_r. unfold lmap, lbind at 1, lift, lret.
    cbn [l_in l_world inline_strings map concat].
    rewrite <- !app_assoc. cbn [app]. rewrite get_str_wire by exact Hs.
    unfold lbind at 1, lift_result. cbn [array_append].
    unfold lbind at 1, l_store. cbn [l_in l_world].
    fold (with_attr (with_attr wd elem name (VStrArray done)) elem name
            (VStrArray (done ++ [s]))).
    rewrite with_attr_with_attr.
    fold (inline_strings l). rewrite IH by exact Hl'.
    rewrite <- app_assoc. reflexivity.
Qed.



(** ** The string dictionary (C2) *)

Lemma pack_sized_fits size n :
  fits size n -> pack_sized size n = Ok (sized_bytes size n).
Proof.
  unfold fits, pack_sized, sized_bytes. destruct (size =? shortsize); intros Hn.
  - apply pack_H_spec. exact Hn.
  - rewrite pack_i_spec by lia. rewrite Z.mod_small by lia. reflexivity.
Qed.

Lemma get_sized_fits size n rest :
  fits size n ->
  (if size =? shortsize then get_short else get_int) (sized_bytes size n ++ rest)
  = (Ok n, rest).
Proof.
  unfold fits, sized_bytes. destruct (size =? shortsize); intros Hn.
  - apply get_short_le_bytes. exact Hn.
  - rewrite <- (Z.mod_small n 4294967296) at 1 by lia.
    apply get_int_le_bytes. lia.
Qed.

Lemma index_of_In s l :
  In s l -> exists i, index_of String.eqb s l = Some i /\ l !! i = Some s.
Proof.
  induction l as [|y l IH]; intros Hin; [destruct Hin|].
  cbn [index_of]. destruct (String.eqb_spec y s) as [->|Hne].
  - exists 0%nat. split; reflexivity.
  - destruct Hin as [->|Hin]; [congruence|].
    destruct (IH Hin) as (i & Hi & Hl). exists (S i). rewrite Hi. split; [reflexivity | exact Hl].
Qed.

Lemma write_table_entries l :
  Forall wire_string l ->
  mapM _encode_binary_string l = Ok (map (fun s => list_byte_of_string s ++ [x00]) l).
Proof.
  induction 1 as [|s l Hs _ IH]; [reflexivity|].
  cbn [mapM map]. rewrite (_encode_binary_string_wire s Hs). cbn [bind].
  rewrite IH. reflexivity.
Qed.

Lemma read_table_entries l rest :
  Forall wire_string l ->
  rrepeat (length l) get_str (inline_strings l ++ rest) = (Ok l, rest).
Proof.
  induction 1 as [|s l Hs _ IH]; [reflexivity|].
  cbn [length rrepeat]. unfold rbind at 1.
  cbn [inline_strings map concat]. rewrite <- !app_assoc. cbn [app].
  rewrite get_str_wire by exact Hs. unfold rbind at 1.
  fold (inline_strings l). rewrite IH. reflexivity.
Qed.

(** The sizes [_StringDictionary.__init__] picks for binary 2 to 5. *)
Lemma dict_init_binary ver :
  In ver [2; 3; 4; 5] ->
  exists isz lsz, dict_init "binary" ver = Ok (mkDict false isz lsz []).
Proof.
  cbn [In]. intros [<-|[<-|[<-|[<-|[]]]]]; eexists; eexists; reflexivity.
Qed.

Lemma dict_of_datamodel_shape order h dm ver d :
  In ver [2; 3; 4; 5] ->
  dict_of_datamodel order h dm "binary" ver = Ok d ->
  exists isz lsz s,
    dict_init "binary" ver = Ok (mkDict false isz lsz []) /\
    process_element (S (length h)) h (dm_root dm) ([], []) = Ok s /\
    d = mkDict false isz lsz (order (snd s)).
Proof.
  intros Hv H. destruct (dict_init_binary ver Hv) as (isz & lsz & Hi).
  unfold dict_of_datamodel in H. rewrite Hi in H. cbn [bind dummy] in H.
  destruct (process_element _ _ _ _) as [s|e] eqn:Hp; [|discriminate H].
  cbn in H. inversion H. exists isz, lsz, s.
  split; [exact Hi|]. split; reflexivity.
Qed.

Lemma first_seen_ok : set_order_ok first_seen.
Proof.
  intros l. unfold first_seen. split.
  - apply NoDup_ListNoDup, List.NoDup_rev, List.NoDup_nodup.
  - intros x. rewrite <- List.in_rev, List.nodup_In, <- List.in_rev. reflexivity.
Qed.

Lemma write_dictionary_table d :
  dummy d = false ->
  Forall wire_string (entries d) ->
  fits (length_size d) (Z.of_nat (length (entries d))) ->
  write_dictionary d = Ok (table_bytes d).
Proof.
  intros Hd Hw Hf. unfold write_dictionary, table_bytes. rewrite Hd.
  rewrite pack_sized_fits by exact Hf. cbn [bind].
  rewrite write_table_entries by exact Hw. reflexivity.
Qed.

Lemma write_string_index d s :
  dummy d = false ->
  fits (indice_size d) (Z.of_nat (length (entries d))) ->
  In s (entries d) ->
  exists i, entries d !! i = Some s /\
            write_string d s = Ok (sized_bytes (indice_size d) (Z.of_nat i)) /\
            forall rest, read_string d (sized_bytes (indice_size d) (Z.of_nat i) ++ rest)
                         = (Ok s, rest).
Proof.
  intros Hd Hf Hin. destruct (index_of_In s (entries d) Hin) as (i & Hi & Hl).
  exists i. split; [exact Hl|].
  assert (Hlt : (i < length (entries d))%nat) by (eapply lookup_lt_Some; exact Hl).
  assert (Hfi : fits (indice_size d) (Z.of_nat i)) by (unfold fits in *; lia).
  split.
  - unfold write_string. rewrite Hd, Hi. apply pack_sized_fits, Hfi.
  - intros rest. unfold read_string, rbind. rewrite Hd.
    rewrite get_sized_fits by exact Hfi. unfold py_index.
    assert (E : (Z.of_nat i <? 0) = false) by (apply Z.ltb_ge; lia).
    rewrite E. cbv zeta. rewrite E, Nat2Z.id, Hl. reflexivity.
Qed.

Lemma _write_str_dict w d s :
  _string_dict w = Some d ->
  _write_str w s false = (b <- write_string d s ;; Ok (emit w b)).
Proof. intros Hd. unfold _write_str. rewrite Hd. reflexivity. Qed.

(** The header of an element: the type always through the dictionary,
    the name through it from version 4 on. *)
Lemma _write_element_header_dict w d e :
  _string_dict w = Some d ->
  _write_element_header w e
  = (t <- write_string d (e_type e) ;;
     n <- (if encoding_ver w <? 4 then _encode_binary_string (e_name e)
           else write_string d (e_name e)) ;;
     Ok (emit w (t ++ n ++ uuid_bytes (e_id e)))).
Proof.
  intros Hd. unfold _write_element_header. rewrite (_write_str_dict w d _ Hd).
  destruct (write_string d (e_type e)) as [t|err]; [|reflexivity]. cbn [bind].
  change (encoding_ver (emit w t)) with (encoding_ver w).
  unfold _write_str. change (_string_dict (emit w t)) with (_string_dict w). rewrite Hd.
  destruct (encoding_ver w <? 4).
  - destruct (_encode_binary_string (e_name e)) as [n|err]; [|reflexivity]. cbn [bind].
    rewrite !emit_emit, <- ?app_assoc. reflexivity.
  - destruct (write_string d (e_name e)) as [n|err]; [|reflexivity]. cbn [bind].
    rewrite !emit_emit, <- ?app_assoc. reflexivity.
Qed.

(** A string attribute: the key always through the dictionary, the
    value through it from version 4 on; 5 is the type id of [str]. *)
Lemma _write_prop_str_dict rt h w d name s :
  _string_dict w = Some d ->
  encoding w = "binary"%string ->
  In (encoding_ver w) [2; 3; 4; 5] ->
  _write_prop rt h w (name, VStr s)
  = (k <- write_string d name ;;
     v <- (if encoding_ver w <? 4 then _encode_binary_string s else write_string d s) ;;
     Ok (emit w (k ++ [x05] ++ v))).
Proof.
  intros Hd He Hv. unfold _write_prop. rewrite (_write_str_dict w d _ Hd).
  destruct (write_string d name) as [k|err]; [|reflexivity].
  cbn [bind type_of].
  change (encoding (emit w k)) with (encoding w).
  change (encoding_ver (emit w k)) with (encoding_ver w). rewrite He.
  assert (Hid : _get_dmx_type_id "binary" (encoding_ver w) T_str = Ok (Some 5)).
  { cbn [In] in Hv. destruct Hv as [<-|[<-|[<-|[<-|[]]]]]; reflexivity. }
  rewrite Hid. cbn [bind]. change (pack_b 5) with (@Ok (list byte) [x05]). cbn [bind].
  unfold _write, _write_str.
  change (_string_dict (emit (emit w k) [x05])) with (_string_dict w). rewrite Hd.
  change (encoding_ver (emit (emit w k) [x05])) with (encoding_ver w).
  destruct (encoding_ver w <? 4).
  - destruct (_encode_binary_string s) as [v|err]; [|reflexivity]. cbn [bind].
    rewrite !emit_emit, <- ?app_assoc. reflexivity.
  - destruct (write_string d s) as [v|err]; [|reflexivity]. cbn [bind].
    rewrite !emit_emit, <- ?app_assoc. reflexivity.
Qed.

(** ** The counting pass (C5) *)

Lemma bind_ret_r {A} (m : result A) : Py.bind m Ok = m.
Proof. destruct m; reflexivity. Qed.

Lemma foldM_app {A S} (f : S -> A -> result S) l1 l2 s :
  foldM f (l1 ++ l2) s = Py.bind (foldM f l1 s) (foldM f l2).
Proof.
  revert s. induction l1 as [|x l1 IH]; intros s; [reflexivity|].
  cbn [app foldM]. destruct (f s x) as [s'|e]; [|reflexivity]. cbn [Py.bind]. apply IH.
Qed.

(** The loop over the attributes is a loop over their element slots. *)
Lemma count_attrs_flat visit attrs : forall s,
  foldM (count_attr visit) attrs s
  = foldM (fun s i => count_slot visit i s) (slots attrs) s.
Proof.
  induction attrs as [|kv attrs IH]; intros s; [reflexivity|].
  unfold slots. cbn [map concat foldM]. rewrite foldM_app. fold (slots attrs).
  assert (Hkv : count_attr visit s kv
                = foldM (fun s i => count_slot visit i s) (value_slots (snd kv)) s).
  { unfold count_attr. destruct (snd kv); try reflexivity.
    cbn [value_slots foldM]. rewrite bind_ret_r. reflexivity. }
  rewrite Hkv. destruct (foldM _ (value_slots (snd kv)) s) as [s'|e]; [|reflexivity].
  cbn [Py.bind]. apply IH.
Qed.

Lemma same_graph_refl h : same_graph h h.
Proof. split; [reflexivity|]. intros r. repeat split. Qed.

Lemma same_graph_trans h1 h2 h3 : same_graph h1 h2 -> same_graph h2 h3 -> same_graph h1 h3.
Proof.
  intros [Hl1 H1] [Hl2 H2]. split; [congruence|]. intros r.
  destruct (H1 r) as (?&?&?&?&?), (H2 r) as (?&?&?&?&?). repeat split; congruence.
Qed.

Lemma same_graph_set_users h r f :
  same_graph h (update h r (fun e => set_users (f e) e)).
Proof.
  split; [apply length_update|]. intros x. rewrite deref_update.
  destruct (decide _) as [[-> _]|_]; repeat split.
Qed.

Lemma same_graph_incr h r : same_graph h (incr_users h r).
Proof. apply (same_graph_set_users h r (fun e => S (e_users e))). Qed.

Lemma same_graph_reset h elements : same_graph h (reset_users h elements).
Proof.
  unfold reset_users. revert h. induction elements as [|r l IH]; intros h.
  - apply same_graph_refl.
  - cbn [fold_left]. eapply same_graph_trans; [|apply IH].
    apply (same_graph_set_users h r (fun _ => 0%nat)).
Qed.

Lemma users_incr h r x :
  (r < length h)%nat ->
  e_users (deref (incr_users h r) x)
  = (e_users (deref h x) + (if Nat.eqb r x then 1 else 0))%nat.
Proof.
  intros Hr. unfold incr_users. rewrite deref_update.
  destruct (decide (r = x /\ (r < length h)%nat)) as [[-> _]|Hn].
  - rewrite Nat.eqb_refl. cbn. lia.
  - destruct (Nat.eqb_spec r x) as [->|_]; [exfalso; apply Hn; split; [reflexivity|exact Hr]|].
    lia.
Qed.

Lemma users_reset h elements x :
  (x < length h)%nat -> In x elements -> e_users (deref (reset_users h elements) x) = 0%nat.
Proof.
  unfold reset_users. revert h. induction elements as [|r l IH]; intros h Hx Hin; [destruct Hin|].
  cbn [fold_left]. destruct (in_dec Nat.eq_dec x l) as [Hl|Hl].
  - apply IH; [rewrite length_update; exact Hx | exact Hl].
  - destruct Hin as [->|Hin]; [|contradiction].
    assert (Hkeep : forall l' h', ~ In x l' ->
              e_users (deref (fold_left (fun h r => update h r (set_users 0)) l' h') x)
              = e_users (deref h' x)).
    { induction l' as [|r' l' IH']; intros h' Hn; [reflexivity|].
      cbn [fold_left]. rewrite IH' by (intros H; apply Hn; right; exact H).
      rewrite deref_update. destruct (decide _) as [[-> _]|_]; [|reflexivity].
      exfalso. apply Hn. left. reflexivity. }
    rewrite Hkeep by exact Hl. rewrite deref_update.
    destruct (decide _) as [_|Hn]; [reflexivity|]. exfalso. apply Hn. split; [reflexivity|exact Hx].
Qed.

Lemma existsb_eqb_In c l : existsb (Nat.eqb c) l = true <-> In c l.
Proof.
  rewrite existsb_exists. split.
  - intros (x & Hx & He). apply Nat.eqb_eq in He. subst. exact Hx.
  - intros H. exists c. split; [exact H | apply Nat.eqb_refl].
Qed.

(** On a well-formed graph [x in l] is membership by identity. *)
Lemma elem_in_iff h0 root hp c l :
  well_formed h0 root -> same_graph h0 hp ->
  reachable h0 root c -> (forall x, In x l -> reachable h0 root x) ->
  elem_in hp c l = true <-> In c l.
Proof.
  intros Hwf [_ Hsg] Hc Hl. unfold elem_in. rewrite existsb_exists. split.
  - intros (x & Hx & He). apply orb_true_iff in He as [He|He].
    + apply Nat.eqb_eq in He. subst. exact Hx.
    + unfold Element_eq in He. apply andb_true_iff in He as [_ He].
      apply N.eqb_eq in He.
      destruct (Hsg c) as (_&_&Hic&_), (Hsg x) as (_&_&Hix&_).
      rewrite Hic, Hix in He.
      rewrite (wf_ids h0 root Hwf c x Hc (Hl x Hx) He). exact Hx.
  - intros H. exists c. split; [exact H|]. rewrite Nat.eqb_refl. reflexivity.
Qed.

(** A duplicate-free list of references below [n] that misses one of
    them is shorter than [n]. *)
Lemma NoDup_room (l : list nat) n c :
  NoDup l -> (forall x, In x l -> (x < n)%nat) -> (c < n)%nat -> ~ In c l ->
  (length l < n)%nat.
Proof.
  intros Hnd Hb Hc Hn.
  assert (Hsub : (c :: l) ⊆+ seq 0 n).
  { apply NoDup_submseteq.
    - apply NoDup_cons. split; [rewrite list_elem_of_In; exact Hn | exact Hnd].
    - intros x Hx. apply elem_of_seq. apply list_elem_of_In in Hx.
      destruct Hx as [<-|Hx]; [lia | specialize (Hb x Hx); lia]. }
  apply submseteq_length in Hsub. rewrite length_seq in Hsub. cbn in Hsub. lia.
Qed.

Lemma slot_count_app h l1 l2 e :
  slot_count h (l1 ++ l2) e = (slot_count h l1 e + slot_count h l2 e)%nat.
Proof. induction l1 as [|x l1 IH]; cbn; [reflexivity|]. rewrite IH. lia. Qed.

Lemma count_slots_cons x s l :
  count_slots x (s :: l) = ((if holds x s then 1 else 0) + count_slots x l)%nat.
Proof. unfold count_slots. cbn [List.filter]. destruct (holds x s); reflexivity. Qed.

Lemma dfs_unfold fuel h e seen :
  dfs (S fuel) h e seen = fold_left (dfs_step fuel h) (element_slots h e) (seen ++ [e]).
Proof. reflexivity. Qed.

Section Counting.

Variable h0 : heap.
Variable root : ref.
Hypothesis Hwf : well_formed h0 root.

Lemma counting_valid s x : counting h0 root s -> In x (snd s) -> (x < length h0)%nat.
Proof. intros (_ & _ & Hr) Hx. apply (wf_valid h0 root Hwf), Hr, Hx. Qed.

(** The loop over the slots of an element, given the visits it makes. *)
Lemma count_slots_loop fuel :
  visit_spec h0 root fuel ->
  forall L s,
    counting h0 root s ->
    (forall c, In (Some c) L -> reachable h0 root c) ->
    ~ In None L ->
    (length h0 <= fuel + length (snd s))%nat ->
    exists hp' new,
      foldM (fun s i => count_slot (_count_child_elems fuel) i s) L s
        = Ok (hp', snd s ++ new) /\
      counting h0 root (hp', snd s ++ new) /\
      (forall x, e_users (deref hp' x)
                 = (e_users (deref (fst s) x) + slot_count h0 new x + count_slots x L)%nat) /\
      (forall y c, In y new -> child h0 y c -> In c (snd s ++ new)) /\
      (forall c, In (Some c) L -> In c (snd s ++ new)) /\
      snd s ++ new = fold_left (dfs_step fuel h0) L (snd s).
Proof.
  intros Hvisit. induction L as [|[c|] L IH]; intros [hp out] Hs HL Hnone Hfuel;
    cbn [fst snd] in *.
  - exists hp, []. rewrite app_nil_r. split; [reflexivity|]. split; [exact Hs|].
    split; [intros x; unfold count_slots; cbn; lia|].
    split; [intros y c []|]. split; [intros c []|reflexivity].
  - assert (Hc : reachable h0 root c) by (apply HL; left; reflexivity).
    assert (Hcv : (c < length h0)%nat) by (apply (wf_valid h0 root Hwf), Hc).
    assert (HL' : forall c', In (Some c') L -> reachable h0 root c')
      by (intros c' H; apply HL; right; exact H).
    assert (Hnone' : ~ In None L) by (intros H; apply Hnone; right; exact H).
    destruct Hs as (Hg & Hnd & Hr).
    cbn [foldM fold_left]. unfold count_slot at 1. cbn [fst snd]. unfold dfs_step at 2.
    pose proof (elem_in_iff h0 root hp c out Hwf Hg Hc Hr) as Hin.
    destruct (elem_in hp c out) eqn:Ein.
    + assert (Hcin : In c out) by (apply Hin; reflexivity).
      rewrite (proj2 (existsb_eqb_In c out) Hcin). cbn [Py.bind fst snd].
      destruct (IH (incr_users hp c, out)) as (hp' & new & Hrun & Hs' & Hu & Hcl & Hall & Hdfs);
        cbn [fst snd]; try assumption.
      { split; [|split; assumption].
        eapply same_graph_trans; [exact Hg | apply same_graph_incr]. }
      cbn [fst snd] in *. exists hp', new. rewrite Hrun. split; [reflexivity|]. split; [exact Hs'|].
      split; [|split; [exact Hcl|split; [|exact Hdfs]]].
      * intros x. rewrite Hu, users_incr by (destruct Hg as [-> _]; exact Hcv).
        rewrite count_slots_cons. cbn [holds]. lia.
      * intros c' [Hc'|Hc']; [inversion Hc'; subst; apply in_or_app; left; exact Hcin|].
        apply Hall, Hc'.
    + assert (Hcout : ~ In c out) by (intros H; apply Hin in H; congruence).
      destruct (existsb (Nat.eqb c) out) eqn:Eex;
        [apply existsb_eqb_In in Eex; contradiction|].
      destruct (Hvisit c (hp, out)) as (hp1 & new1 & Hrun1 & Hs1 & Hu1 & Hcl1 & Hc1 & Hdfs1);
        cbn [fst snd]; try assumption.
      { split; [|split]; assumption. }
      cbn [fst snd] in *. rewrite Hrun1. cbn [Py.bind fst snd].
      destruct (IH (incr_users hp1 c, out ++ new1))
        as (hp' & new2 & Hrun2 & Hs2 & Hu2 & Hcl2 & Hall2 & Hdfs2);
        cbn [fst snd]; try assumption.
      { destruct Hs1 as (Hg1 & Hnd1 & Hr1). split; [|split; assumption].
        eapply same_graph_trans; [exact Hg1 | apply same_graph_incr]. }
      { rewrite length_app. lia. }
      cbn [fst snd] in *. exists hp', (new1 ++ new2). rewrite app_assoc.
      rewrite Hrun2. split; [reflexivity|]. split; [exact Hs2|].
      split; [|split; [|split]].
      * intros x. rewrite Hu2, users_incr, Hu1, slot_count_app, count_slots_cons.
        -- cbn [holds]. lia.
        -- destruct Hs1 as ((Hl1 & _) & _). cbn [fst] in Hl1. rewrite Hl1. exact Hcv.
      * intros y c' Hy Hch. apply in_app_or in Hy as [Hy|Hy].
        -- apply in_or_app. left. eapply Hcl1; eassumption.
        -- eapply Hcl2; eassumption.
      * intros c' [Hc'|Hc'].
        -- inversion Hc'; subst. apply in_or_app. left. apply in_or_app. right. exact Hc1.
        -- apply Hall2, Hc'.
      * rewrite Hdfs2, Hdfs1. reflexivity.
  - exfalso. apply Hnone. left. reflexivity.
Qed.

(** Every visit meets its specification: the fuel lasts because each
    visit lists one more of the [length h0] elements. *)
Lemma count_visit fuel : visit_spec h0 root fuel.
Proof.
  induction fuel as [|fuel IH]; intros e [hp out] Hs He Hout Hfuel; cbn [fst snd] in *.
  - exfalso.
    assert ((length out < length h0)%nat); [|lia].
    destruct Hs as (_ & Hnd & Hr).
    apply (NoDup_room out (length h0) e); try assumption.
    + intros x Hx. apply (wf_valid h0 root Hwf), Hr, Hx.
    + apply (wf_valid h0 root Hwf), He.
  - cbn [_count_child_elems fst snd]. rewrite count_attrs_flat. cbn [fst snd].
    destruct Hs as (Hg & Hnd & Hr).
    assert (Hattrs : e_attrs (deref hp e) = e_attrs (deref h0 e))
      by (destruct Hg as [_ Hg]; apply Hg).
    rewrite Hattrs. fold (slots (e_attrs (deref h0 e))). fold (element_slots h0 e).
    destruct (count_slots_loop fuel IH (element_slots h0 e) (hp, out ++ [e]))
      as (hp' & new & Hrun & Hs' & Hu & Hcl & Hall & Hdfs); cbn [fst snd].
    + split; [exact Hg|]. split.
      * apply NoDup_app. split; [exact Hnd|]. split; [|apply NoDup_singleton].
        intros x Hx Hxe. apply list_elem_of_In in Hx.
        apply list_elem_of_singleton in Hxe. subst. contradiction.
      * intros x Hx. apply in_app_or in Hx as [Hx|[<-|[]]]; [apply Hr, Hx | exact He].
    + intros c Hc. eapply reach_step; [exact He | exact Hc].
    + apply (wf_no_null h0 root Hwf), He.
    + rewrite length_app. cbn [length]. lia.
    + cbn [fst snd] in *. exists hp', (e :: new).
      replace (out ++ e :: new) with ((out ++ [e]) ++ new)
        by (rewrite <- app_assoc; reflexivity).
      split; [exact Hrun|]. split; [exact Hs'|].
      split; [|split; [|split; [left; reflexivity|]]].
      * intros x. rewrite Hu. cbn [slot_count]. lia.
      * intros y c [<-|Hy] Hch; [apply Hall, Hch | eapply Hcl; eassumption].
      * rewrite Hdfs, dfs_unfold. reflexivity.
Qed.

End Counting.

Lemma reachable_closed h root (out : list ref) :
  In root out ->
  (forall y c, In y out -> child h y c -> In c out) ->
  forall x, reachable h root x -> In x out.
Proof.
  intros Hroot Hcl x Hx. induction Hx as [|x y _ IH Hch]; [exact Hroot|].
  eapply Hcl; eassumption.
Qed.

Lemma users_reset_all h elements x :
  In x elements -> e_users (deref (reset_users h elements) x) = 0%nat.
Proof.
  intros Hin. destruct (Nat.lt_ge_cases x (length h)) as [Hlt|Hge].
  - apply users_reset; assumption.
  - rewrite deref_lookup, lookup_ge_None_2; [reflexivity|].
    destruct (same_graph_reset h elements) as [-> _]. exact Hge.
Qed.

(** The counting pass from the root of a well-formed graph. *)
Lemma count_pass_discovers h dm root :
  dm_root dm = Some root ->
  well_formed h root ->
  exists h' out,
    count_pass h dm = Ok (h', out) /\
    same_graph h h' /\
    out = discovery_order h root /\
    NoDup out /\
    (forall x, In x out <-> reachable h root x) /\
    (forall e, In e (dm_elements dm) -> e_users (deref h' e) = slot_count h out e).
Proof.
  intros Hroot Hwf. unfold count_pass. rewrite Hroot.
  destruct (count_visit h root Hwf (S (length h)) root
              (reset_users h (dm_elements dm), []))
    as (hp' & new & Hrun & (Hg & Hnd & Hr) & Hu & Hcl & Hin & Hdfs); cbn [fst snd] in *.
  - split; [apply same_graph_reset|]. split; [apply NoDup_nil_2 | intros x []].
  - apply reach_root.
  - intros [].
  - lia.
  - exists hp', new. split; [exact Hrun|]. split; [exact Hg|].
    split; [exact Hdfs|]. split; [exact Hnd|]. split.
    + intros x. split; [apply Hr|]. apply reachable_closed; assumption.
    + intros e He. rewrite Hu, users_reset_all by exact He. reflexivity.
Qed.


Lemma shared_heap_reach r : reachable shared_heap 0%nat r -> (r < 5)%nat.
Proof.
  induction 1 as [|x y _ IH Hch]; [lia|].
  unfold child in Hch.
  do 5 (destruct x as [|x]; [cbn in Hch; intuition (try discriminate);
                             match goal with H : Some _ = Some _ |- _ =>
                               inversion H; subst; lia end|]).
  lia.
Qed.

Lemma shared_heap_well_formed : well_formed shared_heap 0%nat.
Proof.
  split.
  - intros r Hr. apply shared_heap_reach in Hr. cbn. exact Hr.
  - intros r Hr Hn. apply shared_heap_reach in Hr.
    do 5 (destruct r as [|r]; [cbn in Hn; intuition discriminate|]). lia.
  - intros r1 r2 H1 H2 Hid. apply shared_heap_reach in H1, H2.
    do 5 (destruct r1 as [|r1];
          [do 5 (destruct r2 as [|r2]; [first [reflexivity | discriminate Hid]|]); lia|]).
    lia.
Qed.


(** ** The KeyValues2 layout (C4) *)

Lemma count_slots_pos y l : In (Some y) l -> (1 <= count_slots y l)%nat.
Proof.
  induction l as [|s l IH]; intros Hin; [destruct Hin|].
  rewrite count_slots_cons. destruct Hin as [->|Hin].
  - cbn [holds]. rewrite Nat.eqb_refl. lia.
  - specialize (IH Hin). lia.
Qed.

Lemma slot_count_member h out x y :
  In x out -> (count_slots y (element_slots h x) <= slot_count h out y)%nat.
Proof.
  induction out as [|z out IH]; intros Hin; [destruct Hin|].
  cbn [slot_count]. destruct Hin as [->|Hin]; [lia|]. specialize (IH Hin). lia.
Qed.

(** An element held by slots of two listed elements has at least two
    users. *)
Lemma slot_count_two h out a b y :
  In a out -> In b out -> a <> b -> child h a y -> child h b y ->
  (2 <= slot_count h out y)%nat.
Proof.
  intros Ha Hb Hab Hca Hcb.
  apply in_split in Ha as (l1 & l2 & ->).
  rewrite slot_count_app. cbn [slot_count].
  pose proof (count_slots_pos y _ Hca) as H1.
  pose proof (count_slots_pos y _ Hcb) as H2.
  apply in_app_or in Hb as [Hb|[Hb|Hb]]; [|congruence|].
  - pose proof (slot_count_member h l1 b y Hb). lia.
  - pose proof (slot_count_member h l2 b y Hb). lia.
Qed.

Lemma slot_count_none h out y :
  (forall x, In x out -> ~ child h x y) -> slot_count h out y = 0%nat.
Proof.
  induction out as [|x out IH]; intros Hn; [reflexivity|].
  cbn [slot_count]. rewrite IH by (intros z Hz; apply Hn; right; exact Hz).
  assert (Hx : ~ In (Some y) (element_slots h x)) by (apply Hn; left; reflexivity).
  unfold count_slots.
  destruct (List.filter (holds y) (element_slots h x)) as [|s l] eqn:E; [reflexivity|].
  exfalso. apply Hx.
  assert (Hs : In s (List.filter (holds y) (element_slots h x))) by (rewrite E; left; reflexivity).
  apply List.filter_In in Hs as [Hs Hh]. destruct s as [r|]; [|discriminate Hh].
  apply Nat.eqb_eq in Hh. subst. exact Hs.
Qed.

Lemma NoDup_bounded (l : list nat) n :
  NoDup l -> (forall x, In x l -> (x < n)%nat) -> (length l <= n)%nat.
Proof.
  intros Hnd Hb.
  assert (Hsub : l ⊆+ seq 0 n).
  { apply NoDup_submseteq; [exact Hnd|].
    intros x Hx. apply elem_of_seq. apply list_elem_of_In in Hx. specialize (Hb x Hx). lia. }
  apply submseteq_length in Hsub. rewrite length_seq in Hsub. exact Hsub.
Qed.

Lemma mapM_Forall2 {A B} (f : A -> result B) (R : A -> B -> Prop) l :
  (forall a, In a l -> exists b, f a = Ok b /\ R a b) ->
  exists bs, mapM f l = Ok bs /\ Forall2 R l bs.
Proof.
  induction l as [|a l IH]; intros H.
  - exists []. split; [reflexivity | constructor].
  - destruct (H a (or_introl eq_refl)) as (b & Hb & Rb).
    destruct IH as (bs & Hbs & Rbs); [intros x Hx; apply H; right; exact Hx|].
    exists (b :: bs). cbn [mapM]. rewrite Hb. cbn [Py.bind]. rewrite Hbs. cbn [Py.bind].
    split; [reflexivity | constructor; assumption].
Qed.

Lemma slots_element attrs name y :
  In (name, VElement y) attrs -> In (Some y) (slots attrs).
Proof.
  intros Hin. unfold slots. apply in_concat. exists [Some y]. split; [|left; reflexivity].
  apply in_map_iff. exists (name, VElement y). split; [reflexivity | exact Hin].
Qed.

Lemma slots_array attrs name l s :
  In (name, VElementArray l) attrs -> In s l -> In s (slots attrs).
Proof.
  intros Hin Hs. unfold slots. apply in_concat. exists l. split; [|exact Hs].
  apply in_map_iff. exists (name, VElementArray l). split; [reflexivity | exact Hin].
Qed.

(** An attribute without element slots is rendered without the element
    text: one line, whatever [body] is, unless it is a [_MatrixArray]. *)
Lemma attr_kv2_plain fmt repr body h indent name v :
  value_slots v = [] -> v <> VMatrixArray ->
  exists text, attr_kv2 fmt repr body h indent (name, v) = Ok text /\
               attr_kv2 fmt repr (fun _ _ => Raise OutOfFuel) h indent (name, v) = Ok text.
Proof.
  intros Hs Hm.
  destruct v as [ |r|z|f|b|s|b|t|k v|m|l|l|l|l|l|l|l|k l| ];
    try discriminate Hs; try congruence;
    try (eexists; split; reflexivity);
    try (destruct k; eexists; split; reflexivity).
  cbn in Hs. subst l. eexists; split; reflexivity.
Qed.

Section Rendering.

Variable fmt : float -> string.
Variable repr : float -> string.
Variable h : heap.
Variable h' : heap.
Variable root : ref.
Variable out : list ref.
Hypothesis Hwf : well_formed h root.
Hypothesis Hsg : same_graph h h'.
Hypothesis Hout : forall x, In x out <-> reachable h root x.
Hypothesis Husers :
  forall x, reachable h root x -> e_users (deref h' x) = slot_count h out x.
Hypothesis Hmat : no_matrix_array h root.

Lemma attrs_counted x : e_attrs (deref h' x) = e_attrs (deref h x).
Proof. destruct Hsg as [_ H]. apply H. Qed.

(** A nested block never holds a block it is nested in: an element
    with at most one user that a slot of [x] holds is not on the way
    down to [x]. *)
Lemma ancestry_extend t p x y :
  ancestry h h' root t p x -> child h x y -> (e_users (deref h' y) <= 1)%nat ->
  ancestry h h' root t (p ++ [x]) y.
Proof.
  intros (Hnd' & Hr & Hpar & Ht) Hch Hu.
  assert (Hx : reachable h root x) by (apply Hr, in_or_app; right; left; reflexivity).
  assert (Hy : reachable h root y) by (eapply reach_step; eassumption).
  assert (Hfresh : ~ In y (p ++ [x])).
  { intros Hin. rewrite (Husers y Hy) in Hu.
    destruct (Hpar y Hin) as [->|(a & Ha & Hca)].
    - pose proof (slot_count_member h out x t (proj2 (Hout x) Hx)) as Hm.
      pose proof (count_slots_pos t _ Hch) as Hp.
      apply Ht. rewrite (Husers t Hy). clear - Hu Hm Hp. lia.
    - assert (Hax : a <> x).
      { intros ->. apply NoDup_app in Hnd' as (_ & Hd & _).
        apply (Hd x); [apply list_elem_of_In; exact Ha | apply list_elem_of_singleton; reflexivity]. }
      assert (Har : reachable h root a) by (apply Hr, in_or_app; left; exact Ha).
      pose proof (slot_count_two h out a x y (proj2 (Hout a) Har) (proj2 (Hout x) Hx)
                    Hax Hca Hch) as H2.
      clear - Hu H2. lia. }
  split; [|split; [|split; [|exact Ht]]].
  - apply NoDup_app. split; [exact Hnd'|]. split; [|apply NoDup_singleton].
    intros z Hz Hzy. apply list_elem_of_singleton in Hzy. subst z.
    apply Hfresh. apply list_elem_of_In. exact Hz.
  - intros z Hz. apply in_app_or in Hz as [Hz|[<-|[]]]; [apply Hr, Hz | exact Hy].
  - intros z Hz. apply in_app_or in Hz as [Hz|[<-|[]]].
    + destruct (Hpar z Hz) as [->|(a & Ha & Hca)]; [left; reflexivity|].
      right. exists a. split; [apply in_or_app; left; exact Ha | exact Hca].
    + right. exists x. split; [apply in_or_app; right; left; reflexivity | exact Hch].
Qed.

(** [get_kv2] ends on every block [echo] starts, and what it returns
    follows the layout rule. *)
Lemma get_kv2_renders fuel :
  forall t p x indent,
    ancestry h h' root t p x ->
    (length h + 1 <= fuel + length (p ++ [x]))%nat ->
    exists text, get_kv2 fmt repr fuel h' indent x = Ok text /\
                 renders fmt repr h' indent x text.
Proof.
  induction fuel as [|fuel IH]; intros t p x indent Hanc Hfuel.
  - exfalso. destruct Hanc as (Hnd' & Hr & _ & _).
    pose proof (NoDup_bounded (p ++ [x]) (length h) Hnd'
                  (fun y Hy => wf_valid h root Hwf y (Hr y Hy))).
    lia.
  - assert (Hx : reachable h root x).
    { destruct Hanc as (_ & Hr & _ & _). apply Hr, in_or_app. right. left. reflexivity. }
    assert (Hnest : forall y, child h x y -> (e_users (deref h' y) <= 1)%nat ->
              exists b, get_kv2 fmt repr fuel h' (S indent) y = Ok b /\
                        renders fmt repr h' (S indent) y b).
    { intros y Hch Hu. apply (IH t (p ++ [x]) y (S indent)).
      - apply ancestry_extend; assumption.
      - clear - Hfuel. rewrite !length_app in *. cbn [length] in *. lia. }
    assert (Hnest2 : forall y, child h x y -> (e_users (deref h' y) <= 1)%nat ->
              exists b, get_kv2 fmt repr fuel h' (S (S indent)) y = Ok b /\
                        renders fmt repr h' (S (S indent)) y b).
    { intros y Hch Hu. apply (IH t (p ++ [x]) y (S (S indent))).
      - apply ancestry_extend; assumption.
      - clear - Hfuel. rewrite !length_app in *. cbn [length] in *. lia. }
    destruct (mapM_Forall2
                (attr_kv2 fmt repr (get_kv2 fmt repr fuel h') h' (S indent))
                (renders_attr fmt repr h' (S indent))
                (e_attrs (deref h' x))) as (lines & Hlines & Hall).
    { intros [name v] Hin. rewrite attrs_counted in Hin.
      destruct v as [ |r|z|f|b|s|b|t0|k v|m|l|l|l|l|l|l|l|k l| ];
        try (match goal with
             | |- exists b, attr_kv2 _ _ _ _ _ (_, ?v) = _ /\ _ =>
                 destruct (attr_kv2_plain fmt repr (get_kv2 fmt repr fuel h') h' (S indent)
                             name v eq_refl ltac:(discriminate)) as (text & H1 & H2);
                 exists text; split; [exact H1|];
                 apply renders_plain; [reflexivity | discriminate | discriminate | exact H2]
             end).
      - eexists. split; [reflexivity | constructor].
      - assert (Hch : child h x r) by (eapply slots_element; exact Hin).
        cbn [attr_kv2]. destruct (Nat.ltb_spec (e_users (deref h' r)) 2) as [Hlt|Hge].
        + destruct (Hnest r Hch ltac:(lia)) as (b & Hb & Rb).
          rewrite Hb. cbn [Py.bind]. eexists. split; [reflexivity|].
          apply renders_nested; assumption.
        + eexists. split; [reflexivity|]. apply renders_reference. exact Hge.
      - destruct l as [|s0 l0]; [eexists; split; [reflexivity | constructor]|].
        destruct (mapM_Forall2
                    (array_entry (get_kv2 fmt repr fuel h') h' (S (S indent)))
                    (renders_entry fmt repr h' (S (S indent))) (s0 :: l0))
          as (items & Hitems & Hents).
        { intros s Hs.
          assert (Hslot : In s (element_slots h x)) by (eapply slots_array; eassumption).
          destruct s as [r|]; [|exfalso; exact (wf_no_null h root Hwf x Hx Hslot)].
          cbn [array_entry]. destruct (Nat.eqb_spec (e_users (deref h' r)) 1) as [Heq|Hne].
          - destruct (Hnest2 r Hslot ltac:(lia)) as (b & Hb & Rb).
            rewrite Hb. cbn [Py.bind]. eexists. split; [reflexivity|].
            apply renders_entry_nested; assumption.
          - eexists. split; [reflexivity|]. apply renders_entry_reference. exact Hne. }
        cbn [attr_kv2]. unfold ElementArray_to_kv2. rewrite Hitems. cbn [Py.bind].
        eexists. split; [reflexivity|].
        apply (renders_array fmt repr h' (S indent) name (s0 :: l0) items);
          [discriminate | exact Hents].
      - exfalso. exact (Hmat x name Hx Hin). }
    cbn [get_kv2]. rewrite Hlines. cbn [Py.bind].
    eexists. split; [reflexivity|]. apply renders_element. exact Hall.
Qed.

End Rendering.




(** ** What the dictionary traversal collects *)

Section DictCover.

Variable h : heap.
Variable root : ref.
Hypothesis Hwf : well_formed h root.

Lemma covered_mono (s s' : dstate) y :
  (forall x, In x (fst s) -> In x (fst s')) ->
  (forall t, In t (snd s) -> In t (snd s')) ->
  covered h s y -> covered h s' y.
Proof. intros H1 H2 [Hs Hc]. split; auto. Qed.

Lemma progress_refl (s : dstate) :
  (forall x, In x (fst s) -> reachable h root x) -> progress h root s s.
Proof. intros Hr. repeat split; auto. Qed.

Lemma progress_trans s1 s2 s3 :
  progress h root s1 s2 -> progress h root s2 s3 -> progress h root s1 s3.
Proof.
  intros (_ & Hx1 & Ht1 & Hc1) (Hr2 & Hx2 & Ht2 & Hc2).
  split; [exact Hr2|]. split; [auto|]. split; [auto|].
  intros y Hy. destruct (Hc2 y Hy) as [Hy2|Hcov]; [|right; exact Hcov].
  destruct (Hc1 y Hy2) as [Hy1|Hcov]; [left; exact Hy1|].
  right. eapply covered_mono; eassumption.
Qed.

Lemma progress_strings (s : dstate) l :
  (forall x, In x (fst s) -> reachable h root x) ->
  progress h root s (fst s, snd s ++ l).
Proof.
  intros Hr. split; [exact Hr|]. split; [auto|].
  split; [intros t Ht; apply in_or_app; left; exact Ht | intros y Hy; left; exact Hy].
Qed.

Lemma process_element_None fuel s :
  process_element fuel h None s
  = Raise (Exception "AttributeError: NoneType has no attribute name").
Proof. destruct fuel; reflexivity. Qed.

Lemma process_slot_ok fuel :
  visit_ok h root fuel ->
  forall i s s',
    (forall x, In x (fst s) -> reachable h root x) ->
    (forall c, i = Some c -> reachable h root c) ->
    process_slot (process_element fuel h) h i s = Ok s' ->
    progress h root s s' /\ (forall c, i = Some c -> In c (fst s')).
Proof.
  intros Hv [c|] s s' Hr Hc H; unfold process_slot in H.
  - specialize (Hc c eq_refl).
    destruct (elem_in h c (fst s)) eqn:E.
    + inversion H; subst. split; [apply progress_refl, Hr|].
      intros c' Hc'. inversion Hc'; subst.
      apply (elem_in_iff h root h c' (fst s') Hwf (same_graph_refl h) Hc Hr). exact E.
    + destruct (Hv c s s' Hr Hc H) as (Hp & Hin & _). split; [exact Hp|].
      intros c' Hc'. inversion Hc'; subst. exact Hin.
  - rewrite process_element_None in H. discriminate H.
Qed.

Lemma process_slots_ok fuel :
  visit_ok h root fuel ->
  forall l s s',
    (forall x, In x (fst s) -> reachable h root x) ->
    (forall c, In (Some c) l -> reachable h root c) ->
    foldM (fun s i => process_slot (process_element fuel h) h i s) l s = Ok s' ->
    progress h root s s' /\ (forall c, In (Some c) l -> In c (fst s')).
Proof.
  intros Hv. induction l as [|i l IH]; intros s s' Hr Hl H; cbn [foldM] in H.
  - inversion H; subst. split; [apply progress_refl, Hr | intros c []].
  - destruct (process_slot _ h i s) as [s1|err] eqn:E1; [|discriminate H]. cbn [Py.bind] in H.
    destruct (process_slot_ok fuel Hv i s s1 Hr) as (P1 & C1); [|exact E1|].
    { intros c ->. apply Hl. left. reflexivity. }
    destruct (IH s1 s') as (P2 & C2); [apply P1 | | exact H |].
    { intros c Hc. apply Hl. right. exact Hc. }
    split; [eapply progress_trans; eassumption|].
    intros c [->|Hc]; [|apply C2, Hc].
    destruct P2 as (_ & Hx & _). apply Hx, C1. reflexivity.
Qed.

Lemma process_attr_ok fuel :
  visit_ok h root fuel ->
  forall kv s s',
    (forall x, In x (fst s) -> reachable h root x) ->
    (forall c, In (Some c) (value_slots (snd kv)) -> reachable h root c) ->
    process_attr (process_element fuel h) h s kv = Ok s' ->
    progress h root s s' /\
    (forall t, In t (attr_strings kv) -> In t (snd s')) /\
    (forall c, In (Some c) (value_slots (snd kv)) -> In c (fst s')).
Proof.
  intros Hv [k v] s s' Hr Hc H. unfold process_attr in H. cbn [fst snd] in *.
  assert (Hk : progress h root s (fst s, snd s ++ [k])) by (apply progress_strings, Hr).
  assert (Hkey : In k (snd s ++ [k])) by (apply in_or_app; right; left; reflexivity).
  destruct v;
    try (inversion H; subst; split; [exact Hk|];
         split; [intros ? [<-|[]]; exact Hkey | intros ? []]; fail).
  - destruct (process_slot_ok fuel Hv (Some r) (fst s, snd s ++ [k]) s' Hr) as (P & C);
      [intros c Hc'; inversion Hc'; subst; apply Hc; left; reflexivity | exact H |].
    split; [eapply progress_trans; eassumption|]. split.
    + intros t [<-|[]]. destruct P as (_ & _ & Ht & _). apply Ht. exact Hkey.
    + intros c [Hc'|[]]. inversion Hc'; subst. apply C. reflexivity.
  - inversion H; subst. cbn [attr_strings fst snd value_slots].
    split; [|split; [|intros c []]].
    + eapply progress_trans; [exact Hk|].
      apply (progress_strings (fst s, snd s ++ [k]) [s0]). exact Hr.
    + intros t [<-|[<-|[]]]; cbn [snd]; apply in_or_app;
        [left; exact Hkey | right; left; reflexivity].
  - destruct (process_slots_ok fuel Hv l (fst s, snd s ++ [k]) s' Hr Hc H) as (P & C).
    split; [eapply progress_trans; eassumption|]. split; [|exact C].
    intros t [<-|[]]. destruct P as (_ & _ & Ht & _). apply Ht. exact Hkey.
Qed.

Lemma process_attrs_ok fuel :
  visit_ok h root fuel ->
  forall L s s',
    (forall x, In x (fst s) -> reachable h root x) ->
    (forall kv c, In kv L -> In (Some c) (value_slots (snd kv)) -> reachable h root c) ->
    foldM (process_attr (process_element fuel h) h) L s = Ok s' ->
    progress h root s s' /\
    (forall kv, In kv L ->
       (forall t, In t (attr_strings kv) -> In t (snd s')) /\
       (forall c, In (Some c) (value_slots (snd kv)) -> In c (fst s'))).
Proof.
  intros Hv. induction L as [|kv L IH]; intros s s' Hr HL H; cbn [foldM] in H.
  - inversion H; subst. split; [apply progress_refl, Hr | intros kv []].
  - destruct (process_attr _ h s kv) as [s1|err] eqn:E1; [|discriminate H]. cbn [Py.bind] in H.
    destruct (process_attr_ok fuel Hv kv s s1 Hr) as (P1 & S1 & C1); [|exact E1|].
    { intros c Hc. apply (HL kv c); [left; reflexivity | exact Hc]. }
    destruct (IH s1 s') as (P2 & A2); [apply P1 | | exact H |].
    { intros kv' c Hkv Hc. apply (HL kv' c); [right; exact Hkv | exact Hc]. }
    split; [eapply progress_trans; eassumption|].
    intros kv' [<-|Hkv]; [|apply A2, Hkv].
    destruct P2 as (_ & Hx & Ht & _). split; [intros t Ht'; apply Ht, S1, Ht' |].
    intros c Hc. apply Hx, C1, Hc.
Qed.

Lemma process_visit fuel : visit_ok h root fuel.
Proof.
  induction fuel as [|fuel IH]; intros e s s' Hr He H; [discriminate H|].
  cbn [process_element] in H.
  set (s0 := (fst s ++ [e], snd s ++ [e_name (deref h e); e_type (deref h e)])) in H.
  assert (Hr0 : forall x, In x (fst s0) -> reachable h root x).
  { intros x Hx. apply in_app_or in Hx as [Hx|[<-|[]]]; [apply Hr, Hx | exact He]. }
  destruct (process_attrs_ok fuel IH (e_attrs (deref h e)) s0 s' Hr0) as (P & A);
    [|exact H|].
  { intros kv c Hkv Hc. eapply reach_step; [exact He|].
    unfold child, element_slots, slots. apply in_concat.
    exists (value_slots (snd kv)). split; [|exact Hc].
    apply in_map_iff. exists kv. split; [reflexivity | exact Hkv]. }
  destruct P as (Hr' & Hx & Ht & Hcov).
  assert (Hin : In e (fst s')) by (apply Hx, in_or_app; right; left; reflexivity).
  assert (Hce : covered h s' e).
  { split.
    - intros t [<-|[<-|Ht']].
      + apply Ht, in_or_app. right. left. reflexivity.
      + apply Ht, in_or_app. right. right. left. reflexivity.
      + apply in_concat in Ht' as (l & Hl & Htl). apply in_map_iff in Hl as (kv & <- & Hkv).
        apply (A kv Hkv). exact Htl.
    - intros c Hc. unfold child, element_slots, slots in Hc.
      apply in_concat in Hc as (l & Hl & Hcl). apply in_map_iff in Hl as (kv & <- & Hkv).
      apply (A kv Hkv). exact Hcl. }
  split; [|split; [exact Hin | exact Hce]].
  split; [exact Hr'|]. split; [|split].
  - intros x Hx'. apply Hx, in_or_app. left. exact Hx'.
  - intros t Ht'. apply Ht, in_or_app. left. exact Ht'.
  - intros y Hy. destruct (Hcov y Hy) as [Hy0|Hc]; [|right; exact Hc].
    apply in_app_or in Hy0 as [Hy0|[<-|[]]]; [left; exact Hy0 | right; exact Hce].
Qed.

(** When the traversal from the root returns, the strings of every
    reachable element are collected. *)
Lemma dictionary_covers fuel s :
  process_element fuel h (Some root) ([], []) = Ok s ->
  forall e t, reachable h root e -> In t (element_strings h e) -> In t (snd s).
Proof.
  intros H.
  destruct (process_visit fuel root ([], []) s) as ((_ & _ & _ & Hcov) & Hin & _);
    [intros x [] | apply reach_root | exact H |].
  assert (Hall : forall e, reachable h root e -> In e (fst s)).
  { intros e He. induction He as [|x y _ IH Hch]; [exact Hin|].
    destruct (Hcov x IH) as [[]|[_ Hc]]. apply Hc, Hch. }
  intros e t He Ht. destruct (Hcov e (Hall e He)) as [[]|[Hs _]]. apply Hs, Ht.
Qed.

End DictCover.

(** ** The string dictionary (C2) *)




(** ** Type tables *)

Lemma single_types_cases t :
  In t _dmxtypes ->
  exists a, _get_array_type t = Ok a /\ In a _dmxtypes_array /\ _get_single_type a = Ok t.
Proof.
  intros Ht. unfold _dmxtypes in Ht. cbn [In] in Ht.
  repeat (destruct Ht as [<-|Ht];
          [eexists; split; [vm_compute; reflexivity|];
           split; [vm_compute; tauto | vm_compute; reflexivity]|]).
  destruct Ht.
Qed.

Lemma array_types_cases a :
  In a _dmxtypes_array ->
  exists t, _get_single_type a = Ok t /\ In t _dmxtypes /\ _get_array_type t = Ok a.
Proof.
  intros Ht. unfold _dmxtypes_array in Ht. cbn [In] in Ht.
  repeat (destruct Ht as [<-|Ht];
          [eexists; split; [vm_compute; reflexivity|];
           split; [vm_compute; tauto | vm_compute; reflexivity]|]).
  destruct Ht.
Qed.

(** X1: [_get_array_type] and [_get_single_type] are inverse bijections
    between the fourteen single classes and the fourteen array classes,
    and each raises [ValueError] on a class of the other's range. *)
Theorem array_and_single_types_inverse :
  forall t,
    (In t _dmxtypes ->
       (exists a, _get_array_type t = Ok a /\ In a _dmxtypes_array /\
                  _get_single_type a = Ok t) /\
       _get_single_type t = Raise (ValueError "Argument is already a single type")) /\
    (In t _dmxtypes_array ->
       (exists s, _get_single_type t = Ok s /\ In s _dmxtypes /\
                  _get_array_type s = Ok t) /\
       _get_array_type t = Raise (ValueError "Argument is already an array type")).
Proof.
  intros t. split; intros Ht.
  - split; [apply single_types_cases, Ht|].
    unfold _dmxtypes in Ht. cbn [In] in Ht.
    repeat (destruct Ht as [<-|Ht]; [reflexivity|]). destruct Ht.
  - split; [apply array_types_cases, Ht|].
    unfold _dmxtypes_array in Ht. cbn [In] in Ht.
    repeat (destruct Ht as [<-|Ht]; [reflexivity|]). destruct Ht.
Qed.

Lemma array_and_single_types_inverse_witness :
  _get_array_type T_Vector3 = Ok T_Vector3Array /\
  _get_single_type T_Vector3Array = Ok T_Vector3.
Proof.
  destruct (array_and_single_types_inverse T_Vector3) as [H _].
  destruct H as [(a & Ha & _ & Hs) _]; [vm_compute; tauto|].
  assert (E : a = T_Vector3Array) by (vm_compute in Ha; congruence).
  rewrite E in *. split; assumption.
Defined.

(** One case of the type tables: decide the test, then compute the id
    and its byte. *)
Ltac type_id_case ver t :=
  match goal with
  | |- if ?c then _ else _ =>
      let v := eval vm_compute in c in
      change c with v; cbv iota
  end;
  lazymatch goal with
  | |- _ = _ => vm_compute; reflexivity
  | |- exists _, _ =>
      let r := eval vm_compute in (_get_dmx_type_id "binary" ver t) in
      lazymatch r with
      | Ok (Some ?n) =>
          let b := eval vm_compute in (byte_of_Z n) in
          exists n, b;
          split; [vm_compute; reflexivity|];
          split; [vm_compute; reflexivity|];
          split; [intros rest; reflexivity | vm_compute; reflexivity]
      end
  end.

(** The type ids of the binary encoding, class by class. *)
Lemma type_ids_binary :
  forall ver t,
    1 <= ver <= 5 ->
    if (ver <=? 2) && (pytype_eqb t T_Time || pytype_eqb t T_TimeArray)
    then _get_dmx_type_id "binary" ver t = Raise (ValueError "Type not supported")
    else exists id b,
        _get_dmx_type_id "binary" ver t = Ok (Some id) /\
        pack_b id = Ok [b] /\
        (forall rest, get_byte (b :: rest) = (Ok id, rest)) /\
        _get_dmx_id_type "binary" ver id
        = Ok (EType (if pytype_eqb t NoneType then T_Element else t)).
Proof.
  intros ver t Hv.
  assert (E : ver = 1 \/ ver = 2 \/ ver = 3 \/ ver = 4 \/ ver = 5) by lia.
  destruct E as [->|[->|[->|[->| ->]]]]; destruct t;
    match goal with |- context [_get_dmx_type_id _ ?v ?t] => type_id_case v t end.
Qed.

(** X2: under the binary encoding every attribute class has a type id
    that fits a byte and that the reader maps back to the class
    ([NoneType] to [Element]); the exceptions are [Time] and
    [_TimeArray] under versions 1 and 2, which have no id there. *)
Theorem type_id_read_back :
  forall ver t,
    1 <= ver <= 5 ->
    if (ver <=? 2) && (pytype_eqb t T_Time || pytype_eqb t T_TimeArray)
    then _get_dmx_type_id "binary" ver t = Raise (ValueError "Type not supported")
    else exists id b,
        _get_dmx_type_id "binary" ver t = Ok (Some id) /\
        pack_b id = Ok [b] /\
        (forall rest, get_byte (b :: rest) = (Ok id, rest)) /\
        _get_dmx_id_type "binary" ver id
        = Ok (EType (if pytype_eqb t NoneType then T_Element else t)).
Proof. exact type_ids_binary. Qed.

Lemma type_id_read_back_witness :
  exists id b,
    _get_dmx_type_id "binary" 5 T_Time = Ok (Some id) /\
    pack_b id = Ok [b] /\
    (forall rest, get_byte (b :: rest) = (Ok id, rest)) /\
    _get_dmx_id_type "binary" 5 id = Ok (EType T_Time).
Proof. apply (type_id_read_back 5 T_Time). lia. Defined.

(** ** Integers and strings on the wire *)

Lemma pack_i_out_of_range z :
  ~ (-2147483648 <= z < 2147483648) -> pack_i z = Raise StructError.
Proof.
  intros Hz. unfold pack_i.
  destruct (-2147483648 <=? z) eqn:E1; destruct (z <? 2147483648) eqn:E2;
    cbn [andb]; try reflexivity.
  apply Z.leb_le in E1. apply Z.ltb_lt in E2. lia.
Qed.



Lemma list_ascii_of_string_app a b :
  list_ascii_of_string (a ++ b) = list_ascii_of_string a ++ list_ascii_of_string b.
Proof. induction a as [|c a IH]; cbn; [reflexivity|]. rewrite IH. reflexivity. Qed.

Lemma list_byte_of_string_app a b :
  list_byte_of_string (a ++ b) = list_byte_of_string a ++ list_byte_of_string b.
Proof. unfold list_byte_of_string. rewrite list_ascii_of_string_app. apply map_app. Qed.






Lemma get_str_from_no_NUL s : forall out,
  Forall (fun b => Byte.eqb b x00 = false /\ is_ascii (ascii_of_byte b) = true) s ->
  get_str_from out s = (Raise Hang, []).
Proof.
  induction s as [|b s IH]; intros out Hs; [reflexivity|].
  inversion Hs as [|? ? [Hb Ha] Hs']; subst. cbn [get_str_from].
  rewrite Hb, Ha. apply IH, Hs'.
Qed.

(** X6: on a file that ends before a NUL, [get_str] never returns: at the
    end of the file [read(1)] gives the empty byte string, which is not
    the NUL and adds nothing, so the loop goes on for ever. *)
Theorem get_str_hangs_without_NUL :
  forall s,
    Forall (fun b => Byte.eqb b x00 = false /\ is_ascii (ascii_of_byte b) = true) s ->
    get_str s = (Raise Hang, []).
Proof. intros s Hs. apply get_str_from_no_NUL, Hs. Qed.

Lemma get_str_hangs_without_NUL_witness :
  get_str (list_byte_of_string "unterminated") = (Raise Hang, []).
Proof.
  apply get_str_hangs_without_NUL. repeat constructor.
Defined.

(** ** [Time] read and written again *)

Lemma all_from_spec P k : forall n,
  all_from k n P = true -> forall m, n <= m < n + Z.of_nat k -> P m = true.
Proof.
  induction k as [|k IH]; intros n H m Hm; [lia|].
  cbn [all_from] in H. apply andb_true_iff in H as [H0 H1].
  destruct (Z.eq_dec m n) as [->|Hne]; [exact H0|].
  apply (IH (n + 1) H1). lia.
Qed.

Lemma ticks_near_spec n :
  ticks_near n = true ->
  Time_tobytes (Time_from_int n) = pack_i n \/
  Time_tobytes (Time_from_int n) = pack_i (n - 1).
Proof.
  unfold ticks_near, Time_tobytes.
  destruct (int_of_float _) as [m|e]; [|discriminate].
  cbn [Py.bind]. intros H. apply orb_true_iff in H as [H|H]; apply Z.eqb_eq in H; subst;
    [left | right]; reflexivity.
Qed.

(** X7: a [Time] read from a file is not always written back as it was
    read: for every tick count below 100000 (ten seconds) the count
    written is the count read or one less, and for the count 3 it is
    one less ([3 / 10000 * 10000] is below 3 in binary64 and [int]
    truncates). *)
Theorem time_written_back_within_one_tick :
  (forall n, 0 <= n < 100000 ->
     Time_tobytes (Time_from_int n) = pack_i n \/
     Time_tobytes (Time_from_int n) = pack_i (n - 1)) /\
  Time_tobytes (Time_from_int 3) = Ok [x02; x00; x00; x00] /\
  pack_i 3 = Ok [x03; x00; x00; x00].
Proof.
  split; [|split; vm_compute; reflexivity].
  intros n Hn. apply ticks_near_spec.
  apply (all_from_spec ticks_near (Z.to_nat 100000) 0); [vm_compute; reflexivity | lia].
Qed.

Lemma time_written_back_within_one_tick_witness :
  Time_tobytes (Time_from_int 12) = pack_i 12 \/
  Time_tobytes (Time_from_int 12) = pack_i (12 - 1).
Proof.
  destruct time_written_back_within_one_tick as [H _]. apply H. lia.
Defined.

(** ** Attribute assignment and lookup *)

Lemma od_get_od_set_eq {V} (d : list (string * V)) k v : od_get (od_set d k v) k = Some v.
Proof.
  induction d as [|[k' v'] d IH]; cbn [od_set od_get].
  - rewrite String.eqb_refl. reflexivity.
  - destruct (String.eqb k' k) eqn:E; cbn [od_get].
    + rewrite String.eqb_refl. reflexivity.
    + rewrite E. exact IH.
Qed.

Lemma od_get_od_set_ne {V} (d : list (string * V)) k k' v :
  k' <> k -> od_get (od_set d k v) k' = od_get d k'.
Proof.
  intros Hne. induction d as [|[k0 v0] d IH]; cbn [od_set od_get].
  - destruct (String.eqb k k') eqn:E; [apply String.eqb_eq in E; congruence | reflexivity].
  - destruct (String.eqb k0 k) eqn:E; cbn [od_get].
    + apply String.eqb_eq in E. subst k0.
      destruct (String.eqb k k') eqn:E'; [apply String.eqb_eq in E'; congruence | reflexivity].
    + destruct (String.eqb k0 k'); [reflexivity | exact IH].
Qed.

Lemma od_set_keys {V} (d : list (string * V)) k v :
  map fst (od_set d k v)
  = match od_get d k with
    | Some _ => map fst d
    | None => map fst d ++ [k]
    end.
Proof.
  induction d as [|[k' v'] d IH]; cbn [od_set od_get map fst app]; [reflexivity|].
  destruct (String.eqb k' k) eqn:E; cbn [map fst].
  - apply String.eqb_eq in E. subst. reflexivity.
  - rewrite IH. destruct (od_get d k); reflexivity.
Qed.

(** What a successful assignment amounts to: an import that only
    registers, then the slot is set. *)
Lemma Element_setitem_ok w self key item w' :
  Element_setitem w self key item = (w', Ok tt) ->
  exists w1, grown w w1 /\
             w' = mkWorld (update (w_heap w1) self (set_attr key item)) (w_dms w1).
Proof.
  unfold Element_setitem. intros H.
  destruct item;
    try (inversion H; subst; exists w; split; [apply grown_refl | reflexivity]; fail);
    match type of H with
    | context [import_element ?f ?s ?x ?y] =>
        destruct (import_element f s x y) as [w1 [[]|e1]] eqn:Hi;
        inversion H; subst; exists w1; split; [|reflexivity];
        eapply import_element_grown; exact Hi
    | context [forS ?f ?l ?y] =>
        destruct (forS f l y) as [w1 [[]|e1]] eqn:Hi;
        inversion H; subst; exists w1; split; [|reflexivity];
        eapply (forS_preserves grown); [apply grown_refl | apply grown_trans | | exact Hi];
        intros o u u' q _ Ho; eapply import_element_grown; exact Ho
    end.
Qed.

(** X8: after a successful [elem[key] = item], [elem[key]] is [item],
    every other key of [elem] gives what it gave before, and the order
    of the keys is kept: a key that was there stays in its place, a new
    key goes last. *)
Theorem setitem_then_getitem :
  forall w self key item w',
    (self < length (w_heap w))%nat ->
    Element_setitem w self key item = (w', Ok tt) ->
    Element_getitem (deref (w_heap w') self) key = Ok item /\
    (forall k, k <> key ->
       Element_getitem (deref (w_heap w') self) k
       = Element_getitem (deref (w_heap w) self) k) /\
    map fst (e_attrs (deref (w_heap w') self))
    = match od_get (e_attrs (deref (w_heap w) self)) key with
      | Some _ => map fst (e_attrs (deref (w_heap w) self))
      | None => map fst (e_attrs (deref (w_heap w) self)) ++ [key]
      end.
Proof.
  intros w self key item w' Hself H.
  destruct (Element_setitem_ok _ _ _ _ _ H) as (w1 & (Hlen & Hc & _) & ->).
  cbn [w_heap]. rewrite deref_update.
  destruct (decide _) as [_|Hn]; [|exfalso; apply Hn; split; [reflexivity | lia]].
  destruct (Hc self) as (_ & _ & _ & _ & _ & Ha).
  unfold Element_getitem, set_attr. cbn [e_attrs]. rewrite Ha.
  split; [rewrite od_get_od_set_eq; reflexivity|].
  split; [intros k Hk; rewrite od_get_od_set_ne by exact Hk; reflexivity|].
  apply od_set_keys.
Qed.

Lemma setitem_then_getitem_witness :
  Element_getitem
    (deref (w_heap (fst (Element_setitem (mkWorld lone_heap [lone_dm]) 0%nat "m" (VInt 5))))
       0%nat) "m" = Ok (VInt 5) /\
  map fst (e_attrs (deref (w_heap (fst (Element_setitem (mkWorld lone_heap [lone_dm]) 0%nat
                                          "m" (VInt 5)))) 0%nat))
  = ["n"; "m"]%string.
Proof.
  destruct (setitem_then_getitem (mkWorld lone_heap [lone_dm]) 0%nat "m" (VInt 5)
              (fst (Element_setitem (mkWorld lone_heap [lone_dm]) 0%nat "m" (VInt 5))))
    as (H1 & _ & H3).
  - cbn. lia.
  - reflexivity.
  - split; [exact H1 | exact H3].
Defined.

(** ** Files without a header *)

Lemma read_header_from_no_end s : forall header,
  Forall (fun b => Ascii.eqb (ascii_of_byte b) ">" = false) s ->
  exists rest,
    read_header_from header s = (Raise (Exception "Could not read DMX header"), rest).
Proof.
  induction s as [|b s IH]; intros header Hs; cbn [read_header_from].
  - exists []. reflexivity.
  - inversion Hs as [|? ? Hb Hs']; subst.
    destruct (is_ascii (ascii_of_byte b)); [|exists s; reflexivity].
    rewrite Hb. apply IH, Hs'.
Qed.

(** X9: [load] on a file that holds no [>] (an empty file, a file cut
    inside its header) raises [Exception("Could not read DMX header")]
    and builds nothing. *)
Theorem load_without_header_end :
  forall rt in_file element_path,
    Forall (fun b => Ascii.eqb (ascii_of_byte b) ">" = false) in_file ->
    exists rest,
      load rt in_file element_path
      = (Raise (Exception "Could not read DMX header"), rest).
Proof.
  intros rt s p Hs. unfold load, load_prelude, read_header, rbind.
  destruct (read_header_from_no_end s [] Hs) as (rest & ->).
  exists rest. reflexivity.
Qed.

Lemma load_without_header_end_witness :
  exists rest,
    load sample_runtime (list_byte_of_string "<!-- dmx encoding binary 2 format model 1 --") None
    = (Raise (Exception "Could not read DMX header"), rest).
Proof.
  apply load_without_header_end. repeat constructor.
Defined.

(** ** What [echo] cannot write *)

Lemma count_pass_None h dm :
  dm_root dm = None -> count_pass h dm = Raise (TypeError "NoneType object is not iterable").
Proof. unfold count_pass. intros ->. reflexivity. Qed.

Lemma dict_of_datamodel_None order h dm encoding encoding_ver d :
  dm_root dm = None ->
  dict_of_datamodel order h dm encoding encoding_ver = Ok d -> dummy d = true.
Proof.
  unfold dict_of_datamodel. intros ->.
  destruct (dict_init encoding encoding_ver) as [d0|e]; [|discriminate]. cbn [Py.bind].
  destruct (dummy d0) eqn:Hd; [intros H; inversion H; subst; exact Hd|].
  cbn [process_element Py.bind]. discriminate.
Qed.

Lemma echo_binary_None rt h dm encoding encoding_ver header :
  dm_root dm = None ->
  exists e, echo_binary rt h dm encoding encoding_ver header = Raise e.
Proof.
  intros Hroot. unfold echo_binary.
  destruct (String.eqb encoding "binary").
  - destruct (dict_of_datamodel _ h dm encoding encoding_ver) as [d|e]; [|eauto].
    cbn [Py.bind]. destruct (write_dictionary d) as [t|e]; [|eauto].
    cbn [Py.bind]. rewrite count_pass_None by exact Hroot. eauto.
  - cbn [Py.bind]. rewrite count_pass_None by exact Hroot. eauto.
Qed.

(** X10: a datamodel without a root (no element was ever added) cannot be
    written: [echo] raises for every encoding and version. *)
Theorem echo_without_root_raises :
  forall rt h dm encoding encoding_ver,
    dm_root dm = None ->
    exists e, echo rt h dm encoding encoding_ver = Raise e.
Proof.
  intros rt h dm encoding encoding_ver Hroot. unfold echo.
  destruct (check_support encoding encoding_ver) as [[]|e]; [|eauto]. cbn [Py.bind].
  destruct (String.eqb encoding "binary_proto").
  - destruct (_encode_binary_string _) as [hd|e]; [|eauto]. cbn [Py.bind].
    apply echo_binary_None, Hroot.
  - cbv zeta. destruct (String.eqb encoding "binary").
    + destruct (_encode_binary_string _) as [hd|e]; [|eauto]. cbn [Py.bind].
      apply echo_binary_None, Hroot.
    + destruct (String.eqb encoding "keyvalues2").
      * unfold echo_keyvalues2. rewrite count_pass_None by exact Hroot. eauto.
      * rewrite count_pass_None by exact Hroot. eauto.
Qed.

Lemma echo_without_root_raises_witness :
  exists e, echo sample_runtime [] (mkDataModel "model" 1 [] None) "keyvalues2" 1 = Raise e.
Proof. apply echo_without_root_raises. reflexivity. Defined.

Lemma foldM_preserves {A S} (R : S -> S -> Prop) (f : S -> A -> result S) l :
  (forall s, R s s) ->
  (forall s1 s2 s3, R s1 s2 -> R s2 s3 -> R s1 s3) ->
  (forall x s s', In x l -> f s x = Ok s' -> R s s') ->
  forall s s', foldM f l s = Ok s' -> R s s'.
Proof.
  intros Hrefl Htrans. induction l as [|x l IH]; intros Hf s s' H; cbn [foldM] in H.
  - inversion H; subst. apply Hrefl.
  - destruct (f s x) as [s1|e] eqn:Hx; [|discriminate H]. cbn [Py.bind] in H.
    eapply Htrans; [eapply Hf; [left; reflexivity | exact Hx]|].
    eapply IH; [|exact H]. intros y t t' Hy. apply Hf. right. exact Hy.
Qed.

(** The counting pass changes nothing but [_users], on any graph. *)
Lemma _count_child_elems_same_graph fuel :
  forall elem s s',
    _count_child_elems fuel elem s = Ok s' -> same_graph (fst s) (fst s').
Proof.
  induction fuel as [|fuel IH]; intros elem s s' H.
  - destruct elem; discriminate H.
  - destruct elem as [elem|]; [|discriminate H]. cbn [_count_child_elems] in H.
    assert (Hslot : forall i t t', count_slot (_count_child_elems fuel) i t = Ok t' ->
                                   same_graph (fst t) (fst t')).
    { intros [r|] t t' Hi; unfold count_slot in Hi; [|eapply IH; exact Hi].
      destruct (elem_in (fst t) r (snd t)).
      - cbn [Py.bind] in Hi. inversion Hi; subst. cbn [fst]. apply same_graph_incr.
      - destruct (_count_child_elems fuel (Some r) t) as [t1|e] eqn:Hv; [|discriminate Hi].
        cbn [Py.bind] in Hi. inversion Hi; subst. cbn [fst].
        eapply same_graph_trans; [eapply IH; exact Hv | apply same_graph_incr]. }
    change (same_graph (fst (fst s, snd s ++ [elem])) (fst s')).
    eapply (foldM_preserves (fun t t' : cstate => same_graph (fst t) (fst t')));
      [intros; apply same_graph_refl | intros; eapply same_graph_trans; eassumption | | exact H].
    intros kv t t' _ Hkv. unfold count_attr in Hkv.
    destruct (snd kv); try (inversion Hkv; subst; apply same_graph_refl).
    + eapply Hslot. exact Hkv.
    + eapply (foldM_preserves (fun t t' : cstate => same_graph (fst t) (fst t')));
        [intros; apply same_graph_refl | intros; eapply same_graph_trans; eassumption
        | | exact Hkv].
      intros i u u' _ Hi. eapply Hslot. exact Hi.
Qed.

Lemma count_pass_same_graph h dm s :
  count_pass h dm = Ok s -> same_graph h (fst s).
Proof.
  unfold count_pass. intros H.
  eapply same_graph_trans; [apply (same_graph_reset h (dm_elements dm))|].
  apply _count_child_elems_same_graph in H. exact H.
Qed.



(** X12: a [Color] or a [Matrix] attribute that [load] has read from a
    binary file cannot be written back: [Color.tobytes] indexes the
    list with its own components and [_write] has no branch for
    [Matrix], so both raise [TypeError]. *)
Theorem colour_and_matrix_cannot_be_written :
  forall rt encoding_ver d t from_array st v st' h w suppress_dict,
    t = T_Color \/ t = T_Matrix ->
    get_value rt encoding_ver d t from_array st = (Ok v, st') ->
    exists msg, _write rt h w v suppress_dict = Raise (TypeError msg).
Proof.
  intros rt ver d t fa st v st' h w sd [-> | ->] H; cbn [get_value] in H.
  - unfold lift, get_color, get_fixed in H.
    destruct (Nat.eqb (length (firstn 4 (l_in st))) 4) eqn:E; [|discriminate H].
    inversion H; subst. apply Nat.eqb_eq in E.
    destruct (firstn 4 (l_in st)) as [|x l]; [discriminate E|].
    cbn [map _write]. unfold _write_Vector. cbn [Vector_tobytes Py.bind]. eauto.
  - unfold lmap, lbind, lift, lret in H.
    destruct (rrepeat 4 (get_vec rt 4) (l_in st)) as [[m|e] rest]; inversion H; subst.
    cbn [_write]. unfold cannot_write. eauto.
Qed.

Lemma colour_and_matrix_cannot_be_written_witness :
  exists msg,
    _write sample_runtime [] (mkWriter [] "binary" 5 None [])
      (VVector KColor (map (fun x => float_of_Z (Z_of_byte x)) [x01; x02; x03; x04])) false
    = Raise (TypeError msg).
Proof.
  apply (colour_and_matrix_cannot_be_written sample_runtime 5 (mkDict false 4 4 []) T_Color
           false (mkLstate [x01; x02; x03; x04] (mkWorld [] [])) _
           (mkLstate [] (mkWorld [] []))).
  - left. reflexivity.
  - reflexivity.
Defined.

(** ** References to placeholders *)

Lemma index_of_not_In s l : ~ In s l -> index_of String.eqb s l = None.
Proof.
  induction l as [|x l IH]; intros Hn; cbn [index_of]; [reflexivity|].
  destruct (String.eqb x s) eqn:E.
  - apply String.eqb_eq in E. exfalso. apply Hn. left. exact E.
  - rewrite IH; [reflexivity|]. intros Hin. apply Hn. right. exact Hin.
Qed.



(** X14: under binary version 5 a reference to a placeholder is written
    as -2 followed by the text of its id, and the text goes through the
    string dictionary: unless the dictionary happens to hold that text,
    the assertion of [write_string] fails. *)
Theorem placeholder_under_version_5 :
  forall rt h w r suppress_dict d,
    e_is_placeholder (deref h r) = true ->
    5 <= encoding_ver w ->
    _string_dict w = Some d ->
    dummy d = false ->
    ~ In (uuid_str (e_id (deref h r))) (entries d) ->
    _write rt h w (VElement r) suppress_dict = Raise AssertionError.
Proof.
  intros rt h w r sd d Hp Hv Hd Hdum Hn.
  cbn [_write]. unfold _write_element. rewrite Hp.
  assert (E : (encoding_ver w <? 5) = false) by (apply Z.ltb_ge; exact Hv).
  rewrite E. unfold _write_int. rewrite pack_i_spec by lia. cbn [Py.bind].
  unfold _write_str, emit. cbn [_string_dict].
  rewrite Hd. unfold write_string. rewrite Hdum, (index_of_not_In _ _ Hn). reflexivity.
Qed.

Lemma placeholder_under_version_5_witness :
  _write sample_runtime (w_heap stub_world)
    (mkWriter [] "binary" 5 (Some (mkDict false 4 4 ["holder"; "DmElement"]%string)) [])
    (VElement 1%nat) false
  = Raise AssertionError.
Proof.
  apply (placeholder_under_version_5 sample_runtime (w_heap stub_world) _ 1%nat false
           (mkDict false 4 4 ["holder"; "DmElement"]%string)).
  - reflexivity.
  - cbn. lia.
  - reflexivity.
  - reflexivity.
  - cbn. intros [H|[H|[]]]; discriminate H.
Defined.

(** ** The header, written and read *)

Lemma match_here_plus cls p s :
  match_here (Plus cls :: p) s
  = match plus_group cls (match_here p) s with
    | Some (cap, gs, rest) => Some (string_of_list_ascii cap :: gs, rest)
    | None => None
    end.
Proof. reflexivity. Qed.

Lemma match_here_lits s p rest :
  match_here (lits s ++ p) (list_ascii_of_string s ++ rest) = match_here p rest.
Proof.
  unfold lits. induction s as [|c s IH]; [reflexivity|].
  cbn [list_ascii_of_string map app match_here]. rewrite Ascii.eqb_refl. exact IH.
Qed.

Lemma plus_group_spec cls k cap rest gs r :
  cap <> [] -> forallb cls cap = true ->
  match rest with [] => True | x :: _ => cls x = false end ->
  k rest = Some (gs, r) ->
  plus_group cls k (cap ++ rest) = Some (cap, gs, r).
Proof.
  intros Hne Hc Hr Hk. induction cap as [|x cap IH]; [congruence|].
  cbn [forallb] in Hc. apply andb_true_iff in Hc as [Hx Hc].
  cbn [app plus_group]. rewrite Hx.
  destruct cap as [|y cap].
  - cbn [app]. replace (plus_group cls k rest) with (@None (list ascii * list string * list ascii)).
    + rewrite Hk. reflexivity.
    + destruct rest as [|z rest]; [reflexivity|]. cbn [plus_group]. rewrite Hr. reflexivity.
  - rewrite IH; [reflexivity | discriminate | exact Hc].
Qed.

Lemma match_here_group cls p cap rest gs r :
  cap <> EmptyString -> forallb cls (list_ascii_of_string cap) = true ->
  match rest with [] => True | x :: _ => cls x = false end ->
  match_here p rest = Some (gs, r) ->
  match_here (Plus cls :: p) (list_ascii_of_string cap ++ rest) = Some (cap :: gs, r).
Proof.
  intros Hne Hc Hr Hk. rewrite match_here_plus.
  rewrite (plus_group_spec cls _ _ rest gs r); [|destruct cap; [congruence | discriminate]
                                                 | exact Hc | exact Hr | exact Hk].
  rewrite string_of_list_ascii_of_string. reflexivity.
Qed.

(** The decimal digits of a number. *)
Lemma int_of_digits_acc d : forall acc,
  fold_left (fun a c => 10 * a + (Z.of_N (N_of_ascii c) - 48))
    (list_ascii_of_string (NilEmpty.string_of_uint d)) (Zpos acc)
  = Zpos (Pos.of_uint_acc d acc).
Proof.
  induction d as [|d IH|d IH|d IH|d IH|d IH|d IH|d IH|d IH|d IH|d IH]; intros acc;
    [reflexivity|..];
    cbn [NilEmpty.string_of_uint list_ascii_of_string fold_left Pos.of_uint_acc];
    rewrite <- IH; f_equal; cbn; lia.
Qed.

Lemma int_of_digits_uint d :
  int_of_digits (NilEmpty.string_of_uint d) = Z.of_N (Pos.of_uint d).
Proof.
  unfold int_of_digits.
  induction d as [|d IH|d IH|d IH|d IH|d IH|d IH|d IH|d IH|d IH|d IH];
    [reflexivity| exact IH |..];
    cbn [NilEmpty.string_of_uint list_ascii_of_string fold_left Pos.of_uint];
    match goal with
    | |- fold_left _ _ ?a = _ =>
        let v := eval vm_compute in a in change a with v
    end; rewrite int_of_digits_acc; reflexivity.
Qed.

Lemma int_of_digits_str_of_Z z : 0 <= z -> int_of_digits (str_of_Z z) = z.
Proof.
  intros Hz. destruct z as [|p|p]; [reflexivity | | lia].
  cbn [str_of_Z]. rewrite int_of_digits_uint, DecimalPos.Unsigned.of_to. reflexivity.
Qed.

Lemma digits_of_uint d :
  forallb digit (list_ascii_of_string (NilEmpty.string_of_uint d)) = true.
Proof.
  induction d; cbn [NilEmpty.string_of_uint list_ascii_of_string forallb];
    [reflexivity|..]; rewrite IHd; reflexivity.
Qed.

Lemma str_of_Z_digits z :
  0 <= z ->
  str_of_Z z <> EmptyString /\ forallb digit (list_ascii_of_string (str_of_Z z)) = true.
Proof.
  intros Hz. destruct z as [|p|p]; [split; [discriminate | reflexivity] | | lia].
  cbn [str_of_Z]. split; [|apply digits_of_uint].
  intros E. pose proof (DecimalPos.Unsigned.of_to p) as H.
  assert (Pos.to_uint p = Decimal.Nil).
  { destruct (Pos.to_uint p); try discriminate E. reflexivity. }
  rewrite H0 in H. discriminate H.
Qed.

Lemma header_char_non_space l :
  forallb header_char l = true -> forallb non_space l = true.
Proof.
  induction l as [|c l IH]; [reflexivity|]. cbn [forallb]. intros H.
  apply andb_true_iff in H as [Hc Hl]. rewrite (IH Hl), andb_true_r.
  unfold header_char in Hc. apply andb_true_iff in Hc as [Hc _].
  apply andb_true_iff in Hc as [_ Hc]. exact Hc.
Qed.

(** A character that the loop reading the header passes over. *)
Lemma header_char_passes l :
  forallb header_char l = true ->
  forallb (fun c => is_ascii c && negb (Ascii.eqb c ">")) l = true.
Proof.
  induction l as [|c l IH]; [reflexivity|]. cbn [forallb]. intros H.
  apply andb_true_iff in H as [Hc Hl]. rewrite (IH Hl), andb_true_r.
  unfold header_char in Hc. apply andb_true_iff in Hc as [Hc Hgt].
  apply andb_true_iff in Hc as [Ha _]. rewrite Ha, Hgt. reflexivity.
Qed.

Lemma digit_passes l :
  forallb digit l = true ->
  forallb (fun c => is_ascii c && negb (Ascii.eqb c ">")) l = true.
Proof.
  induction l as [|c l IH]; [reflexivity|]. cbn [forallb]. intros H.
  apply andb_true_iff in H as [Hc Hl]. rewrite (IH Hl), andb_true_r. clear - Hc.
  destruct c as [[] [] [] [] [] [] [] []]; try discriminate Hc; reflexivity.
Qed.

Lemma read_header_from_spec l : forall header rest,
  forallb (fun c => is_ascii c && negb (Ascii.eqb c ">")) l = true ->
  read_header_from header (map byte_of_ascii l ++ byte_of_ascii ">" :: rest)
  = (Ok (string_of_list_ascii (rev header ++ l ++ [">"%char])), rest).
Proof.
  induction l as [|c l IH]; intros header rest Hl.
  - reflexivity.
  - cbn [forallb] in Hl. apply andb_true_iff in Hl as [Hc Hl].
    apply andb_true_iff in Hc as [Ha Hgt]. apply negb_true_iff in Hgt.
    cbn [map app read_header_from]. rewrite ascii_of_byte_of_ascii, Ha, Hgt.
    rewrite IH by exact Hl. cbn [rev]. rewrite <- !app_assoc. reflexivity.
Qed.

Lemma header_format_chars encoding encoding_ver format format_ver :
  list_ascii_of_string (header_format encoding encoding_ver format format_ver)
  = list_ascii_of_string "<!-- dmx encoding " ++ list_ascii_of_string encoding
      ++ list_ascii_of_string " " ++ list_ascii_of_string (str_of_Z encoding_ver)
      ++ list_ascii_of_string " format " ++ list_ascii_of_string format
      ++ list_ascii_of_string " " ++ list_ascii_of_string (str_of_Z format_ver)
      ++ list_ascii_of_string " -->".
Proof. unfold header_format. rewrite !list_ascii_of_string_app. reflexivity. Qed.

Lemma findall_S fuel p s :
  findall (S fuel) p s
  = match match_here p s with
    | Some (gs, rest) =>
        gs :: (if Nat.ltb (length rest) (length s) then findall fuel p rest
               else match s with [] => [] | _ :: s' => findall fuel p s' end)
    | None => match s with [] => [] | _ :: s' => findall fuel p s' end
    end.
Proof. reflexivity. Qed.

(** A match that takes the whole text is the only one. *)
Lemma findall_whole p s gs :
  s <> [] -> match_here p s = Some (gs, []) -> match_here p [] = None ->
  findall (S (length s)) p s = [gs].
Proof.
  intros Hs Hm Hnil. rewrite findall_S, Hm.
  destruct s as [|c s]; [congruence|].
  change (length (c :: s)) with (S (length s)).
  change (Nat.ltb (length (@nil ascii)) (S (length s))) with true. cbv iota.
  rewrite findall_S, Hnil. reflexivity.
Qed.

Lemma header_format_match encoding encoding_ver format format_ver :
  header_word encoding -> header_word format -> 0 <= encoding_ver -> 0 <= format_ver ->
  match_here header_format_regex
    (list_ascii_of_string (header_format encoding encoding_ver format format_ver))
  = Some ([encoding; str_of_Z encoding_ver; format; str_of_Z format_ver], []).
Proof.
  intros [He1 He2] [Hf1 Hf2] Hv Hfv.
  destruct (str_of_Z_digits encoding_ver Hv) as [Hv1 Hv2].
  destruct (str_of_Z_digits format_ver Hfv) as [Hfv1 Hfv2].
  rewrite header_format_chars.
  unfold header_format_regex. rewrite match_here_lits.
  change ([Plus non_space] ++ ?p) with (Plus non_space :: p).
  apply match_here_group; [exact He1 | apply header_char_non_space, He2 | reflexivity |].
  rewrite match_here_lits.
  change ([Plus digit] ++ ?p) with (Plus digit :: p).
  apply match_here_group; [exact Hv1 | exact Hv2 | reflexivity |].
  rewrite match_here_lits.
  change ([Plus non_space] ++ ?p) with (Plus non_space :: p).
  apply match_here_group; [exact Hf1 | apply header_char_non_space, Hf2 | reflexivity |].
  rewrite match_here_lits.
  change ([Plus digit] ++ ?p) with (Plus digit :: p).
  apply match_here_group; [exact Hfv1 | exact Hfv2 | reflexivity |].
  reflexivity.
Qed.

Lemma parse_header_format encoding encoding_ver format format_ver :
  header_word encoding -> header_word format -> 0 <= encoding_ver -> 0 <= format_ver ->
  parse_header (header_format encoding encoding_ver format format_ver)
  = Ok (encoding, encoding_ver, format, format_ver).
Proof.
  intros He Hf Hv Hfv. unfold parse_header. cbv zeta.
  assert (Hne : list_ascii_of_string (header_format encoding encoding_ver format format_ver)
                <> []) by (rewrite header_format_chars; discriminate).
  rewrite (findall_whole _ _ _ Hne (header_format_match _ _ _ _ He Hf Hv Hfv) eq_refl).
  cbv iota. rewrite !int_of_digits_str_of_Z by assumption. reflexivity.
Qed.

(** X15: the header that [echo] writes for an encoding and a format is
    read back by [load] as the same four fields: the loop reading the
    header stops right after it, and the regular expression gives the
    encoding, its version, the format and its version.  This holds for
    words that are not empty and hold no white space and no [>], and for
    versions that are not negative. *)
Theorem header_read_back :
  forall encoding encoding_ver format format_ver rest,
    header_word encoding -> header_word format ->
    0 <= encoding_ver -> 0 <= format_ver ->
    read_header
      (list_byte_of_string (header_format encoding encoding_ver format format_ver) ++ rest)
    = (Ok (header_format encoding encoding_ver format format_ver), rest) /\
    parse_header (header_format encoding encoding_ver format format_ver)
    = Ok (encoding, encoding_ver, format, format_ver) /\
    (check_support encoding encoding_ver = Ok tt ->
     load_prelude
       (list_byte_of_string (header_format encoding encoding_ver format format_ver) ++ rest)
     = (Ok (encoding, encoding_ver, format, format_ver), rest)).
Proof.
  intros encoding encoding_ver format format_ver rest He Hf Hv Hfv.
  assert (Hread : read_header
            (list_byte_of_string (header_format encoding encoding_ver format format_ver) ++ rest)
          = (Ok (header_format encoding encoding_ver format format_ver), rest)).
  { assert (E : exists l,
              list_ascii_of_string (header_format encoding encoding_ver format format_ver)
              = l ++ [">"%char] /\
              forallb (fun c => is_ascii c && negb (Ascii.eqb c ">")) l = true).
    { exists (list_ascii_of_string "<!-- dmx encoding " ++ list_ascii_of_string encoding
                ++ list_ascii_of_string " " ++ list_ascii_of_string (str_of_Z encoding_ver)
                ++ list_ascii_of_string " format " ++ list_ascii_of_string format
                ++ list_ascii_of_string " " ++ list_ascii_of_string (str_of_Z format_ver)
                ++ list_ascii_of_string " --").
      split.
      - rewrite header_format_chars.
        change (list_ascii_of_string " -->")
          with (list_ascii_of_string " --" ++ [">"%char]).
        rewrite <- !app_assoc. reflexivity.
      - destruct He as [_ He]. destruct Hf as [_ Hf].
        destruct (str_of_Z_digits encoding_ver Hv) as [_ Hv2].
        destruct (str_of_Z_digits format_ver Hfv) as [_ Hfv2].
        rewrite !forallb_app, (header_char_passes _ He), (header_char_passes _ Hf),
          (digit_passes _ Hv2), (digit_passes _ Hfv2). reflexivity. }
    destruct E as (l & E & Hl).
    unfold read_header, list_byte_of_string. rewrite E, map_app, <- app_assoc.
    change (map byte_of_ascii [">"%char] ++ rest) with (byte_of_ascii ">" :: rest).
    rewrite (read_header_from_spec l [] rest Hl). cbn [rev app].
    rewrite <- E, string_of_list_ascii_of_string. reflexivity. }
  pose proof (parse_header_format encoding encoding_ver format format_ver He Hf Hv Hfv)
    as Hparse.
  split; [exact Hread|]. split; [exact Hparse|].
  intros Hs. unfold load_prelude, rbind. rewrite Hread, Hparse, Hs. reflexivity.
Qed.

Lemma header_read_back_witness :
  load_prelude (list_byte_of_string (header_format "keyvalues2" 1 "model" 18) ++ [x0a])
  = (Ok ("keyvalues2"%string, 1, "model"%string, 18), [x0a]).
Proof.
  destruct (header_read_back "keyvalues2" 1 "model" 18 [x0a]) as (_ & _ & H).
  - split; [discriminate | reflexivity].
  - split; [discriminate | reflexivity].
  - lia.
  - lia.
  - apply H. reflexivity.
Defined.

(** ** KeyValues2 lines, written and parsed *)

Lemma lstrip_tabs n l :
  lstrip_chars blanks (list_ascii_of_string (tabs n) ++ l) = lstrip_chars blanks l.
Proof. induction n as [|n IH]; [reflexivity|]. exact IH. Qed.

Lemma strip_line n c m d :
  in_chars blanks c = false -> in_chars blanks d = false ->
  strip blanks (string_of_list_ascii
                  (list_ascii_of_string (tabs n) ++ (c :: m ++ [d]) ++ ["010"%char]))
  = string_of_list_ascii (c :: m ++ [d]).
Proof.
  intros Hc Hd. unfold strip. rewrite list_ascii_of_string_of_list_ascii, lstrip_tabs.
  change ((c :: m ++ [d]) ++ ["010"%char]) with (c :: (m ++ [d]) ++ ["010"%char]).
  change (lstrip_chars blanks (c :: (m ++ [d]) ++ ["010"%char]))
    with (if in_chars blanks c then lstrip_chars blanks ((m ++ [d]) ++ ["010"%char])
          else c :: (m ++ [d]) ++ ["010"%char]).
  rewrite Hc.
  change (c :: (m ++ [d]) ++ ["010"%char]) with ((c :: m ++ [d]) ++ ["010"%char]).
  rewrite rev_app_distr.
  change (rev ["010"%char] ++ rev (c :: m ++ [d])) with ("010"%char :: rev (c :: m ++ [d])).
  change (rev (c :: m ++ [d])) with (rev (m ++ [d]) ++ [c]).
  rewrite rev_app_distr.
  change ((rev [d] ++ rev m) ++ [c]) with (d :: rev m ++ [c]).
  change (lstrip_chars blanks ("010"%char :: d :: rev m ++ [c]))
    with (if in_chars blanks d then lstrip_chars blanks (rev m ++ [c])
          else d :: rev m ++ [c]).
  rewrite Hd.
  change (d :: rev m ++ [c]) with ([d] ++ rev m ++ [c]).
  rewrite !rev_app_distr, rev_involutive. reflexivity.
Qed.

Lemma quoted_inside s : forall acc rest,
  kv2_text s ->
  quoted (Some acc) (list_ascii_of_string s ++ "034"%char :: rest)
  = string_of_list_ascii (rev acc ++ list_ascii_of_string s) :: quoted None rest.
Proof.
  unfold kv2_text. induction s as [|c s IH]; intros acc rest Hs.
  - cbn [list_ascii_of_string app]. rewrite app_nil_r. reflexivity.
  - cbn [list_ascii_of_string forallb] in Hs. apply andb_true_iff in Hs as [Hc Hs].
    unfold kv2_char in Hc. apply andb_true_iff in Hc as [Hq Hn].
    apply negb_true_iff in Hq, Hn.
    cbn [list_ascii_of_string app quoted]. rewrite Hq, Hn, IH by exact Hs.
    cbn [rev]. rewrite <- app_assoc. reflexivity.
Qed.

Lemma quoted_word s rest :
  kv2_text s ->
  quoted None ("034"%char :: list_ascii_of_string s ++ "034"%char :: rest)
  = s :: quoted None rest.
Proof.
  intros Hs. change (quoted None ("034"%char :: ?l)) with (quoted (Some []) l).
  rewrite quoted_inside by exact Hs. cbn [rev app].
  rewrite string_of_list_ascii_of_string. reflexivity.
Qed.

Lemma _make_attr_str_chars indent a b c :
  list_ascii_of_string (_make_attr_str indent a b c false)
  = list_ascii_of_string (tabs indent)
      ++ ("034"%char
            :: (list_ascii_of_string a
                  ++ "034"%char :: " "%char :: "034"%char
                  :: list_ascii_of_string b
                  ++ "034"%char :: " "%char :: "034"%char :: list_ascii_of_string c)
            ++ ["034"%char]) ++ ["010"%char].
Proof.
  unfold _make_attr_str, _quote, dquote, nl. rewrite !list_ascii_of_string_app.
  cbn [list_ascii_of_string].
  repeat (progress (rewrite <- ?app_assoc; cbn [app])). reflexivity.
Qed.

Lemma attribute_line_parsed_back_lemma indent a b c :
  kv2_text a -> kv2_text b -> kv2_text c ->
  parse_line (_make_attr_str indent a b c false) = [a; b; c].
Proof.
  intros Ha Hb Hc. unfold parse_line.
  rewrite <- (string_of_list_ascii_of_string (_make_attr_str indent a b c false)).
  rewrite _make_attr_str_chars, strip_line by reflexivity.
  rewrite list_ascii_of_string_of_list_ascii.
  repeat (progress (rewrite <- ?app_assoc; cbn [app])).
  rewrite quoted_word by exact Ha.
  change (quoted None (" "%char :: ?l)) with (quoted None l).
  rewrite quoted_word by exact Hb.
  change (quoted None (" "%char :: ?l)) with (quoted None l).
  rewrite quoted_word by exact Hc. reflexivity.
Qed.

(** X16: a KeyValues2 attribute line is parsed back into its three parts:
    for a name, a type and a value that hold no quote and no line
    break, [parse_line] of the line [_make_attr_str] makes (at any
    indentation) is the list of the three. *)
Theorem attribute_line_parsed_back :
  forall indent a b c,
    kv2_text a -> kv2_text b -> kv2_text c ->
    parse_line (_make_attr_str indent a b c false) = [a; b; c].
Proof. intros indent a b c. apply attribute_line_parsed_back_lemma. Qed.


Lemma attribute_line_parsed_back_witness :
  parse_line (_make_attr_str 2 "position" "vector3" "0 1.5 2" false)
  = ["position"; "vector3"; "0 1.5 2"]%string.
Proof. apply attribute_line_parsed_back; reflexivity. Defined.

(** ** Scalars, written and read *)

Lemma lstrip_clean l :
  match l with [] => True | c :: _ => in_chars blanks c = false end ->
  lstrip_chars blanks l = l.
Proof. destruct l as [|c l]; [reflexivity|]. intros Hc. cbn [lstrip_chars]. rewrite Hc. reflexivity. Qed.

Lemma strip_clean s :
  forallb (fun c => negb (in_chars blanks c)) (list_ascii_of_string s) = true ->
  strip blanks s = s.
Proof.
  intros Hs. unfold strip.
  assert (Hhead : forall l, forallb (fun c => negb (in_chars blanks c)) l = true ->
                            match l with [] => True | c :: _ => in_chars blanks c = false end).
  { intros [|c l] Hl; [exact I|]. cbn [forallb] in Hl. apply andb_true_iff in Hl as [Hc _].
    apply negb_true_iff in Hc. exact Hc. }
  rewrite (lstrip_clean _ (Hhead _ Hs)).
  rewrite lstrip_clean.
  - rewrite rev_involutive. apply string_of_list_ascii_of_string.
  - apply Hhead. rewrite forallb_forall in *. intros c Hc. apply Hs, in_rev, Hc.
Qed.

Lemma digit_not_blank l :
  forallb digit l = true -> forallb (fun c => negb (in_chars blanks c)) l = true.
Proof.
  induction l as [|c l IH]; [reflexivity|]. cbn [forallb]. intros H.
  apply andb_true_iff in H as [Hc Hl]. rewrite (IH Hl), andb_true_r. clear - Hc.
  destruct c as [[] [] [] [] [] [] [] []]; try discriminate Hc; reflexivity.
Qed.

Lemma digit_kv2_char l : forallb digit l = true -> forallb kv2_char l = true.
Proof.
  induction l as [|c l IH]; [reflexivity|]. cbn [forallb]. intros H.
  apply andb_true_iff in H as [Hc Hl]. rewrite (IH Hl), andb_true_r. clear - Hc.
  destruct c as [[] [] [] [] [] [] [] []]; try discriminate Hc; reflexivity.
Qed.

Lemma digit_no_sign c :
  digit c = true -> Ascii.eqb c "-" = false /\ Ascii.eqb c "+" = false.
Proof. destruct c as [[] [] [] [] [] [] [] []]; intros H; try discriminate H; split; reflexivity. Qed.

Lemma int_of_str_digits ds (neg : bool) :
  ds <> EmptyString -> forallb digit (list_ascii_of_string ds) = true ->
  int_of_str (if neg then String "-" ds else ds)
  = Ok (if neg then - int_of_digits ds else int_of_digits ds).
Proof.
  intros Hne Hd. unfold int_of_str.
  assert (E : exists c l, list_ascii_of_string ds = c :: l).
  { destruct ds as [|c ds]; [congruence|]. exists c, (list_ascii_of_string ds). reflexivity. }
  destruct E as (c & l & E).
  rewrite strip_clean.
  - destruct neg.
    + cbn [list_ascii_of_string]. rewrite Ascii.eqb_refl, E. cbv iota. rewrite <- E.
      rewrite Hd, string_of_list_ascii_of_string. reflexivity.
    + assert (Hc : digit c = true).
      { rewrite E in Hd. cbn [forallb] in Hd. apply andb_true_iff in Hd as [Hc _]. exact Hc. }
      destruct (digit_no_sign c Hc) as [H1 H2].
      rewrite E, H1, H2. cbv iota. rewrite <- E.
      rewrite Hd, string_of_list_ascii_of_string. reflexivity.
  - destruct neg; [cbn [list_ascii_of_string forallb]|]; rewrite digit_not_blank by exact Hd;
      reflexivity.
Qed.

Lemma int_of_str_str_of_Z z : int_of_str (str_of_Z z) = Ok z.
Proof.
  destruct z as [|p|p]; [reflexivity | |].
  - destruct (str_of_Z_digits (Zpos p)) as [Hne Hd]; [lia|].
    rewrite (int_of_str_digits (str_of_Z (Zpos p)) false Hne Hd).
    rewrite int_of_digits_str_of_Z by lia. reflexivity.
  - destruct (str_of_Z_digits (Zpos p)) as [Hne Hd]; [lia|].
    change (str_of_Z (Zneg p)) with (String "-" (str_of_Z (Zpos p))).
    rewrite (int_of_str_digits (str_of_Z (Zpos p)) true Hne Hd).
    rewrite int_of_digits_str_of_Z by lia. reflexivity.
Qed.

Lemma kv2_text_str_of_Z z : kv2_text (str_of_Z z).
Proof.
  unfold kv2_text. destruct z as [|p|p]; [reflexivity | |].
  - apply digit_kv2_char. apply (str_of_Z_digits (Zpos p)). lia.
  - change (str_of_Z (Zneg p)) with (String "-" (str_of_Z (Zpos p))).
    cbn [list_ascii_of_string forallb]. rewrite digit_kv2_char; [reflexivity|].
    apply (str_of_Z_digits (Zpos p)). lia.
Qed.



Lemma kv2_char_hex_digit n : kv2_char (hex_digit n) = true.
Proof.
  unfold hex_digit.
  pose proof (nth_in_or_default (N.to_nat n) (list_ascii_of_string "0123456789abcdef")
                "0"%char) as H.
  remember (nth (N.to_nat n) (list_ascii_of_string "0123456789abcdef") "0"%char) as c.
  clear Heqc. destruct H as [Hin | ->]; [|reflexivity].
  cbn [list_ascii_of_string In] in Hin.
  repeat (destruct Hin as [<-|Hin]; [reflexivity|]). destruct Hin.
Qed.

Lemma kv2_char_hex_of_N digits : forall n, forallb kv2_char (hex_of_N digits n) = true.
Proof.
  induction digits as [|d IH]; intros n; [reflexivity|].
  cbn [hex_of_N]. rewrite forallb_app, IH. cbn [forallb].
  rewrite kv2_char_hex_digit. reflexivity.
Qed.

Lemma kv2_text_hexlify b : kv2_text (hexlify b).
Proof.
  unfold kv2_text, hexlify. rewrite list_ascii_of_string_of_list_ascii.
  induction b as [|x b IH]; [reflexivity|].
  cbn [map concat]. rewrite forallb_app, kv2_char_hex_of_N, IH. reflexivity.
Qed.



(** ** Attributes, written and read *)

Lemma lbind_lift {A B} (m : reader A) (k : A -> loader B) i wd a i' :
  m i = (Ok a, i') -> lbind (lift m) k (mkLstate i wd) = k a (mkLstate i' wd).
Proof. intros H. unfold lbind, lift. cbn [l_in l_world]. rewrite H. reflexivity. Qed.

Lemma lbind_lift_result {A B} (a : A) (k : A -> loader B) s :
  lbind (lift_result (Ok a)) k s = k a s.
Proof. reflexivity. Qed.

Lemma lmap_ok {A B} (f : A -> B) (m : reader A) i wd a i' :
  m i = (Ok a, i') -> lmap f m (mkLstate i wd) = (Ok (f a), mkLstate i' wd).
Proof. intros H. unfold lmap. rewrite (lbind_lift m _ i wd a i' H). reflexivity. Qed.

Lemma lbind_ok {A B} (m : loader A) (k : A -> loader B) s a s' :
  m s = (Ok a, s') -> lbind m k s = k a s'.
Proof. intros H. unfold lbind. rewrite H. reflexivity. Qed.

(** Assigning a value that holds no element imports nothing. *)
Lemma l_setitem_plain elem name v i wd :
  value_slots v = [] -> v <> VElementArray [] ->
  l_setitem elem name v (mkLstate i wd) = (Ok tt, mkLstate i (with_attr wd elem name v)).
Proof.
  intros Hs Hv. unfold l_setitem, Element_setitem. cbn [l_in l_world].
  destruct v; try reflexivity; try discriminate Hs.
  cbn [value_slots] in Hs. subst. congruence.
Qed.

Lemma read_bytes_app b rest :
  read_bytes (Z.of_nat (length b)) (b ++ rest) = (Ok b, rest).
Proof.
  unfold read_bytes.
  assert (E : (Z.of_nat (length b) <? 0) = false) by (apply Z.ltb_ge; lia).
  rewrite E, Nat2Z.id, take_app_length, drop_app_length. reflexivity.
Qed.

(** What the writer and the reader make of one plain value. *)
Lemma wire_value_written rt h w d ver v :
  encoding_ver w = ver -> _string_dict w = Some d -> dummy d = false ->
  fits (indice_size d) (Z.of_nat (length (entries d))) ->
  wire_value d ver v -> v <> VNone ->
  exists bytes,
    _write rt h w v (ver <? 4) = Ok (emit w bytes) /\
    forall rest wd,
      get_value rt ver d (type_of v) false (mkLstate (bytes ++ rest) wd)
      = (Ok v, mkLstate rest wd).
Proof.
  intros Hver Hd Hdum Hfit Hv Hnone.
  destruct v; try (destruct Hv; fail); try congruence; cbn [wire_value] in Hv;
    cbn [_write type_of get_value].
  - (* int *)
    unfold _write_int. rewrite pack_i_spec by exact Hv. cbn [Py.bind].
    eexists. split; [reflexivity|]. intros rest wd.
    apply lmap_ok. apply get_int_le_bytes, Hv.
  - (* bool *)
    unfold _write_bool.
    exists [if b then x01 else x00]. split; [destruct b; reflexivity|].
    intros rest wd. destruct b; reflexivity.
  - (* str *)
    unfold _write_str. rewrite orb_false_r. destruct (ver <? 4) eqn:E.
    + rewrite _encode_binary_string_wire by exact Hv. cbn [Py.bind].
      eexists. split; [reflexivity|]. intros rest wd.
      apply lmap_ok. rewrite <- app_assoc. apply get_str_wire, Hv.
    + rewrite Hd.
      destruct (write_string_index d s Hdum Hfit Hv) as (i & _ & Hw & Hr).
      rewrite Hw. cbn [Py.bind]. eexists. split; [reflexivity|]. intros rest wd.
      apply lmap_ok. apply Hr.
  - (* Binary *)
    unfold _write_Binary.
    assert (Hr : -2147483648 <= Z.of_nat (length b) < 2147483648) by lia.
    rewrite pack_i_spec by exact Hr. cbn [Py.bind]. rewrite emit_emit.
    eexists. split; [reflexivity|]. intros rest wd.
    apply lmap_ok. unfold rbind. rewrite <- app_assoc.
    rewrite get_int_le_bytes by exact Hr. apply read_bytes_app.
Qed.



(** ** Arrays of numbers, written and read *)

Section ArrayItems.

Context {X : Type}.
Variable rt : runtime.
Variable item : writer -> X -> result writer.
Variable enc : X -> list byte.
Variable mk : list X -> value.
Variable single : X -> value.
Variable t : pytype.
Variable good : X -> Prop.

Hypothesis item_enc : forall w x, good x -> item w x = Ok (emit w (enc x)).
Hypothesis get_enc : forall encoding_ver d x rest wd,
  good x ->
  get_value rt encoding_ver d t true (mkLstate (enc x ++ rest) wd)
  = (Ok (single x), mkLstate rest wd).
Hypothesis append_mk : forall done x, array_append (mk done) (single x) = Ok (mk (done ++ [x])).

Lemma write_items l : forall w,
  Forall good l -> foldM item l w = Ok (emit w (concat (map enc l))).
Proof.
  induction l as [|x l IH]; intros w Hl; cbn [foldM map concat].
  - rewrite emit_nil. reflexivity.
  - inversion Hl as [|? ? Hx Hl']; subst.
    rewrite item_enc by exact Hx. cbn [Py.bind]. rewrite IH by exact Hl'.
    rewrite emit_emit. reflexivity.
Qed.

Lemma read_items_back encoding_ver d elem name l : forall done rest wd,
  Forall good l ->
  read_items rt encoding_ver d (length l) elem name t (mk done)
    (mkLstate (concat (map enc l) ++ rest) (with_attr wd elem name (mk done)))
  = (Ok tt, mkLstate rest (with_attr wd elem name (mk (done ++ l)))).
Proof.
  induction l as [|x l IH]; intros done rest wd Hl.
  - cbn [length read_items map concat app]. rewrite app_nil_r. reflexivity.
  - inversion Hl as [|? ? Hx Hl']; subst.
    cbn [length read_items map concat]. rewrite <- app_assoc.
    rewrite (lbind_ok _ _ _ _ _ (get_enc _ _ _ _ _ Hx)).
    rewrite append_mk, lbind_lift_result.
    unfold lbind at 1, l_store. cbn [l_in l_world].
    fold (with_attr (with_attr wd elem name (mk done)) elem name (mk (done ++ [x]))).
    rewrite with_attr_with_attr, IH by exact Hl'. rewrite <- app_assoc. reflexivity.
Qed.

(** The whole array: its length, then its items. *)
Lemma array_read_back (wr : writer -> list X -> result writer) at_ l :
  (forall w l, wr w l = _write_array item w l) ->
  empty_array at_ = Ok (mk []) -> _get_single_type at_ = Ok t ->
  value_slots (mk []) = [] -> mk [] <> VElementArray [] ->
  Forall good l -> Z.of_nat (length l) < 2147483648 ->
  exists bytes,
    (forall w, wr w l = Ok (emit w bytes)) /\
    forall encoding_ver d elem name rest wd,
      read_array rt encoding_ver d elem name at_ (mkLstate (bytes ++ rest) wd)
      = (Ok tt, mkLstate rest (with_attr wd elem name (mk l))).
Proof.
  intros Hwr Hempty Hsingle Hs Hne Hl Hlen.
  assert (Hrange : -2147483648 <= Z.of_nat (length l) < 2147483648) by lia.
  exists (le_bytes 4 (Z.of_nat (length l)) ++ concat (map enc l)). split.
  - intros w. rewrite Hwr. unfold _write_array. rewrite pack_i_spec by exact Hrange.
    rewrite Z.mod_small by lia. cbn [Py.bind].
    rewrite write_items by exact Hl. rewrite emit_emit. reflexivity.
  - intros encoding_ver d elem name rest wd. rewrite <- app_assoc. unfold read_array.
    rewrite (lbind_lift get_int _ _ wd (Z.of_nat (length l)) (concat (map enc l) ++ rest)).
    2:{ rewrite <- (Z.mod_small (Z.of_nat (length l)) 4294967296) at 1 by lia.
        apply get_int_le_bytes, Hrange. }
    rewrite Hempty, lbind_lift_result.
    rewrite (lbind_ok _ _ _ _ _ (l_setitem_plain elem name (mk []) _ wd Hs Hne)).
    rewrite Hsingle, lbind_lift_result, Nat2Z.id.
    apply (read_items_back encoding_ver d elem name l [] rest wd Hl).
Qed.

End ArrayItems.



(** ** The dictionary holds only strings of the graph *)

Lemma foldM_invariant {A S} (P : S -> Prop) (f : S -> A -> result S) l :
  (forall x s s', In x l -> f s x = Ok s' -> P s -> P s') ->
  forall s s', foldM f l s = Ok s' -> P s -> P s'.
Proof.
  intros Hf. apply (foldM_preserves (fun s s' => P s -> P s')); auto.
Qed.

Lemma collected_strings h root (s : dstate) e l :
  reachable h root e -> (forall t, In t l -> In t (element_strings h e)) ->
  collected_from h root s -> collected_from h root (fst s, snd s ++ l).
Proof.
  intros He Hl [Hx Ht]. split; [exact Hx|]. cbn [snd]. intros t Hin.
  apply in_app_or in Hin as [Hin|Hin]; [apply Ht, Hin|].
  exists e. split; [exact He | apply Hl, Hin].
Qed.

Lemma attr_strings_element h e kv t :
  In kv (e_attrs (deref h e)) -> In t (attr_strings kv) -> In t (element_strings h e).
Proof.
  intros Hkv Ht. unfold element_strings. right. right.
  apply in_concat. exists (attr_strings kv). split; [|exact Ht].
  apply in_map, Hkv.
Qed.

Lemma attr_slot_child h e kv c :
  In kv (e_attrs (deref h e)) -> In (Some c) (value_slots (snd kv)) -> child h e c.
Proof.
  intros Hkv Hc. unfold child, element_slots, slots. apply in_concat.
  exists (value_slots (snd kv)). split; [|exact Hc].
  apply in_map_iff. exists kv. split; [reflexivity | exact Hkv].
Qed.

Lemma process_element_collects h root fuel :
  forall elem s s',
    process_element fuel h elem s = Ok s' ->
    (forall e, elem = Some e -> reachable h root e) ->
    collected_from h root s -> collected_from h root s'.
Proof.
  induction fuel as [|fuel IH]; intros elem s s' H He Hs.
  - destruct elem; discriminate H.
  - destruct elem as [e|]; [|discriminate H]. specialize (He e eq_refl).
    cbn [process_element] in H.
    assert (Hslot : forall i t t',
               (forall c, i = Some c -> reachable h root c) ->
               process_slot (process_element fuel h) h i t = Ok t' ->
               collected_from h root t -> collected_from h root t').
    { intros [c|] t t' Hc Hi Ht; unfold process_slot in Hi.
      - destruct (elem_in h c (fst t)); [inversion Hi; subst; exact Ht|].
        eapply IH; [exact Hi | exact Hc | exact Ht].
      - eapply IH; [exact Hi | intros c E; discriminate E | exact Ht]. }
    eapply (foldM_invariant (collected_from h root)); [| exact H |].
    + intros kv t t' Hkv Hstep Ht. unfold process_attr in Hstep.
      assert (Hkey : collected_from h root (fst t, snd t ++ [fst kv])).
      { apply (collected_strings h root t e); [exact He | | exact Ht].
        intros x [<-|[]]. apply (attr_strings_element h e kv); [exact Hkv | left; reflexivity]. }
      destruct (snd kv) eqn:Ev; try (inversion Hstep; subst; exact Hkey).
      * eapply Hslot; [| exact Hstep | exact Hkey].
        intros c Ec. inversion Ec; subst. eapply reach_step; [exact He|].
        apply (attr_slot_child h e kv); [exact Hkv | rewrite Ev; left; reflexivity].
      * inversion Hstep; subst.
        apply (collected_strings h root (fst t, snd t ++ [fst kv]) e); [exact He | | exact Hkey].
        intros x [<-|[]]. apply (attr_strings_element h e kv); [exact Hkv|].
        unfold attr_strings. rewrite Ev. right. left. reflexivity.
      * eapply (foldM_invariant (collected_from h root)); [| exact Hstep | exact Hkey].
        intros i u u' Hi Hstep' Hu. eapply Hslot; [| exact Hstep' | exact Hu].
        intros c ->. eapply reach_step; [exact He|].
        apply (attr_slot_child h e kv); [exact Hkv | rewrite Ev; exact Hi].
    + destruct Hs as [Hx Ht]. split; cbn [fst snd].
      * intros x Hin. apply in_app_or in Hin as [Hin|[<-|[]]]; [apply Hx, Hin | exact He].
      * intros t Hin. apply in_app_or in Hin as [Hin|Hin]; [apply Ht, Hin|].
        exists e. split; [exact He|]. unfold element_strings.
        destruct Hin as [<-|[<-|[]]]; [left | right; left]; reflexivity.
Qed.

(** X21: the dictionary [echo] builds for a datamodel holds nothing but
    strings of its graph: every entry is the name, the type, an
    attribute key or a string value of an element reachable from the
    root.  (In particular no text of an element id is in it, unless it
    is one of those strings.) *)
Theorem dictionary_holds_only_graph_strings :
  forall order h dm ver d root,
    set_order_ok order ->
    In ver [2; 3; 4; 5] ->
    dm_root dm = Some root ->
    dict_of_datamodel order h dm "binary" ver = Ok d ->
    forall t, In t (entries d) ->
              exists e, reachable h root e /\ In t (element_strings h e).
Proof.
  intros order h dm ver d root Hord Hv Hroot Hd t Ht.
  destruct (dict_of_datamodel_shape order h dm ver d Hv Hd) as (isz & lsz & s & _ & Hp & ->).
  cbn [entries] in Ht. apply (Hord (snd s)) in Ht.
  assert (Hc : collected_from h root s).
  { eapply (process_element_collects h root); [exact Hp | |].
    - rewrite Hroot. intros e E. inversion E; subst. apply reach_root.
    - split; intros x []. }
  destruct Hc as [_ Hc]. apply Hc, Ht.
Qed.

Lemma dictionary_holds_only_graph_strings_witness :
  exists e, reachable lone_heap 0%nat e /\ In "n"%string (element_strings lone_heap e).
Proof.
  apply (dictionary_holds_only_graph_strings first_seen lone_heap lone_dm 2 lone_dict_v2 0%nat).
  - exact first_seen_ok.
  - cbn. tauto.
  - reflexivity.
  - vm_compute. reflexivity.
  - cbn. tauto.
Defined.

(** ** Floats in KeyValues2 *)

Lemma drop_leading_app_all c l1 l2 :
  drop_leading c l1 = [] -> drop_leading c (l1 ++ l2) = drop_leading c l2.
Proof.
  induction l1 as [|x l1 IH]; intros H; [reflexivity|].
  cbn [drop_leading app] in *. destruct (Ascii.eqb x c); [apply IH, H | discriminate H].
Qed.

Lemma drop_leading_app_some c l1 l2 x r :
  drop_leading c l1 = x :: r -> drop_leading c (l1 ++ l2) = (x :: r) ++ l2.
Proof.
  induction l1 as [|y l1 IH]; intros H; [discriminate H|].
  cbn [drop_leading app] in *. destruct (Ascii.eqb y c); [apply IH, H|].
  inversion H; subst. reflexivity.
Qed.

Lemma drop_leading_head c l x r :
  drop_leading c l = x :: r -> Ascii.eqb x c = false /\ In x l.
Proof.
  induction l as [|y l IH]; intros H; [discriminate H|].
  cbn [drop_leading] in H. destruct (Ascii.eqb y c) eqn:E.
  - destruct (IH H) as [H1 H2]. split; [exact H1 | right; exact H2].
  - inversion H; subst. split; [exact E | left; reflexivity].
Qed.

Lemma drop_leading_stop c x l : Ascii.eqb x c = false -> drop_leading c (x :: l) = x :: l.
Proof. intros E. cbn [drop_leading]. rewrite E. reflexivity. Qed.

Lemma string_of_list_ascii_app a b :
  string_of_list_ascii (a ++ b) = (string_of_list_ascii a ++ string_of_list_ascii b)%string.
Proof. induction a as [|x a IH]; [reflexivity|]. cbn. rewrite IH. reflexivity. Qed.

Lemma digit_not_dot x : digit x = true -> Ascii.eqb x "." = false.
Proof. destruct x as [[] [] [] [] [] [] [] []]; intros H; try discriminate H; reflexivity. Qed.

(** X22: the two [rstrip] steps that print a float strip the zeros at the
    end of the fraction and nothing of the integer part: when
    ["{:.10f}".format(x)] is an integer part, a dot and a fraction of
    digits, the text written is the integer part alone if the fraction
    is all zeros (["10.0000000000"] gives ["10"]), and otherwise the
    integer part, the dot and the fraction without its final zeros. *)
Theorem float_text_keeps_integer_part :
  forall fmt f ip frac,
    fmt f = (ip ++ "." ++ frac)%string ->
    forallb digit (list_ascii_of_string frac) = true ->
    endswith_char "." ip = false ->
    float_kv2 fmt f
    = (if String.eqb (rstrip "0" frac) EmptyString then ip
       else ip ++ "." ++ rstrip "0" frac)%string.
Proof.
  intros fmt f ip frac Hf Hd Hip. unfold float_kv2. rewrite Hf.
  assert (Hrev : rev (list_ascii_of_string (ip ++ "." ++ frac))
                 = rev (list_ascii_of_string frac)
                     ++ "."%char :: rev (list_ascii_of_string ip)).
  { rewrite !list_ascii_of_string_app. cbn [list_ascii_of_string].
    rewrite !rev_app_distr. cbn [rev app]. rewrite <- app_assoc. reflexivity. }
  assert (Hdot : drop_leading "." (rev (list_ascii_of_string ip))
                 = rev (list_ascii_of_string ip)).
  { unfold endswith_char in Hip. destruct (rev (list_ascii_of_string ip)) as [|x l];
      [reflexivity | apply drop_leading_stop, Hip]. }
  unfold rstrip at 2. rewrite Hrev.
  destruct (drop_leading "0" (rev (list_ascii_of_string frac))) as [|x r] eqn:E.
  - rewrite (drop_leading_app_all _ _ _ E).
    rewrite (drop_leading_stop "0" "." _ eq_refl).
    unfold rstrip. rewrite E, list_ascii_of_string_of_list_ascii, rev_involutive.
    change (drop_leading "." ("."%char :: rev (list_ascii_of_string ip)))
      with (drop_leading "." (rev (list_ascii_of_string ip))).
    rewrite Hdot, rev_involutive.
    change (String.eqb (string_of_list_ascii (rev [])) EmptyString) with true.
    cbv iota. apply string_of_list_ascii_of_string.
  - rewrite (drop_leading_app_some _ _ _ _ _ E).
    destruct (drop_leading_head _ _ _ _ E) as [_ Hin].
    assert (Hx : Ascii.eqb x "." = false).
    { apply digit_not_dot. rewrite forallb_forall in Hd. apply Hd, in_rev, Hin. }
    unfold rstrip. rewrite E, list_ascii_of_string_of_list_ascii, rev_involutive.
    cbn [app]. rewrite (drop_leading_stop "." x _ Hx).
    change (x :: r ++ "."%char :: rev (list_ascii_of_string ip))
      with ((x :: r) ++ ["."%char] ++ rev (list_ascii_of_string ip)).
    rewrite !rev_app_distr, rev_involutive, <- app_assoc, !string_of_list_ascii_app.
    rewrite string_of_list_ascii_of_string.
    assert (Hne : String.eqb (string_of_list_ascii (rev (x :: r))) EmptyString = false).
    { cbn [rev]. destruct (rev r); reflexivity. }
    rewrite Hne. reflexivity.
Qed.

Lemma float_text_keeps_integer_part_witness :
  float_kv2 (fun _ => "10.0000000000"%string) PrimFloat.zero = "10"%string /\
  float_kv2 (fun _ => "-0.2500000000"%string) PrimFloat.zero = "-0.25"%string.
Proof.
  split.
  - apply (float_text_keeps_integer_part (fun _ => "10.0000000000"%string) PrimFloat.zero
             "10" "0000000000"); reflexivity.
  - apply (float_text_keeps_integer_part (fun _ => "-0.2500000000"%string) PrimFloat.zero
             "-0" "2500000000"); reflexivity.
Defined.

(** ** Finding elements *)

Lemma find_loop_no_id h name elemtype elements : forall out,
  find_loop h name None elemtype elements out
  = match out ++ flat_map (matches h name elemtype) elements with
    | [] => FoundNone
    | l => FoundList l
    end.
Proof.
  induction elements as [|elem rest IH]; intros out.
  - cbn [find_loop flat_map]. rewrite app_nil_r. destruct out; reflexivity.
  - cbn [find_loop flat_map arg_eqb]. rewrite IH. unfold matches at 2.
    destruct (arg_eqb String.eqb (e_name (deref h elem)) name);
      destruct (arg_eqb String.eqb (e_type (deref h elem)) elemtype);
      cbn [app]; rewrite <- ?app_assoc; reflexivity.
Qed.

Lemma find_loop_id h name id elemtype pre : forall r post out,
  e_id (deref h r) = id ->
  (forall x, In x pre -> e_id (deref h x) <> id) ->
  find_loop h name (Some id) elemtype (pre ++ r :: post) out = FoundElement r.
Proof.
  induction pre as [|x pre IH]; intros r post out Hr Hpre.
  - cbn [app find_loop arg_eqb]. rewrite Hr, N.eqb_refl. reflexivity.
  - cbn [app find_loop arg_eqb].
    destruct (N.eqb_spec (e_id (deref h x)) id) as [E|_].
    + exfalso. apply (Hpre x); [left; reflexivity | exact E].
    + apply IH; [exact Hr|]. intros y Hy. apply Hpre. right. exact Hy.
Qed.

(** X23: [find_elements] without an id returns, in the order of the
    datamodel's list, every element whose name matches and every
    element whose type matches (an element that matches both is listed
    twice), and [None] rather than an empty list when nothing matches;
    with an id that an element of the datamodel has, it returns the
    first such element by itself, whatever name and type were asked
    for. *)
Theorem find_elements_results :
  forall h dm name elemtype,
    find_elements h dm name None elemtype
    = match flat_map (matches h name elemtype) (dm_elements dm) with
      | [] => FoundNone
      | l => FoundList l
      end /\
    forall id pre r post,
      dm_elements dm = pre ++ r :: post ->
      e_id (deref h r) = id ->
      (forall x, In x pre -> e_id (deref h x) <> id) ->
      find_elements h dm name (Some id) elemtype = FoundElement r.
Proof.
  intros h dm name elemtype. unfold find_elements. split.
  - apply (find_loop_no_id h name elemtype (dm_elements dm) []).
  - intros id pre r post -> Hr Hpre. apply find_loop_id; assumption.
Qed.

Lemma find_elements_results_witness :
  find_elements shared_heap shared_dm None (Some 4%N) (Some "DmeA"%string) = FoundElement 3%nat.
Proof.
  destruct (find_elements_results shared_heap shared_dm None (Some "DmeA"%string)) as [_ H].
  apply (H 4%N [0; 1; 2]%nat 3%nat [4%nat]).
  - reflexivity.
  - reflexivity.
  - intros x [<-|[<-|[<-|[]]]]; discriminate.
Defined.

(** ** Elements joining datamodels *)

Lemma registered_refl w0 w : registered w0 w w.
Proof. repeat split; auto. Qed.

Lemma registered_trans w0 w1 w2 w3 :
  registered w0 w1 w2 -> registered w0 w2 w3 -> registered w0 w1 w3.
Proof.
  intros (A1 & B1 & C1 & D1 & E1) (A2 & B2 & C2 & D2 & E2).
  split; [congruence|]. split; [congruence|]. repeat split; auto.
Qed.

Lemma add_datamodel_In e dm d :
  In d (e_datamodels (add_datamodel e dm)) <-> d = dm \/ In d (e_datamodels e).
Proof.
  unfold add_datamodel. cbn [e_datamodels].
  destruct (existsb (Nat.eqb dm) (e_datamodels e)) eqn:E.
  - apply existsb_eqb_In in E. split; [auto|]. intros [->|H]; assumption.
  - rewrite in_app_iff. cbn [In]. split; [intros [H|[H|[]]]; auto | intros [H|H]; auto].
Qed.

Lemma register_registered w0 w dm elem :
  (dm < length (w_dms w))%nat -> registered w0 w (register w dm elem).
Proof.
  intros Hdm. unfold register.
  assert (Hh : forall x d, In d (e_datamodels (deref (w_heap w) x)) ->
                 In d (e_datamodels (deref (update (w_heap w) elem
                                               (fun e => add_datamodel e dm)) x))).
  { intros x d Hd. rewrite deref_update. destruct (decide _) as [[-> _]|_]; [|exact Hd].
    apply add_datamodel_In. right. exact Hd. }
  assert (Hl : forall x d, In x (dm_elements (dm_deref (w_dms w) d)) ->
                 In x (dm_elements (dm_deref
                         (<[dm := append_element (dm_deref (w_dms w) dm) elem]> (w_dms w)) d))).
  { intros x d Hx. rewrite (dm_deref_lookup (<[dm := _]> _)).
    destruct (decide (dm = d)) as [->|Hne].
    - rewrite list_lookup_insert_eq by exact Hdm. cbn. apply in_or_app. left. exact Hx.
    - rewrite list_lookup_insert_ne by exact Hne. rewrite <- dm_deref_lookup. exact Hx. }
  split; [apply length_update|]. split; [apply length_insert|].
  split; [exact Hh|]. split; [exact Hl|].
  cbn [w_heap w_dms]. intros Hinv x d Hd. rewrite deref_update in Hd.
  destruct (decide _) as [[-> _]|_].
  - apply add_datamodel_In in Hd as [->|Hd].
    + right. rewrite (dm_deref_lookup (<[dm := _]> _)), list_lookup_insert_eq by exact Hdm.
      cbn. apply in_or_app. right. left. reflexivity.
    + destruct (Hinv _ _ Hd) as [H|H]; [left; exact H | right; apply Hl, H].
  - destruct (Hinv _ _ Hd) as [H|H]; [left; exact H | right; apply Hl, H].
Qed.

Lemma register_valid w dm elem :
  (dm < length (w_dms w))%nat -> datamodels_valid w -> datamodels_valid (register w dm elem).
Proof.
  intros Hdm Hv x d Hd. unfold register in *. cbn [w_heap w_dms] in *.
  rewrite length_insert. rewrite deref_update in Hd.
  destruct (decide _) as [[-> _]|_]; [|apply (Hv x d Hd)].
  apply add_datamodel_In in Hd as [->|Hd]; [exact Hdm | apply (Hv x d Hd)].
Qed.

(** A loop whose every step stays inside a preorder and keeps an
    invariant does both, whether it ends or raises. *)
Lemma forS_rel {A S} (R : S -> S -> Prop) (P : S -> Prop)
    (f : A -> S -> S * result unit) l :
  (forall s, R s s) ->
  (forall s1 s2 s3, R s1 s2 -> R s2 s3 -> R s1 s3) ->
  (forall x s s' r, In x l -> P s -> f x s = (s', r) -> R s s' /\ P s') ->
  forall s s' r, P s -> forS f l s = (s', r) -> R s s' /\ P s'.
Proof.
  intros Hrefl Htrans. induction l as [|x l IH]; intros Hf s s' r Hs H; cbn [forS] in H.
  - inversion H; subst. split; [apply Hrefl | exact Hs].
  - destruct (f x s) as [s1 [[]|e]] eqn:Hx.
    + destruct (Hf x s s1 _ (or_introl eq_refl) Hs Hx) as [R1 P1].
      destruct (IH (fun y t t' q Hy => Hf y t t' q (or_intror Hy)) s1 s' r P1 H) as [R2 P2].
      split; [eapply Htrans; eassumption | exact P2].
    + inversion H; subst. apply (Hf x s s' _ (or_introl eq_refl) Hs Hx).
Qed.

(** When such a loop ends, what each step achieved still holds if the
    preorder keeps it. *)
Lemma forS_each {A S} (R : S -> S -> Prop) (P : S -> Prop) (Q : A -> S -> Prop)
    (f : A -> S -> S * result unit) l :
  (forall s, R s s) ->
  (forall s1 s2 s3, R s1 s2 -> R s2 s3 -> R s1 s3) ->
  (forall x s s' r, In x l -> P s -> f x s = (s', r) -> R s s' /\ P s') ->
  (forall x s s', In x l -> P s -> f x s = (s', Ok tt) -> Q x s') ->
  (forall x s s', R s s' -> Q x s -> Q x s') ->
  forall s s', P s -> forS f l s = (s', Ok tt) -> forall x, In x l -> Q x s'.
Proof.
  intros Hrefl Htrans. induction l as [|y l IH]; intros Hf Hq Hkeep s s' Hs H x Hx;
    [destruct Hx|].
  cbn [forS] in H. destruct (f y s) as [s1 [[]|e]] eqn:Hy; [|discriminate H].
  destruct (Hf y s s1 _ (or_introl eq_refl) Hs Hy) as [R1 P1].
  destruct Hx as [<-|Hx].
  - destruct (forS_rel R P f l Hrefl Htrans
                (fun z t t' q Hz => Hf z t t' q (or_intror Hz)) s1 s' _ P1 H) as [R2 _].
    apply (Hkeep y s1 s' R2). apply (Hq y s s1 (or_introl eq_refl) Hs Hy).
  - apply (IH (fun z t t' q Hz => Hf z t t' q (or_intror Hz))
              (fun z t t' Hz => Hq z t t' (or_intror Hz)) Hkeep s1 s' P1 H x Hx).
Qed.

(** The loop of [import_element] over the attributes of the element
    just registered. *)
Lemma import_attrs_registered w0 fuel self :
  (forall self elem w w' r,
     datamodels_valid w -> import_element fuel self elem w = (w', r) ->
     registered w0 w w' /\ datamodels_valid w') ->
  forall attrs s s' r,
    datamodels_valid s ->
    forS (fun (kv : string * value) w =>
            match snd kv with
            | VElement r => import_element fuel self (Some r) w
            | VElementArray l => forS (import_element fuel self) l w
            | _ => (w, Ok tt)
            end) attrs s = (s', r) ->
    registered w0 s s' /\ datamodels_valid s'.
Proof.
  intros IH attrs s s' r Hs H.
  eapply (forS_rel (registered w0) datamodels_valid);
    [apply registered_refl | apply registered_trans | | exact Hs | exact H].
  intros kv t t' q _ Ht Hkv. cbn beta in Hkv.
  destruct (snd kv); try (inversion Hkv; subst; split; [apply registered_refl | exact Ht]).
  - eapply IH; eassumption.
  - eapply (forS_rel (registered w0) datamodels_valid);
      [apply registered_refl | apply registered_trans | | exact Ht | exact Hkv].
    intros o u u' q' _ Hu Ho. eapply IH; eassumption.
Qed.

(** One datamodel of the import loop, from a state whose datamodel
    references are valid. *)
Lemma import_step_registered w0 fuel self elem :
  (forall self elem w w' r,
     datamodels_valid w -> import_element fuel self elem w = (w', r) ->
     registered w0 w w' /\ datamodels_valid w') ->
  forall dm s s' r,
    (dm < length (w_dms s))%nat -> datamodels_valid s ->
    (if existsb (Nat.eqb dm) (e_datamodels (deref (w_heap s) elem)) then (s, Ok tt)
     else if id_in_use (w_heap s) (dm_deref (w_dms s) dm) elem
          then (s, Raise IDCollisionError)
          else forS (fun (kv : string * value) w =>
                       match snd kv with
                       | VElement r => import_element fuel self (Some r) w
                       | VElementArray l => forS (import_element fuel self) l w
                       | _ => (w, Ok tt)
                       end) (e_attrs (deref (w_heap s) elem)) (register s dm elem))
    = (s', r) ->
    registered w0 s s' /\ datamodels_valid s'.
Proof.
  intros IH dm s s' r Hdm Hv H.
  destruct (existsb _ _); [inversion H; subst; split; [apply registered_refl | exact Hv]|].
  destruct (id_in_use _ _ _); [inversion H; subst; split; [apply registered_refl | exact Hv]|].
  destruct (import_attrs_registered w0 fuel self IH _ _ _ _
              (register_valid s dm elem Hdm Hv) H) as [R1 P1].
  split; [|exact P1].
  eapply registered_trans; [apply register_registered, Hdm | exact R1].
Qed.

Lemma import_element_registered w0 fuel :
  forall self elem w w' r,
    datamodels_valid w -> import_element fuel self elem w = (w', r) ->
    registered w0 w w' /\ datamodels_valid w'.
Proof.
  induction fuel as [|fuel IH]; intros self elem w w' r Hv H.
  - destruct elem; inversion H; subst; split; (apply registered_refl || exact Hv).
  - destruct elem as [elem|];
      [|inversion H; subst; split; [apply registered_refl | exact Hv]].
    cbn [import_element] in H.
    assert (Hloop : registered w0 w w' /\
                    (datamodels_valid w' /\ length (w_dms w') = length (w_dms w))).
    { eapply (forS_rel (registered w0)
                (fun s => datamodels_valid s /\ length (w_dms s) = length (w_dms w)));
        [apply registered_refl | apply registered_trans | | split; [exact Hv | reflexivity]
        | exact H].
      intros dm s s' q Hin [Hs Hlen] Hstep.
      destruct (import_step_registered w0 fuel self elem IH dm s s' q) as [R1 P1];
        [rewrite Hlen; apply (Hv self dm Hin) | exact Hs | exact Hstep |].
      split; [exact R1|]. split; [exact P1|].
      destruct R1 as (_ & Hl & _). congruence. }
    destruct Hloop as [R1 [P1 _]]. split; assumption.
Qed.

(** X24: after a successful [self[key] = elem], the element belongs to
    every datamodel its new owner belongs to, and each of those
    datamodels it did not belong to before lists it among its
    elements. *)
Theorem assigned_element_joins_datamodels :
  forall w self key r w',
    datamodels_valid w ->
    (r < length (w_heap w))%nat ->
    Element_setitem w self key (VElement r) = (w', Ok tt) ->
    forall dm,
      In dm (e_datamodels (deref (w_heap w) self)) ->
      In dm (e_datamodels (deref (w_heap w') r)) /\
      (In dm (e_datamodels (deref (w_heap w) r)) \/
       In r (dm_elements (dm_deref (w_dms w') dm))).
Proof.
  intros w self key r w' Hv Hr H dm Hdm. unfold Element_setitem in H.
  destruct (import_element (import_fuel w) self (Some r) w) as [w1 [[]|e]] eqn:Hi;
    [|discriminate H].
  inversion H; subst w'. clear H. cbn [w_heap w_dms].
  assert (Hsame : forall x, e_datamodels (deref (update (w_heap w1) self (set_attr key (VElement r))) x)
                            = e_datamodels (deref (w_heap w1) x)).
  { intros x. rewrite deref_update. destruct (decide _) as [[-> _]|_]; reflexivity. }
  rewrite Hsame.
  destruct (import_element_registered w (import_fuel w) self (Some r) w w1 _ Hv Hi)
    as [(_ & _ & _ & _ & Hreg) _].
  assert (Hin : In dm (e_datamodels (deref (w_heap w1) r))).
  { unfold import_fuel in Hi. cbn [import_element] in Hi.
    eapply (forS_each (registered w)
              (fun s => datamodels_valid s /\ length (w_dms s) = length (w_dms w) /\
                        length (w_heap s) = length (w_heap w))
              (fun dm s => In dm (e_datamodels (deref (w_heap s) r))));
      [apply registered_refl | apply registered_trans | | | |
       split; [exact Hv | split; reflexivity] | exact Hi | exact Hdm].
    - intros d s s' q Hd (Hs & Hlen & Hlh) Hstep.
      destruct (import_step_registered w (length (w_heap w) * length (w_dms w)) self r
                  (import_element_registered w _) d s s' q) as [R1 P1];
        [rewrite Hlen; apply (Hv self d Hd) | exact Hs | exact Hstep |].
      split; [exact R1|]. split; [exact P1|].
      destruct R1 as (Hl1 & Hl2 & _). split; congruence.
    - intros d s s' Hd (Hs & Hlen & Hlh) Hstep. cbn beta in Hstep.
      destruct (existsb (Nat.eqb d) (e_datamodels (deref (w_heap s) r))) eqn:E.
      + inversion Hstep; subst. apply existsb_eqb_In, E.
      + destruct (id_in_use _ _ _); [discriminate Hstep|].
        assert (Hd' : (d < length (w_dms s))%nat) by (rewrite Hlen; apply (Hv self d Hd)).
        destruct (import_attrs_registered w (length (w_heap w) * length (w_dms w)) self
                    (import_element_registered w _) _ _ _ _
                    (register_valid s d r Hd' Hs) Hstep) as [(_ & _ & Hkeep & _) _].
        apply Hkeep. unfold register. cbn [w_heap]. rewrite deref_update.
        destruct (decide _) as [_|Hn]; [|exfalso; apply Hn; split; [reflexivity | lia]].
        apply add_datamodel_In. left. reflexivity.
    - intros d s s' (_ & _ & Hkeep & _) Hq. apply Hkeep, Hq. }
  split; [exact Hin|].
  apply (Hreg (fun x d Hd => or_introl Hd) r dm Hin).
Qed.

Lemma assigned_element_joins_datamodels_witness :
  In 1%nat (e_datamodels
              (deref (w_heap (fst (Element_setitem stub_world 2%nat "k" (VElement 0%nat))))
                 0%nat)) /\
  (In 1%nat (e_datamodels (deref (w_heap stub_world) 0%nat)) \/
   In 0%nat (dm_elements
               (dm_deref (w_dms (fst (Element_setitem stub_world 2%nat "k" (VElement 0%nat))))
                  1%nat))).
Proof.
  apply (assigned_element_joins_datamodels stub_world 2%nat "k" 0%nat
           (fst (Element_setitem stub_world 2%nat "k" (VElement 0%nat)))).
  - intros x dm. destruct x as [|[|[|x]]]; cbn; intros H; try lia.
    destruct x; cbn in H; destruct H.
  - cbn. lia.
  - reflexivity.
  - cbn. tauto.
Defined.
